(** * system-monitor: the periodic sampling engine of [system_monitor.py]

    A shallow embedding of [JarvisMonitor.__init__] (the data part) and of
    [JarvisMonitor.update_stats], followed by the properties of the
    sampling engine.

    Conventions of the embedding:
    - Python [float] and [int] values are exact numbers: [Q] for the
      readings and the rates, [Z] for byte counters.  Rounding of floats
      is not modelled.
    - [datetime] values are a number of microseconds ([Z]), the resolution
      of [datetime]; [total_seconds()] divides by [10^6].
    - the text of a Tk label is kept as an unevaluated format expression
      ([text]); the widgets are assumed alive, [config] never raises.
    - every call into the host ([psutil], [platform], [datetime]) takes
      its answer for the tick from a record [world]; an answer is a value
      or a raised exception.
    - canvas drawing ([draw_arc_gauge], [draw_network_graph]) touches no
      attribute of the monitor and is left out. *)

From Stdlib Require Import ZArith QArith Qminmax List String Ascii Bool Lia Permutation.
Import ListNotations.
Local Open Scope Z_scope.

(** ** Exceptions *)

(** The exceptions the tick can meet.  [KeyboardInterrupt] and
    [SystemExit] derive from [BaseException] only: a bare [except:]
    catches them, [except Exception] does not. *)
Inductive exn : Type :=
| ZeroDivisionError
| TypeError
| AttributeError
| PsutilError (msg : string)
| OSError (msg : string)
| KeyboardInterrupt
| SystemExit.

Definition is_Exception (e : exn) : bool :=
  match e with
  | KeyboardInterrupt | SystemExit => false
  | _ => true
  end.

Inductive result (A : Type) : Type :=
| Ok (a : A)
| Raise (e : exn).
Arguments Ok {A} a.
Arguments Raise {A} e.

Definition is_ok {A} (r : result A) : bool :=
  match r with Ok _ => true | Raise _ => false end.

(** An answer that, if it is an exception at all, is an instance of
    [Exception]. *)
Definition error_or_ok {A} (r : result A) : bool :=
  match r with Ok _ => true | Raise e => is_Exception e end.

(** ** collections.deque with a maxlen *)

Module Deque.

Record deque : Type := mk { items : list Q; maxlen : nat }.

(** [deque(init, maxlen=n)]: only the last [n] items of [init] are kept. *)
Definition new (init : list Q) (n : nat) : deque :=
  mk (skipn (List.length init - n) init) n.

(** [d.append(x)]: add on the right; when the deque was full the
    leftmost item is discarded. *)
Definition append (d : deque) (x : Q) : deque :=
  let l := (items d ++ [x])%list in
  mk (if (maxlen d <? List.length l)%nat then tl l else l) (maxlen d).

(** [len(d)] *)
Definition len (d : deque) : nat := List.length (items d).

(** [d[-1]] *)
Definition newest (d : deque) : option Q := last (map Some (items d)) None.

(** one [append] after the other *)
Definition extend (d : deque) (xs : list Q) : deque := fold_left append xs d.

End Deque.

(** ** Data of the monitor *)

(** [psutil.net_io_counters()] *)
Record snetio : Type := { bytes_sent : Z; bytes_recv : Z }.

(** [psutil.virtual_memory()] *)
Record svmem : Type := { vm_percent : Q; vm_used : Z; vm_total : Z }.

(** [psutil.sensors_battery()] when there is a battery *)
Record sbattery : Type := { batt_percent : Q; power_plugged : bool }.

(** [p.info] of [process_iter(['name', 'cpu_percent'])]: psutil stores
    [None] for an attribute it was denied. *)
Record pinfo : Type := { info_name : option string; info_cpu_percent : option Q }.

(** Label texts, as the format expressions of the source. *)
Inductive text : Type :=
| Lit (s : string)
| Fixed (digits : nat) (q : Q)       (* f"{q:.<digits>f}" *)
| Repr (q : Q)                       (* f"{q}" *)
| Int (z : Z)                        (* str(z) *)
| format_bytes (q : Q)
| format_speed (q : Q)
| Strftime (fmt : string) (t : Z)
| StrExn (e : exn)                  (* f"{e}" *)
| Cat (a b : text).

Inductive label : Type :=
| cpu_value_label | cpu_detail_label
| mem_value_label | mem_detail_label
| gpu_value_label | gpu_detail_label
| net_up_label | net_down_label
| total_tx_label | total_rx_label
| swap_label | proc_count_label | battery_label | top_proc_label
| time_label | proc_mem_label.

Definition label_eqb (a b : label) : bool :=
  match a, b with
  | cpu_value_label, cpu_value_label | cpu_detail_label, cpu_detail_label
  | mem_value_label, mem_value_label | mem_detail_label, mem_detail_label
  | gpu_value_label, gpu_value_label | gpu_detail_label, gpu_detail_label
  | net_up_label, net_up_label | net_down_label, net_down_label
  | total_tx_label, total_tx_label | total_rx_label, total_rx_label
  | swap_label, swap_label | proc_count_label, proc_count_label
  | battery_label, battery_label | top_proc_label, top_proc_label
  | time_label, time_label | proc_mem_label, proc_mem_label => true
  | _, _ => false
  end.

(** The attributes of [JarvisMonitor] the tick reads or writes.
    [stdout] collects what [print] wrote, [timers] counts the pending
    [root.after(1000, self.update_stats)] callbacks. *)
Record JarvisMonitor : Type := {
  last_net_io : snetio;
  last_update : Z;
  max_data_points : nat;
  cpu_history : Deque.deque;
  mem_history : Deque.deque;
  net_up_history : Deque.deque;
  net_down_history : Deque.deque;
  labels : label -> text;
  stdout : list text;
  timers : nat
}.

Definition with_last_net_io (v : snetio) (s : JarvisMonitor) : JarvisMonitor :=
  {| last_net_io := v; last_update := last_update s;
     max_data_points := max_data_points s;
     cpu_history := cpu_history s; mem_history := mem_history s;
     net_up_history := net_up_history s; net_down_history := net_down_history s;
     labels := labels s; stdout := stdout s; timers := timers s |}.

Definition with_last_update (v : Z) (s : JarvisMonitor) : JarvisMonitor :=
  {| last_net_io := last_net_io s; last_update := v;
     max_data_points := max_data_points s;
     cpu_history := cpu_history s; mem_history := mem_history s;
     net_up_history := net_up_history s; net_down_history := net_down_history s;
     labels := labels s; stdout := stdout s; timers := timers s |}.

Definition with_cpu_history (v : Deque.deque) (s : JarvisMonitor) : JarvisMonitor :=
  {| last_net_io := last_net_io s; last_update := last_update s;
     max_data_points := max_data_points s;
     cpu_history := v; mem_history := mem_history s;
     net_up_history := net_up_history s; net_down_history := net_down_history s;
     labels := labels s; stdout := stdout s; timers := timers s |}.

Definition with_mem_history (v : Deque.deque) (s : JarvisMonitor) : JarvisMonitor :=
  {| last_net_io := last_net_io s; last_update := last_update s;
     max_data_points := max_data_points s;
     cpu_history := cpu_history s; mem_history := v;
     net_up_history := net_up_history s; net_down_history := net_down_history s;
     labels := labels s; stdout := stdout s; timers := timers s |}.

Definition with_net_up_history (v : Deque.deque) (s : JarvisMonitor) : JarvisMonitor :=
  {| last_net_io := last_net_io s; last_update := last_update s;
     max_data_points := max_data_points s;
     cpu_history := cpu_history s; mem_history := mem_history s;
     net_up_history := v; net_down_history := net_down_history s;
     labels := labels s; stdout := stdout s; timers := timers s |}.

Definition with_net_down_history (v : Deque.deque) (s : JarvisMonitor) : JarvisMonitor :=
  {| last_net_io := last_net_io s; last_update := last_update s;
     max_data_points := max_data_points s;
     cpu_history := cpu_history s; mem_history := mem_history s;
     net_up_history := net_up_history s; net_down_history := v;
     labels := labels s; stdout := stdout s; timers := timers s |}.

Definition with_labels (v : label -> text) (s : JarvisMonitor) : JarvisMonitor :=
  {| last_net_io := last_net_io s; last_update := last_update s;
     max_data_points := max_data_points s;
     cpu_history := cpu_history s; mem_history := mem_history s;
     net_up_history := net_up_history s; net_down_history := net_down_history s;
     labels := v; stdout := stdout s; timers := timers s |}.

Definition with_stdout (v : list text) (s : JarvisMonitor) : JarvisMonitor :=
  {| last_net_io := last_net_io s; last_update := last_update s;
     max_data_points := max_data_points s;
     cpu_history := cpu_history s; mem_history := mem_history s;
     net_up_history := net_up_history s; net_down_history := net_down_history s;
     labels := labels s; stdout := v; timers := timers s |}.

Definition with_timers (v : nat) (s : JarvisMonitor) : JarvisMonitor :=
  {| last_net_io := last_net_io s; last_update := last_update s;
     max_data_points := max_data_points s;
     cpu_history := cpu_history s; mem_history := mem_history s;
     net_up_history := net_up_history s; net_down_history := net_down_history s;
     labels := labels s; stdout := stdout s; timers := v |}.

(** ** The host, as one tick sees it *)

(** One field per call of [update_stats] into the host, in the order of
    the source.  [cpu_freq] is called twice in one expression: once as
    the condition, once for [.current]. *)
Record world : Type := {
  cpu_percent : result Q;
  cpu_freq : result (option Q);
  cpu_count : result (option Z);
  cpu_freq_current : result (option Q);
  virtual_memory : result svmem;
  platform_system : result string;
  platform_machine : result string;
  datetime_now : Z;
  net_io_counters : result snetio;
  swap_memory : result Q;
  pids : result (list Z);
  sensors_battery : result (option sbattery);
  process_iter : list (result pinfo);
  memory_info : result Z
}.

(** ** Computations that may raise *)

Definition rbind {A B} (r : result A) (k : A -> result B) : result B :=
  match r with Ok a => k a | Raise e => Raise e end.

Declare Scope result_scope.
Delimit Scope result_scope with result.
Notation "x <- r ;; k" := (rbind r (fun x => k))
  (at level 61, r at next level, right associativity) : result_scope.

(** A method body: it may raise, and what it wrote to [self] before
    raising stays written. *)
Definition M (A : Type) : Type := JarvisMonitor -> result A * JarvisMonitor.

Definition ret {A} (a : A) : M A := fun s => (Ok a, s).

Definition bind {A B} (m : M A) (k : A -> M B) : M B :=
  fun s => match m s with
           | (Ok a, s') => k a s'
           | (Raise e, s') => (Raise e, s')
           end.

Definition call {A} (r : result A) : M A := fun s => (r, s).
(** reading an attribute of [self] *)
Definition attr {A} (f : JarvisMonitor -> A) : M A := fun s => (Ok (f s), s).
Definition update (f : JarvisMonitor -> JarvisMonitor) : M unit := fun s => (Ok tt, f s).

Declare Scope monitor_scope.
Delimit Scope monitor_scope with monitor.
Notation "x <- m ;; k" := (bind m (fun x => k))
  (at level 61, m at next level, right associativity) : monitor_scope.
Notation "m ;; k" := (bind m (fun _ => k))
  (at level 61, right associativity) : monitor_scope.

(** [try: body / except <class>: handler] *)
Definition try_except (body : M unit) (catches : exn -> bool)
    (handler : exn -> M unit) : M unit :=
  fun s => match body s with
           | (Ok _, s') => (Ok tt, s')
           | (Raise e, s') => if catches e then handler e s' else (Raise e, s')
           end.

(** a bare [except:] *)
Definition anything (e : exn) : bool := true.

Definition pass : M unit := ret tt.

(** ** Python operators used by the tick *)

Definition Qlt_bool (a b : Q) : bool := negb (Qle_bool b a).

(** [td.total_seconds()] of a [timedelta] of [d] microseconds *)
Definition total_seconds (d : Z) : Q := Qmake d 1000000.

(** [a / b] with [a] an int and [b] a float *)
Definition truediv (a : Z) (b : Q) : result Q :=
  if Qeq_bool b 0%Q then Raise ZeroDivisionError else Ok (inject_Z a / b)%Q.

(** [a < b] where either side may be [None] *)
Definition py_lt (a b : option Q) : result bool :=
  match a, b with
  | Some x, Some y => Ok (Qlt_bool x y)
  | _, _ => Raise TypeError
  end.

(** [a > b]: for numbers the reflected [<] *)
Definition py_gt (a b : option Q) : result bool := py_lt b a.

(** [s[:10]]; [None[:10]] is a [TypeError] *)
Definition slice10 (s : option string) : result string :=
  match s with
  | Some s => Ok (substring 0 10 s)
  | None => Raise TypeError
  end.

(** ** Widgets, histories, output *)

Local Open Scope monitor_scope.

(** [self.<l>.config(text=t)] *)
Definition set_label (l : label) (t : text) (s : JarvisMonitor) : JarvisMonitor :=
  with_labels (fun l' => if label_eqb l' l then t else labels s l') s.

Definition config (l : label) (t : text) : M unit := update (set_label l t).

Definition print (t : text) : M unit :=
  update (fun s => with_stdout (stdout s ++ [t]) s).

(** [self.root.after(1000, self.update_stats)] *)
Definition root_after_update_stats : M unit :=
  update (fun s => with_timers (S (timers s)) s).

(** ** [get_gpu_usage] *)

Definition get_gpu_usage (w : world) : string * string :=
  let body : result (string * string) :=
    (system <- platform_system w ;;
     machine <- platform_machine w ;;
     Ok (if String.eqb system "Darwin" then
           if String.eqb machine "arm64" then ("ACTIVE", "Apple Silicon")
           else ("ACTIVE", "Intel GPU")
         else if String.eqb system "Windows" then ("ACTIVE", "Windows GPU")
         else if String.eqb system "Linux" then ("ACTIVE", "Linux GPU")
         else ("ACTIVE", "GPU")))%result%string in
  match body with
  | Ok p => p
  | Raise _ => ("N/A", "Unknown")%string
  end.

(** ** The top CPU process *)

(** One element of the list comprehension:
    [(p.info['name'][:10], p.info['cpu_percent'])]. *)
Definition proc_entry (p : result pinfo) : result (string * option Q) :=
  (i <- p ;;
   n <- slice10 (info_name i) ;;
   Ok (n, info_cpu_percent i))%result.

Fixpoint comprehension (it : list (result pinfo)) : result (list (string * option Q)) :=
  match it with
  | [] => Ok []
  | p :: it' =>
      (e <- proc_entry p ;;
       es <- comprehension it' ;;
       Ok (e :: es))%result
  end.

(** [sorted(procs, key=lambda x: x[1], reverse=True)]: a stable sort,
    largest key first, elements of equal key in their original order; the
    keys are compared with [<].  Insertion from the right end keeps an
    element in front of the later elements it is not smaller than. *)
Fixpoint insert_desc (x : string * option Q) (l : list (string * option Q))
    : result (list (string * option Q)) :=
  match l with
  | [] => Ok [x]
  | y :: l' =>
      (smaller <- py_lt (snd x) (snd y) ;;
       if (smaller : bool) then (r <- insert_desc x l' ;; Ok (y :: r))
       else Ok (x :: y :: l'))%result
  end.

Fixpoint sorted_desc (l : list (string * option Q)) : result (list (string * option Q)) :=
  match l with
  | [] => Ok []
  | x :: l' => (s <- sorted_desc l' ;; insert_desc x s)%result
  end.

(** Lines 810-813: the entry the label is set from, if any. *)
Definition top_cpu_process (it : list (result pinfo)) : result (option (string * option Q)) :=
  (procs <- comprehension it ;;
   procs <- sorted_desc procs ;;
   match firstn 1 procs with
   | [] => Ok None
   | p :: _ => positive <- py_gt (snd p) (Some 0%Q) ;;
               Ok (if (positive : bool) then Some p else None)
   end)%result.

(** ** [update_stats], block by block *)

Definition str_count (n : option Z) : text :=
  match n with Some n => Int n | None => Lit "None" end.

(** The argument of line 747, evaluated before [config] is called: the
    condition [psutil.cpu_freq()] first, then the chosen f-string. *)
Definition cpu_detail (w : world) : result text :=
  (freq <- cpu_freq w ;;
   match freq with
   | Some _ =>
       n <- cpu_count w ;;
       freq' <- cpu_freq_current w ;;
       match freq' with
       | Some current =>
           Ok (Cat (str_count n)
                   (Cat (Lit " CORES @ ") (Cat (Fixed 0 current) (Lit " MHz"))))
       | None => Raise AttributeError
       end
   | None =>
       n <- cpu_count w ;;
       Ok (Cat (str_count n) (Lit " CORES"))
   end)%result.

(** Lines 742-747. *)
Definition update_cpu (w : world) : M unit :=
  c <- call (cpu_percent w) ;;
  update (fun s => with_cpu_history (Deque.append (cpu_history s) c) s) ;;
  config cpu_value_label (Cat (Fixed 1 c) (Lit "%")) ;;
  detail <- call (cpu_detail w) ;;
  config cpu_detail_label detail.

(** Lines 749-754. *)
Definition update_memory (w : world) : M unit :=
  mem <- call (virtual_memory w) ;;
  update (fun s => with_mem_history (Deque.append (mem_history s) (vm_percent mem)) s) ;;
  config mem_value_label (Cat (Fixed 1 (vm_percent mem)) (Lit "%")) ;;
  config mem_detail_label
    (Cat (format_bytes (inject_Z (vm_used mem)))
         (Cat (Lit " / ") (format_bytes (inject_Z (vm_total mem))))).

(** Lines 756-759. *)
Definition update_gpu (w : world) : M unit :=
  let (gpu_status, gpu_info) := get_gpu_usage w in
  config gpu_value_label (Lit gpu_status) ;;
  config gpu_detail_label (Lit gpu_info).

(** Lines 764-768: the two speeds of this tick, or nothing when no time
    has passed since [last_update]. *)
Definition rate (last_net_io : snetio) (last_update : Z)
    (current_net_io : snetio) (now : Z) : result (option (Q * Q)) :=
  let time_delta := total_seconds (now - last_update) in
  (if Qlt_bool 0 time_delta then
     upload_speed <- truediv (bytes_sent current_net_io - bytes_sent last_net_io)
                             time_delta ;;
     download_speed <- truediv (bytes_recv current_net_io - bytes_recv last_net_io)
                               time_delta ;;
     Ok (Some (upload_speed, download_speed))
   else Ok None)%result.

(** Lines 762-784. *)
Definition update_network (w : world) : M unit :=
  let now := datetime_now w in
  current_net_io <- call (net_io_counters w) ;;
  before <- attr last_update ;;
  previous <- attr last_net_io ;;
  speeds <- call (rate previous before current_net_io now) ;;
  match speeds with
  | Some (upload_speed, download_speed) =>
      update (fun s => with_net_up_history (Deque.append (net_up_history s) upload_speed) s) ;;
      update (fun s => with_net_down_history (Deque.append (net_down_history s) download_speed) s) ;;
      config net_up_label (format_speed upload_speed) ;;
      config net_down_label (format_speed download_speed) ;;
      config total_tx_label (format_bytes (inject_Z (bytes_sent current_net_io))) ;;
      config total_rx_label (format_bytes (inject_Z (bytes_recv current_net_io)))
  | None => pass
  end ;;
  update (with_last_net_io current_net_io) ;;
  update (with_last_update now).

(** Lines 787-791. *)
Definition update_swap (w : world) : M unit :=
  try_except
    (swap <- call (swap_memory w) ;;
     config swap_label (Cat (Repr swap) (Lit "%")))
    anything (fun _ => pass).

(** Lines 793-796. *)
Definition update_proc_count (w : world) : M unit :=
  try_except
    (ps <- call (pids w) ;;
     config proc_count_label (Int (Z.of_nat (List.length ps))))
    anything (fun _ => pass).

(** Lines 798-806. *)
Definition update_battery (w : world) : M unit :=
  try_except
    (battery <- call (sensors_battery w) ;;
     match battery with
     | Some b =>
         let status := if power_plugged b then "⚡"%string else ""%string in
         config battery_label (Cat (Fixed 0 (batt_percent b)) (Cat (Lit "%") (Lit status)))
     | None => config battery_label (Lit "AC")
     end)
    anything (fun _ => config battery_label (Lit "N/A")).

(** Lines 808-816. *)
Definition update_top_proc (w : world) : M unit :=
  try_except
    (top <- call (top_cpu_process (process_iter w)) ;;
     match top with
     | Some p => config top_proc_label (Lit (fst p))
     | None => pass
     end)
    anything (fun _ => pass).

(** Lines 818-821. *)
Definition update_footer (w : world) : M unit :=
  config time_label (Strftime "SYS.TIME: %Y-%m-%d %H:%M:%S" (datetime_now w)) ;;
  self_mem <- call (memory_info w) ;;
  config proc_mem_label (Cat (Lit "PROC.MEM: ") (format_bytes (inject_Z self_mem))).

(** The body of the outer [try]. *)
Definition update_stats_body (w : world) : M unit :=
  update_cpu w ;;
  update_memory w ;;
  update_gpu w ;;
  update_network w ;;
  update_swap w ;;
  update_proc_count w ;;
  update_battery w ;;
  update_top_proc w ;;
  update_footer w.

Definition update_stats (w : world) : M unit :=
  try_except (update_stats_body w) is_Exception
    (fun e => print (Cat (Lit "Error updating stats: ") (StrExn e))) ;;
  root_after_update_stats.

(** ** Construction and the timer loop *)

(** The initial texts of the labels, from [setup_ui]. *)
Definition setup_ui_text (l : label) : text :=
  match l with
  | cpu_value_label | mem_value_label | swap_label => Lit "0%"
  | gpu_value_label => Lit "ACTIVE"
  | net_up_label | net_down_label => Lit "0 B/s"
  | total_tx_label | total_rx_label => Lit "0 B"
  | proc_count_label => Lit "0"
  | battery_label => Lit "N/A"
  | top_proc_label => Lit "..."
  | cpu_detail_label | mem_detail_label | gpu_detail_label
  | time_label | proc_mem_label => Lit ""
  end.

(** [__init__] (lines 36-37 and 49-53) followed by [setup_ui]; [net0] and
    [now0] are what [psutil.net_io_counters()] and [datetime.now()]
    answered at construction. *)
Definition init (net0 : snetio) (now0 : Z) : JarvisMonitor :=
  let n := 60%nat in
  {| last_net_io := net0;
     last_update := now0;
     max_data_points := n;
     cpu_history := Deque.new (repeat 0%Q n) n;
     mem_history := Deque.new (repeat 0%Q n) n;
     net_up_history := Deque.new (repeat 0%Q n) n;
     net_down_history := Deque.new (repeat 0%Q n) n;
     labels := setup_ui_text;
     stdout := [];
     timers := 0 |}.

(** The state a method leaves behind. *)
Definition after {A} (m : M A) (s : JarvisMonitor) : JarvisMonitor := snd (m s).

(** Successive calls of [update_stats], one per element of [ws],
    whatever each call raised. *)
Definition ticks (ws : list world) (s : JarvisMonitor) : JarvisMonitor :=
  fold_left (fun s w => after (update_stats w) s) ws s.

(** Tk's timer loop: a pending [after] callback is taken off the queue
    and called; an exception that leaves the callback is reported by Tk
    and the loop goes on.  With no callback pending nothing samples any
    more.  The result counts the ticks that ran. *)
Fixpoint mainloop (ws : list world) (s : JarvisMonitor) : nat * JarvisMonitor :=
  match ws with
  | [] => (0%nat, s)
  | w :: ws' =>
      match timers s with
      | O => (0%nat, s)
      | S pending =>
          let (k, s') := mainloop ws' (after (update_stats w) (with_timers pending s)) in
          (S k, s')
      end
  end.

(** * Properties *)

(** ** The bounded deque *)

Section DequeFacts.

Import Deque.
Local Open Scope nat_scope.

Lemma deque_append_maxlen (d : deque) (x : Q) : maxlen (append d x) = maxlen d.
Proof. reflexivity. Qed.

Lemma deque_extend_maxlen (xs : list Q) (d : deque) : maxlen (extend d xs) = maxlen d.
Proof.
  revert d; induction xs as [|x xs IH]; intro d; [reflexivity|].
  change (extend d (x :: xs)) with (extend (append d x) xs).
  rewrite IH. reflexivity.
Qed.

Lemma deque_append_len (d : deque) (x : Q) :
  len d <= maxlen d -> len (append d x) = Nat.min (S (len d)) (maxlen d).
Proof.
  unfold len, append; cbn [items maxlen]. intro Hle.
  assert (Hl : List.length (items d ++ [x]) = S (List.length (items d)))
    by (rewrite length_app; simpl; lia).
  rewrite Hl.
  destruct (Nat.ltb_spec (maxlen d) (S (List.length (items d)))) as [Hlt|Hge].
  - revert Hle Hlt.
    destruct (items d) as [|a l]; cbn [List.length tl app]; intros; [lia|].
    rewrite length_app; cbn [List.length]. lia.
  - rewrite Hl. lia.
Qed.

Lemma deque_append_full (d : deque) (x : Q) :
  1 <= maxlen d -> len d = maxlen d -> items (append d x) = tl (items d) ++ [x].
Proof.
  unfold len, append; simpl. intros Hpos Hfull.
  rewrite length_app; simpl.
  destruct (Nat.ltb_spec (maxlen d) (List.length (items d) + 1)) as [_|Hge]; [|lia].
  revert Hfull. destruct (items d); simpl; intros; [lia|reflexivity].
Qed.

Lemma last_map_snoc (l : list Q) (x : Q) : last (map Some (l ++ [x])) None = Some x.
Proof.
  induction l as [|a l IH]; simpl; [reflexivity|].
  rewrite <- IH. destruct (l ++ [x]) eqn:E; [destruct l; discriminate|reflexivity].
Qed.

Lemma deque_append_newest (d : deque) (x : Q) :
  1 <= maxlen d -> newest (append d x) = Some x.
Proof.
  unfold newest, append; simpl. intro Hpos.
  rewrite length_app; simpl.
  destruct (Nat.ltb_spec (maxlen d) (List.length (items d) + 1)) as [Hlt|_].
  - revert Hlt. destruct (items d) as [|a l]; simpl; intros; [lia|]. apply last_map_snoc.
  - apply last_map_snoc.
Qed.

Lemma deque_extend_len (xs : list Q) (d : deque) :
  len d <= maxlen d ->
  len (extend d xs) = Nat.min (len d + List.length xs) (maxlen d).
Proof.
  revert d; induction xs as [|x xs IH]; intros d Hle.
  - simpl. rewrite Nat.add_0_r. lia.
  - change (extend d (x :: xs)) with (extend (append d x) xs).
    assert (Hx : len (append d x) = Nat.min (S (len d)) (maxlen d))
      by (apply deque_append_len; assumption).
    rewrite IH by (rewrite deque_append_maxlen, Hx; lia).
    rewrite deque_append_maxlen, Hx. simpl List.length. lia.
Qed.

Lemma deque_extend_newest (xs : list Q) (x : Q) (d : deque) :
  1 <= maxlen d -> newest (extend d (xs ++ [x])) = Some x.
Proof.
  intro Hpos. unfold extend. rewrite fold_left_app. simpl.
  apply deque_append_newest. fold (extend d xs).
  rewrite deque_extend_maxlen. assumption.
Qed.

Lemma deque_new_repeat (n : nat) (v : Q) : new (repeat v n) n = mk (repeat v n) n.
Proof.
  unfold new. rewrite repeat_length, Nat.sub_diag. reflexivity.
Qed.

End DequeFacts.

(** ** The rate computation *)

Lemma Qlt_bool_total_seconds (d : Z) : Qlt_bool 0 (total_seconds d) = (0 <? d).
Proof.
  unfold Qlt_bool, Qle_bool, total_seconds; simpl.
  rewrite Z.mul_1_r.
  destruct (Z.leb_spec d 0), (Z.ltb_spec 0 d); simpl; try reflexivity; lia.
Qed.

Lemma Qeq_bool_total_seconds (d : Z) : 0 < d -> Qeq_bool (total_seconds d) 0 = false.
Proof.
  intro Hd. unfold Qeq_bool, total_seconds; simpl.
  rewrite Z.mul_1_r. apply Z.eqb_neq. lia.
Qed.

Lemma rate_nonpositive (prev cur : snetio) (before now : Z) :
  now - before <= 0 -> rate prev before cur now = Ok None.
Proof.
  intro Hd. unfold rate. rewrite Qlt_bool_total_seconds.
  destruct (Z.ltb_spec 0 (now - before)); [lia|reflexivity].
Qed.

Lemma rate_positive (prev cur : snetio) (before now : Z) :
  0 < now - before ->
  rate prev before cur now =
  Ok (Some ((inject_Z (bytes_sent cur - bytes_sent prev) / total_seconds (now - before))%Q,
            (inject_Z (bytes_recv cur - bytes_recv prev) / total_seconds (now - before))%Q)).
Proof.
  intro Hd. unfold rate, truediv. rewrite Qlt_bool_total_seconds.
  destruct (Z.ltb_spec 0 (now - before)); [|lia].
  rewrite Qeq_bool_total_seconds by assumption. reflexivity.
Qed.

(** The guard [time_delta > 0] keeps the division away from zero: no
    answer of [rate] is an exception. *)
Lemma rate_never_raises (prev cur : snetio) (before now : Z) :
  exists speeds, rate prev before cur now = Ok speeds.
Proof.
  destruct (Z.lt_ge_cases 0 (now - before)) as [Hpos|Hneg].
  - eexists. apply rate_positive. assumption.
  - exists None. apply rate_nonpositive. lia.
Qed.

(** ** The top CPU process *)

Lemma Qlt_bool_true (x y : Q) : Qlt_bool x y = true <-> (x < y)%Q.
Proof.
  unfold Qlt_bool. rewrite negb_true_iff. split.
  - intro H. apply Qnot_le_lt. intro Hle. apply Qle_bool_iff in Hle. congruence.
  - intro H. destruct (Qle_bool y x) eqn:E; [|reflexivity].
    apply Qle_bool_iff in E. exfalso. exact (Qlt_not_le _ _ H E).
Qed.

Lemma Qlt_bool_false (x y : Q) : Qlt_bool x y = false <-> (y <= x)%Q.
Proof.
  unfold Qlt_bool. rewrite negb_false_iff. apply Qle_bool_iff.
Qed.

(** An entry both of whose attributes psutil could read. *)
Definition readable (p : result pinfo) : bool :=
  match p with
  | Ok {| info_name := Some _; info_cpu_percent := Some _ |} => true
  | _ => false
  end.

(** The process psutil yields for a name and a CPU percentage. *)
Definition proc (p : string * Q) : result pinfo :=
  Ok {| info_name := Some (fst p); info_cpu_percent := Some (snd p) |}.

(** What the block of lines 808-816 reports: the entry whose name it
    writes to [top_proc_label], or nothing, also when the block's
    handler swallowed an exception. *)
Definition selected (it : list (result pinfo)) : option (string * option Q) :=
  match top_cpu_process it with
  | Ok (Some p) => Some p
  | Ok None | Raise _ => None
  end.

Definition has_key (p : string * option Q) : Prop := exists q, snd p = Some q.

Section Sorting.

Local Open Scope result_scope.

Lemma insert_desc_total (x : string * option Q) (l : list (string * option Q)) :
  has_key x -> Forall has_key l ->
  exists l', insert_desc x l = Ok l' /\ Permutation (x :: l) l'.
Proof.
  intros [qx Hx] Hl. induction Hl as [|y l [qy Hy] Hl IH].
  - exists [x]. split; [reflexivity|apply Permutation_refl].
  - simpl. rewrite Hx, Hy. simpl.
    destruct (Qlt_bool qx qy).
    + destruct IH as [r [Hr Hp]]. rewrite Hr. simpl.
      exists (y :: r). split; [reflexivity|].
      apply perm_trans with (y :: x :: l); [apply perm_swap|].
      apply perm_skip. assumption.
    + exists (x :: y :: l). split; [reflexivity|apply Permutation_refl].
Qed.

Lemma sorted_desc_total (l : list (string * option Q)) :
  Forall has_key l -> exists l', sorted_desc l = Ok l' /\ Permutation l l'.
Proof.
  induction 1 as [|x l Hx Hl [s [Hs Hp]]].
  - exists []. split; [reflexivity|apply perm_nil].
  - simpl. rewrite Hs. simpl.
    destruct (insert_desc_total x s Hx) as [l' [Hl' Hp']].
    + eapply Permutation_Forall; eassumption.
    + exists l'. split; [assumption|].
      apply perm_trans with (x :: s); [apply perm_skip; assumption|assumption].
Qed.

(** The first of the largest entries ends up in front. *)
Lemma sorted_desc_first_max (l1 l2 : list (string * option Q)) (n : string) (c : Q) :
  Forall (fun p => exists q, snd p = Some q /\ (q < c)%Q) l1 ->
  Forall (fun p => exists q, snd p = Some q /\ (q <= c)%Q) l2 ->
  exists rest, sorted_desc (l1 ++ (n, Some c) :: l2) = Ok ((n, Some c) :: rest).
Proof.
  intros H1 H2. induction H1 as [|x l1 [qx [Hx Hlt]] H1 [rest IH]].
  - simpl.
    destruct (sorted_desc_total l2) as [s [Hs Hp]].
    { eapply Forall_impl; [|exact H2]. intros p [q [Hq _]]. exists q. exact Hq. }
    rewrite Hs. simpl.
    destruct s as [|y s]; [eexists; reflexivity|].
    assert (Hy : exists q, snd y = Some q /\ (q <= c)%Q).
    { eapply Permutation_Forall in H2; [|exact Hp]. inversion H2; assumption. }
    destruct Hy as [qy [Hy Hle]]. simpl. rewrite Hy. simpl.
    apply Qlt_bool_false in Hle. rewrite Hle. eexists; reflexivity.
  - simpl. rewrite IH. simpl. rewrite Hx. simpl.
    apply Qlt_bool_true in Hlt. rewrite Hlt.
    assert (Hkeys : Forall has_key ((n, Some c) :: rest)).
    { destruct (sorted_desc_total (l1 ++ (n, Some c) :: l2)) as [s [Hs Hp]].
      - apply Forall_app. split.
        + eapply Forall_impl; [|exact H1]. intros p [q [Hq _]]. exists q. exact Hq.
        + constructor; [exists c; reflexivity|].
          eapply Forall_impl; [|exact H2]. intros p [q [Hq _]]. exists q. exact Hq.
      - rewrite IH in Hs. inversion Hs; subst.
        eapply Permutation_Forall; [exact Hp|].
        apply Forall_app. split.
        + eapply Forall_impl; [|exact H1]. intros p [q [Hq _]]. exists q. exact Hq.
        + constructor; [exists c; reflexivity|].
          eapply Forall_impl; [|exact H2]. intros p [q [Hq _]]. exists q. exact Hq. }
    inversion Hkeys as [|? ? _ Hrest]; subst.
    destruct (insert_desc_total x rest) as [r [Hr _]];
      [exists qx; assumption|assumption|].
    rewrite Hr. simpl. eexists; reflexivity.
Qed.

Lemma insert_desc_inv (x : string * option Q) (l l' : list (string * option Q)) :
  insert_desc x l = Ok l' ->
  Permutation (x :: l) l' /\
  (forall y t, l = y :: t -> has_key x /\ has_key y).
Proof.
  revert l'. induction l as [|y l IH]; intros l' H; simpl in H.
  - inversion H; subst. split; [apply Permutation_refl|discriminate].
  - destruct (snd x) as [qx|] eqn:Hx; [|discriminate].
    destruct (snd y) as [qy|] eqn:Hy; [|discriminate].
    simpl in H. split.
    + destruct (Qlt_bool qx qy).
      * destruct (insert_desc x l) as [r|] eqn:Hr; [|discriminate].
        simpl in H. inversion H; subst.
        apply perm_trans with (y :: x :: l); [apply perm_swap|].
        apply perm_skip. apply (IH r). reflexivity.
      * inversion H; subst. apply Permutation_refl.
    + intros y0 t Heq. inversion Heq; subst.
      split; [exists qx; assumption|exists qy; assumption].
Qed.

Lemma sorted_desc_inv (l l' : list (string * option Q)) :
  sorted_desc l = Ok l' ->
  Permutation l l' /\ ((2 <= List.length l)%nat -> Forall has_key l).
Proof.
  revert l'. induction l as [|x l IH]; intros l' H; simpl in H.
  - inversion H; subst. split; [apply perm_nil|simpl; lia].
  - destruct (sorted_desc l) as [s|] eqn:Hs; [|discriminate]. simpl in H.
    destruct (IH s eq_refl) as [Hp Hk].
    destruct (insert_desc_inv _ _ _ H) as [Hp' Hhd].
    split.
    + apply perm_trans with (x :: s); [apply perm_skip; assumption|assumption].
    + simpl. intro Hlen.
      destruct s as [|y t].
      { apply Permutation_sym, Permutation_nil in Hp. subst. simpl in Hlen. lia. }
      destruct (Hhd y t eq_refl) as [Hx Hy].
      constructor; [assumption|].
      destruct l as [|a [|b l]].
      * constructor.
      * apply Permutation_length_1_inv in Hp. inversion Hp; subst.
        constructor; [assumption|constructor].
      * apply Hk. simpl. lia.
Qed.

End Sorting.

Section TopProcess.

Local Open Scope result_scope.

(** The tuple the comprehension builds from a readable entry. *)
Definition entry (p : string * Q) : string * option Q :=
  (substring 0 10 (fst p), Some (snd p)).

Lemma comprehension_readable (l : list (string * Q)) :
  comprehension (map proc l) = Ok (map entry l).
Proof.
  induction l as [|p l IH]; simpl; [reflexivity|].
  rewrite IH. reflexivity.
Qed.

Lemma comprehension_inv (it : list (result pinfo)) (l : list (string * option Q)) :
  comprehension it = Ok l -> Forall2 (fun r p => proc_entry r = Ok p) it l.
Proof.
  revert l. induction it as [|r it IH]; intros l H; simpl in H.
  - inversion H. constructor.
  - destruct (proc_entry r) as [e|] eqn:He; [|discriminate]. simpl in H.
    destruct (comprehension it) as [es|]; [|discriminate]. simpl in H.
    inversion H; subst. constructor; [assumption|apply IH; reflexivity].
Qed.

Lemma proc_entry_inv (r : result pinfo) (p : string * option Q) :
  proc_entry r = Ok p ->
  exists i full, r = Ok i /\ info_name i = Some full /\
                 p = (substring 0 10 full, info_cpu_percent i).
Proof.
  destruct r as [i|e]; [|discriminate]. unfold proc_entry; simpl.
  destruct (info_name i) as [full|] eqn:Hn; [|discriminate]. simpl.
  intro H. inversion H. exists i, full. repeat split; assumption.
Qed.

Lemma top_cpu_process_first_max (l1 l2 : list (string * Q)) (n : string) (c : Q) :
  Forall (fun p => (snd p < c)%Q) l1 ->
  Forall (fun p => (snd p <= c)%Q) l2 ->
  (0 < c)%Q ->
  top_cpu_process (map proc (l1 ++ (n, c) :: l2)) = Ok (Some (substring 0 10 n, Some c)).
Proof.
  intros H1 H2 Hc. unfold top_cpu_process.
  rewrite comprehension_readable. simpl.
  rewrite map_app. simpl.
  destruct (sorted_desc_first_max (map entry l1) (map entry l2) (substring 0 10 n) c)
    as [rest Hs].
  - apply Forall_map. eapply Forall_impl; [|exact H1].
    intros p Hp. exists (snd p). split; [reflexivity|assumption].
  - apply Forall_map. eapply Forall_impl; [|exact H2].
    intros p Hp. exists (snd p). split; [reflexivity|assumption].
  - unfold entry at 2. simpl. rewrite Hs. simpl.
    apply Qlt_bool_true in Hc. unfold py_gt. simpl. rewrite Hc. reflexivity.
Qed.

Lemma top_cpu_process_idle (l : list (string * Q)) :
  Forall (fun p => (snd p <= 0)%Q) l ->
  top_cpu_process (map proc l) = Ok None.
Proof.
  intro H. unfold top_cpu_process.
  rewrite comprehension_readable. simpl.
  destruct (sorted_desc_total (map entry l)) as [s [Hs Hp]].
  { apply Forall_map. apply Forall_forall. intros p _. exists (snd p). reflexivity. }
  rewrite Hs. simpl.
  destruct s as [|y s]; [reflexivity|]. simpl.
  assert (Hy : In y (map entry l)).
  { eapply Permutation_in; [apply Permutation_sym; exact Hp|left; reflexivity]. }
  apply in_map_iff in Hy. destruct Hy as [p [Hy Hin]]. subst y.
  rewrite Forall_forall in H. specialize (H p Hin).
  unfold py_gt. simpl. apply Qlt_bool_false in H. rewrite H. reflexivity.
Qed.

(** One unreadable entry makes the whole block raise. *)
Lemma top_cpu_process_unreadable (it : list (result pinfo)) :
  Exists (fun r => readable r = false) it ->
  exists e, top_cpu_process it = Raise e.
Proof.
  intro Hex. unfold top_cpu_process.
  destruct (comprehension it) as [l|e] eqn:Hc; [|exists e; reflexivity]. simpl.
  apply comprehension_inv in Hc.
  assert (Hnone : Exists (fun p => snd p = None) l).
  { induction Hc as [|r p it l Hrp Hc IH]; inversion Hex; subst.
    - apply proc_entry_inv in Hrp. destruct Hrp as [i [full [Hr [Hn Hp]]]]. subst.
      left. simpl. destruct i as [nm cpu]. simpl in *. subst.
      destruct cpu; [discriminate|reflexivity].
    - right. apply IH. assumption. }
  destruct (sorted_desc l) as [s|e] eqn:Hs; [|exists e; reflexivity]. simpl.
  destruct (sorted_desc_inv _ _ Hs) as [Hp Hk].
  assert (Hnone' : Exists (fun p => snd p = None) s).
  { apply Exists_exists in Hnone. destruct Hnone as [p [Hin Hp0]].
    apply Exists_exists. exists p. split; [eapply Permutation_in; eassumption|assumption]. }
  destruct l as [|a [|b l]].
  - inversion Hnone.
  - apply Permutation_length_1_inv in Hp. subst s. simpl.
    inversion Hnone' as [? ? Ha|? ? Ha]; [|inversion Ha]. subst.
    rewrite Ha. exists TypeError. reflexivity.
  - exfalso. assert (Hall : Forall has_key (a :: b :: l)) by (apply Hk; simpl; lia).
    apply Exists_exists in Hnone. destruct Hnone as [p [Hin Hp0]].
    rewrite Forall_forall in Hall. destruct (Hall p Hin) as [q Hq]. congruence.
Qed.

Lemma top_cpu_process_origin (it : list (result pinfo)) (n : string) (c : option Q) :
  top_cpu_process it = Ok (Some (n, c)) ->
  exists i full, In (Ok i) it /\ info_name i = Some full /\
                 n = substring 0 10 full /\ c = info_cpu_percent i.
Proof.
  unfold top_cpu_process. intro H.
  destruct (comprehension it) as [l|] eqn:Hc; [|discriminate]. simpl in H.
  destruct (sorted_desc l) as [s|] eqn:Hs; [|discriminate]. simpl in H.
  destruct s as [|p s]; [discriminate|]. simpl in H.
  unfold py_gt, py_lt in H.
  destruct (snd p) as [y|]; [|discriminate].
  destruct (Qlt_bool 0 y); simpl in H; [|discriminate].
  injection H as Heq. subst p.
  destruct (sorted_desc_inv _ _ Hs) as [Hp _].
  assert (Hin : In (n, c) l).
  { eapply Permutation_in; [apply Permutation_sym; exact Hp|left; reflexivity]. }
  apply comprehension_inv in Hc.
  clear - Hc Hin. induction Hc as [|r p it l Hrp Hc IH]; [inversion Hin|].
  destruct Hin as [Heq|Hin].
  - subst p. apply proc_entry_inv in Hrp.
    destruct Hrp as [i [full [Hr [Hn Hp]]]]. inversion Hp; subst.
    exists i, full. repeat split; [left; reflexivity|assumption].
  - destruct (IH Hin) as [i [full [Hi Hrest]]].
    exists i, full. split; [right; assumption|assumption].
Qed.

Lemma substring_prefix (n : nat) (s : string) : prefix (substring 0 n s) s = true.
Proof.
  revert s. induction n as [|n IH]; intro s; destruct s as [|a s]; simpl; try reflexivity.
  rewrite IH. destruct (ascii_dec a a); [reflexivity|congruence].
Qed.

Lemma substring_length (n : nat) (s : string) :
  String.length (substring 0 n s) = Nat.min n (String.length s).
Proof.
  revert s. induction n as [|n IH]; intro s; destruct s as [|a s]; simpl; try reflexivity.
  rewrite IH. reflexivity.
Qed.

End TopProcess.

(** ** What each block of the tick leaves behind *)

Section Blocks.

Variable w : world.

Definition cpu_done (c : Q) (detail : text) (s : JarvisMonitor) : JarvisMonitor :=
  set_label cpu_detail_label detail
    (set_label cpu_value_label (Cat (Fixed 1 c) (Lit "%"))
       (with_cpu_history (Deque.append (cpu_history s) c) s)).

Definition mem_done (mem : svmem) (s : JarvisMonitor) : JarvisMonitor :=
  set_label mem_detail_label
    (Cat (format_bytes (inject_Z (vm_used mem)))
         (Cat (Lit " / ") (format_bytes (inject_Z (vm_total mem)))))
    (set_label mem_value_label (Cat (Fixed 1 (vm_percent mem)) (Lit "%"))
       (with_mem_history (Deque.append (mem_history s) (vm_percent mem)) s)).

Definition gpu_done (s : JarvisMonitor) : JarvisMonitor :=
  set_label gpu_detail_label (Lit (snd (get_gpu_usage w)))
    (set_label gpu_value_label (Lit (fst (get_gpu_usage w))) s).

Definition speeds_shown (up down : Q) (cur : snetio) (s : JarvisMonitor) : JarvisMonitor :=
  set_label total_rx_label (format_bytes (inject_Z (bytes_recv cur)))
    (set_label total_tx_label (format_bytes (inject_Z (bytes_sent cur)))
       (set_label net_down_label (format_speed down)
          (set_label net_up_label (format_speed up)
             (with_net_down_history (Deque.append (net_down_history s) down)
                (with_net_up_history (Deque.append (net_up_history s) up) s))))).

Definition net_done (cur : snetio) (s : JarvisMonitor) : JarvisMonitor :=
  with_last_update (datetime_now w)
    (with_last_net_io cur
       (match rate (last_net_io s) (last_update s) cur (datetime_now w) with
        | Ok (Some (up, down)) => speeds_shown up down cur s
        | Ok None | Raise _ => s
        end)).

Definition swap_done (s : JarvisMonitor) : JarvisMonitor :=
  match swap_memory w with
  | Ok swap => set_label swap_label (Cat (Repr swap) (Lit "%")) s
  | Raise _ => s
  end.

Definition proc_count_done (s : JarvisMonitor) : JarvisMonitor :=
  match pids w with
  | Ok ps => set_label proc_count_label (Int (Z.of_nat (List.length ps))) s
  | Raise _ => s
  end.

Definition battery_text : text :=
  match sensors_battery w with
  | Ok (Some b) =>
      Cat (Fixed 0 (batt_percent b))
          (Cat (Lit "%") (Lit (if power_plugged b then "⚡" else "")))
  | Ok None => Lit "AC"
  | Raise _ => Lit "N/A"
  end.

Definition battery_done (s : JarvisMonitor) : JarvisMonitor :=
  set_label battery_label battery_text s.

Definition top_proc_done (s : JarvisMonitor) : JarvisMonitor :=
  match selected (process_iter w) with
  | Some p => set_label top_proc_label (Lit (fst p)) s
  | None => s
  end.

Definition live_done (s : JarvisMonitor) : JarvisMonitor :=
  top_proc_done (battery_done (proc_count_done (swap_done s))).

(** The guarded blocks never raise. *)
Lemma update_swap_eq (s : JarvisMonitor) : update_swap w s = (Ok tt, swap_done s).
Proof.
  unfold update_swap, swap_done, try_except, bind, call, config, update, pass, ret.
  destruct (swap_memory w); reflexivity.
Qed.

Lemma update_proc_count_eq (s : JarvisMonitor) :
  update_proc_count w s = (Ok tt, proc_count_done s).
Proof.
  unfold update_proc_count, proc_count_done, try_except, bind, call, config, update, pass, ret.
  destruct (pids w); reflexivity.
Qed.

Lemma update_battery_eq (s : JarvisMonitor) : update_battery w s = (Ok tt, battery_done s).
Proof.
  unfold update_battery, battery_done, battery_text, try_except, bind, call, config, update.
  destruct (sensors_battery w) as [[b|]|e]; reflexivity.
Qed.

Lemma update_top_proc_eq (s : JarvisMonitor) : update_top_proc w s = (Ok tt, top_proc_done s).
Proof.
  unfold update_top_proc, top_proc_done, selected, try_except, bind, call, config,
    update, pass, ret.
  destruct (top_cpu_process (process_iter w)) as [[p|]|e]; reflexivity.
Qed.

Lemma update_gpu_eq (s : JarvisMonitor) : update_gpu w s = (Ok tt, gpu_done s).
Proof.
  unfold update_gpu, gpu_done. destruct (get_gpu_usage w). reflexivity.
Qed.

Lemma update_network_eq (s : JarvisMonitor) :
  update_network w s =
  match net_io_counters w with
  | Ok cur => (Ok tt, net_done cur s)
  | Raise e => (Raise e, s)
  end.
Proof.
  unfold update_network, net_done, bind, call, attr.
  destruct (net_io_counters w) as [cur|e]; [|reflexivity].
  destruct (rate_never_raises (last_net_io s) cur (last_update s) (datetime_now w))
    as [speeds Hspeeds].
  rewrite Hspeeds. destruct speeds as [[up down]|]; reflexivity.
Qed.

Lemma update_cpu_eq (s : JarvisMonitor) :
  update_cpu w s =
  match cpu_percent w with
  | Ok c =>
      match cpu_detail w with
      | Ok detail => (Ok tt, cpu_done c detail s)
      | Raise e =>
          (Raise e, set_label cpu_value_label (Cat (Fixed 1 c) (Lit "%"))
                      (with_cpu_history (Deque.append (cpu_history s) c) s))
      end
  | Raise e => (Raise e, s)
  end.
Proof.
  unfold update_cpu, cpu_done, bind, call, config, update.
  destruct (cpu_percent w) as [c|e]; [|reflexivity].
  destruct (cpu_detail w); reflexivity.
Qed.

Lemma update_memory_eq (s : JarvisMonitor) :
  update_memory w s =
  match virtual_memory w with
  | Ok mem => (Ok tt, mem_done mem s)
  | Raise e => (Raise e, s)
  end.
Proof.
  unfold update_memory, mem_done, bind, call, config, update.
  destruct (virtual_memory w); reflexivity.
Qed.

(** The end of the tick: the footer, the outer handler, the timer. *)
Definition closing : M unit :=
  try_except (update_footer w) is_Exception
    (fun e => print (Cat (Lit "Error updating stats: ") (StrExn e))) ;;
  root_after_update_stats.

(** A tick whose CPU, memory and network reads succeed runs every
    block. *)
Lemma update_stats_reached (s : JarvisMonitor) (c : Q) (detail : text)
    (mem : svmem) (cur : snetio) :
  cpu_percent w = Ok c -> cpu_detail w = Ok detail ->
  virtual_memory w = Ok mem -> net_io_counters w = Ok cur ->
  update_stats w s =
  closing (live_done (net_done cur (gpu_done (mem_done mem (cpu_done c detail s))))).
Proof.
  intros Hc Hd Hm Hn.
  unfold update_stats, closing, update_stats_body, live_done.
  unfold bind at 1. unfold try_except at 1.
  unfold bind at 1. rewrite update_cpu_eq, Hc, Hd.
  unfold bind at 1. rewrite update_memory_eq, Hm.
  unfold bind at 1. rewrite update_gpu_eq.
  unfold bind at 1. rewrite update_network_eq, Hn.
  unfold bind at 1. rewrite update_swap_eq.
  unfold bind at 1. rewrite update_proc_count_eq.
  unfold bind at 1. rewrite update_battery_eq.
  unfold bind at 1. rewrite update_top_proc_eq.
  reflexivity.
Qed.

End Blocks.

(** ** Invariants of a method body *)

(** [safe I C m]: [m] keeps [I], whether it returns or raises, and every
    exception that leaves [m] satisfies [C]. *)
Definition safe {A} (I : JarvisMonitor -> Prop) (C : exn -> Prop) (m : M A) : Prop :=
  forall s, I s ->
    match m s with
    | (Ok _, s') => I s'
    | (Raise e, s') => I s' /\ C e
    end.

Section SafeRules.

Variable I : JarvisMonitor -> Prop.
Variable C : exn -> Prop.

Lemma safe_ret {A} (a : A) : safe I C (ret a).
Proof. intros s Hs. exact Hs. Qed.

Lemma safe_call {A} (r : result A) :
  (forall e, r = Raise e -> C e) -> safe I C (call r).
Proof.
  intros Hr s Hs. unfold call. destruct r as [a|e]; [exact Hs|].
  split; [exact Hs|apply Hr; reflexivity].
Qed.

Lemma safe_attr {A} (f : JarvisMonitor -> A) : safe I C (attr f).
Proof. intros s Hs. exact Hs. Qed.

Lemma safe_update (f : JarvisMonitor -> JarvisMonitor) :
  (forall s, I s -> I (f s)) -> safe I C (update f).
Proof. intros Hf s Hs. apply Hf, Hs. Qed.

Lemma safe_bind {A B} (m : M A) (k : A -> M B) :
  safe I C m -> (forall a, safe I C (k a)) -> safe I C (bind m k).
Proof.
  intros Hm Hk s Hs. unfold bind. specialize (Hm s Hs).
  destruct (m s) as [[a|e] s']; [apply Hk; exact Hm|exact Hm].
Qed.

(** A handler that catches everything lets nothing out. *)
Lemma safe_try_bare (body : M unit) (handler : exn -> M unit) :
  safe I (fun _ => True) body -> (forall e, safe I C (handler e)) ->
  safe I C (try_except body anything handler).
Proof.
  intros Hb Hh s Hs. unfold try_except. specialize (Hb s Hs).
  destruct (body s) as [[[]|e] s']; [exact Hb|].
  simpl. apply Hh. apply Hb.
Qed.

Lemma safe_try (body : M unit) (catches : exn -> bool) (handler : exn -> M unit) :
  safe I (fun _ => True) body ->
  (forall e, safe I C (handler e)) ->
  (forall e, catches e = false -> C e) ->
  safe I C (try_except body catches handler).
Proof.
  intros Hb Hh Hc s Hs. unfold try_except. specialize (Hb s Hs).
  destruct (body s) as [[[]|e] s']; [exact Hb|].
  destruct (catches e) eqn:E; [apply Hh; apply Hb|].
  split; [apply Hb|apply Hc; exact E].
Qed.

End SafeRules.

Lemma safe_weaken {A} (I : JarvisMonitor -> Prop) (C C' : exn -> Prop) (m : M A) :
  (forall e, C e -> C' e) -> safe I C m -> safe I C' m.
Proof.
  intros HC Hm s Hs. specialize (Hm s Hs).
  destruct (m s) as [[a|e] s']; [exact Hm|].
  split; [apply Hm|apply HC, Hm].
Qed.

(** Follows the structure of a body; what is left is that each write
    keeps the invariant and each exception is of the stated kind. *)
Ltac safe_walk :=
  repeat match goal with
    | |- safe _ _ (bind _ _) => apply safe_bind; [|intro]
    | |- safe _ _ (try_except _ anything _) => apply safe_try_bare
    | |- safe _ _ (ret _) => apply safe_ret
    | |- safe _ _ (attr _) => apply safe_attr
    | |- safe _ _ (call _) => apply safe_call
    | |- safe _ _ (update _) => apply safe_update
    | |- safe _ _ (config _ _) => unfold config
    | |- safe _ _ pass => unfold pass
    | |- safe _ _ (match ?x with _ => _ end) => destruct x
    | |- forall e : exn, safe _ _ _ => intro
    end.

(** The labels of the network panel. *)
Definition written_by_network (l : label) : bool :=
  match l with
  | net_up_label | net_down_label | total_tx_label | total_rx_label => true
  | _ => false
  end.

(** The block of the top process lets no exception out: an invariant
    that the text of its label cannot break holds through it. *)
Lemma safe_update_top_proc (I : JarvisMonitor -> Prop) (C : exn -> Prop) (w : world) :
  (forall t s, I s -> I (set_label top_proc_label t s)) ->
  safe I C (update_top_proc w).
Proof.
  intros Hl s Hs. rewrite update_top_proc_eq. unfold top_proc_done.
  destruct (selected (process_iter w)); [apply Hl|]; exact Hs.
Qed.

(** An invariant that the network block and the block of the top process
    keep, and that no other label and no item of the CPU and memory
    histories can break, holds through the body of the tick. *)
Section BodyInvariant.

Variable I : JarvisMonitor -> Prop.
Variable C : exn -> Prop.
Variable w : world.

Hypothesis I_label :
  forall l t s, written_by_network l = false -> label_eqb l top_proc_label = false ->
                I s -> I (set_label l t s).
Hypothesis I_cpu : forall x s, I s -> I (with_cpu_history (Deque.append (cpu_history s) x) s).
Hypothesis I_mem : forall x s, I s -> I (with_mem_history (Deque.append (mem_history s) x) s).
Hypothesis I_net : safe I C (update_network w).
Hypothesis I_top : safe I C (update_top_proc w).
Hypothesis C_cpu : forall e, cpu_percent w = Raise e -> C e.
Hypothesis C_detail : forall e, cpu_detail w = Raise e -> C e.
Hypothesis C_mem : forall e, virtual_memory w = Raise e -> C e.
Hypothesis C_rss : forall e, memory_info w = Raise e -> C e.

Lemma safe_update_stats_body : safe I C (update_stats_body w).
Proof.
  unfold update_stats_body.
  apply safe_bind; [unfold update_cpu; safe_walk; auto|intros _].
  apply safe_bind; [unfold update_memory; safe_walk; auto|intros _].
  apply safe_bind; [unfold update_gpu; destruct (get_gpu_usage w); safe_walk; auto|intros _].
  apply safe_bind; [exact I_net|intros _].
  apply safe_bind; [unfold update_swap; safe_walk; auto|intros _].
  apply safe_bind; [unfold update_proc_count; safe_walk; auto|intros _].
  apply safe_bind; [unfold update_battery; safe_walk; auto|intros _].
  apply safe_bind; [exact I_top|intros _].
  unfold update_footer; safe_walk; auto.
Qed.

End BodyInvariant.

(** The outer handler and the timer on top of the body. *)
Lemma safe_update_stats (I : JarvisMonitor -> Prop) (w : world) :
  safe I (fun _ => True) (update_stats_body w) ->
  (forall t s, I s -> I (with_stdout (stdout s ++ [t]) s)) ->
  (forall s, I s -> I (with_timers (S (timers s)) s)) ->
  safe I (fun e => is_Exception e = false) (update_stats w).
Proof.
  intros Hbody Hout Htimer. unfold update_stats, root_after_update_stats, print.
  apply safe_bind; [|intros _; apply safe_update; exact Htimer].
  apply safe_try; [exact Hbody| |auto].
  intro e. apply safe_update. intros s Hs. apply Hout, Hs.
Qed.

(** ** The history buffers stay full *)

Definition full (d : Deque.deque) : Prop :=
  Deque.len d = 60%nat /\ Deque.maxlen d = 60%nat.

Definition histories_full (s : JarvisMonitor) : Prop :=
  full (cpu_history s) /\ full (mem_history s) /\
  full (net_up_history s) /\ full (net_down_history s).

Lemma full_append (d : Deque.deque) (x : Q) : full d -> full (Deque.append d x).
Proof.
  intros [Hlen Hmax]. split; [|exact Hmax].
  rewrite deque_append_len by lia. rewrite Hlen, Hmax. reflexivity.
Qed.

Lemma histories_full_init (net0 : snetio) (now0 : Z) : histories_full (init net0 now0).
Proof. repeat split. Qed.

Lemma histories_full_network (w : world) :
  safe histories_full (fun _ => True) (update_network w).
Proof.
  intros s Hs. rewrite update_network_eq.
  destruct (net_io_counters w) as [cur|e]; [|split; [exact Hs|exact Logic.I]].
  unfold net_done.
  destruct (rate _ _ _ _) as [[[up down]|]|e]; try exact Hs.
  destruct Hs as [Hc [Hm [Hu Hd]]].
  repeat split; try apply Hc; try apply Hm; apply full_append; assumption.
Qed.

Lemma histories_full_update_stats (w : world) (s : JarvisMonitor) :
  histories_full s -> histories_full (after (update_stats w) s).
Proof.
  intro Hs.
  assert (H : safe histories_full (fun e => is_Exception e = false) (update_stats w)).
  { apply safe_update_stats.
    - apply safe_update_stats_body;
        auto using histories_full_network, safe_update_top_proc.
      + intros x s0 [Hc [Hm [Hu Hd]]]. repeat split;
          try apply Hm; try apply Hu; try apply Hd; apply full_append; assumption.
      + intros x s0 [Hc [Hm [Hu Hd]]]. repeat split;
          try apply Hc; try apply Hu; try apply Hd; apply full_append; assumption.
    - auto.
    - auto. }
  specialize (H s Hs). unfold after.
  destruct (update_stats w s) as [[[]|e] s']; [exact H|apply H].
Qed.

Lemma histories_full_ticks (ws : list world) (s : JarvisMonitor) :
  histories_full s -> histories_full (ticks ws s).
Proof.
  revert s. induction ws as [|w ws IH]; intros s Hs; [exact Hs|].
  apply IH. apply histories_full_update_stats. exact Hs.
Qed.

(** ** Sample host answers *)

Definition sample_world : world :=
  {| cpu_percent := Ok (25 # 2)%Q;
     cpu_freq := Ok (Some 2400%Q);
     cpu_count := Ok (Some 8);
     cpu_freq_current := Ok (Some 2400%Q);
     virtual_memory := Ok {| vm_percent := 40%Q; vm_used := 4000; vm_total := 10000 |};
     platform_system := Ok "Linux"%string;
     platform_machine := Ok "x86_64"%string;
     datetime_now := 1000000;
     net_io_counters := Ok {| bytes_sent := 1000000; bytes_recv := 500 |};
     swap_memory := Ok 0%Q;
     pids := Ok [1; 2; 3];
     sensors_battery := Ok None;
     process_iter := [proc ("a"%string, 0%Q);
                      proc ("b"%string, (52 # 10)%Q);
                      proc ("c"%string, (52 # 10)%Q)];
     memory_info := Ok 123456 |}.

Definition sample_monitor : JarvisMonitor :=
  init {| bytes_sent := 0; bytes_recv := 0 |} 0.

(** ** History buffers *)

(** C5.  Each of the four history buffers is created holding sixty zeros
    and holds exactly sixty items after any number of ticks, whatever
    the host answered.  A push on a full buffer drops the oldest item and
    puts the new one last; and a buffer of capacity [N >= 1] that has
    received [M >= N] pushes holds exactly [N] items, the last of which
    is the value pushed last. *)
Theorem history_buffers_keep_capacity
    (net0 : snetio) (now0 : Z) (ws : list world)
    (d : Deque.deque) (xs : list Q) (x : Q) :
  (1 <= Deque.maxlen d)%nat ->
  (Deque.len d <= Deque.maxlen d)%nat ->
  (Deque.maxlen d <= List.length (xs ++ [x]))%nat ->
  (let s0 := init net0 now0 in
   max_data_points s0 = 60%nat /\
   cpu_history s0 = Deque.mk (repeat 0%Q 60) 60 /\
   mem_history s0 = Deque.mk (repeat 0%Q 60) 60 /\
   net_up_history s0 = Deque.mk (repeat 0%Q 60) 60 /\
   net_down_history s0 = Deque.mk (repeat 0%Q 60) 60) /\
  (let s := ticks ws (init net0 now0) in
   Deque.len (cpu_history s) = 60%nat /\
   Deque.len (mem_history s) = 60%nat /\
   Deque.len (net_up_history s) = 60%nat /\
   Deque.len (net_down_history s) = 60%nat) /\
  (Deque.len d = Deque.maxlen d ->
   Deque.items (Deque.append d x) = (tl (Deque.items d) ++ [x])%list /\
   Deque.len (Deque.append d x) = Deque.maxlen d) /\
  (let d' := Deque.extend d (xs ++ [x]) in
   Deque.len d' = Deque.maxlen d /\ Deque.newest d' = Some x).
Proof.
  intros Hpos Hle Hmany. split; [|split; [|split]].
  - repeat split.
  - destruct (histories_full_ticks ws (init net0 now0) (histories_full_init net0 now0))
      as [[Hc _] [[Hm _] [[Hu _] [Hd _]]]].
    cbv zeta. auto.
  - intro Hfull. split.
    + apply deque_append_full; assumption.
    + rewrite deque_append_len by assumption. rewrite Hfull. lia.
  - cbv zeta. split.
    + rewrite deque_extend_len by assumption. lia.
    + apply deque_extend_newest. assumption.
Qed.

Lemma history_buffers_keep_capacity_witness :
  let d := Deque.new [7%Q] 3 in
  let d' := Deque.extend d [1; 2; 3; 4]%Q in
  Deque.len d' = 3%nat /\ Deque.newest d' = Some 4%Q.
Proof.
  refine (proj2 (proj2 (proj2
    (history_buffers_keep_capacity {| bytes_sent := 0; bytes_recv := 0 |} 0
       [sample_world] (Deque.new [7%Q] 3) [1; 2; 3]%Q 4%Q _ _ _)))).
  - vm_compute. lia.
  - vm_compute. lia.
  - vm_compute. lia.
Defined.

(** ** The network panel through a tick *)

(** What the network block owns: the two rate histories and the four
    labels of the panel. *)
Definition same_network_panel (s s' : JarvisMonitor) : Prop :=
  net_up_history s' = net_up_history s /\
  net_down_history s' = net_down_history s /\
  forall l, written_by_network l = true -> labels s' l = labels s l.

Lemma same_network_panel_label (s0 s : JarvisMonitor) (l : label) (t : text) :
  written_by_network l = false ->
  same_network_panel s0 s -> same_network_panel s0 (set_label l t s).
Proof.
  intros Hl [Hu [Hd Hlab]]. repeat split; try assumption.
  intros l' Hl'. rewrite <- (Hlab l' Hl').
  unfold set_label; simpl.
  destruct l, l'; simpl in *; try reflexivity; discriminate.
Qed.

(** The blocks after the network block and the end of the tick leave
    alone the previous sample, the histories and the network panel. *)
Lemma closing_live_keeps (w : world) (s : JarvisMonitor) :
  let s' := snd (closing w (live_done w s)) in
  last_net_io s' = last_net_io s /\ last_update s' = last_update s /\
  cpu_history s' = cpu_history s /\ mem_history s' = mem_history s /\
  same_network_panel s s'.
Proof.
  unfold closing, live_done, top_proc_done, battery_done, proc_count_done, swap_done,
    update_footer, root_after_update_stats, print, try_except, bind, call, config, update.
  destruct (selected (process_iter w)) as [p|];
    destruct (pids w) as [ps|e1];
    destruct (swap_memory w) as [sw|e2];
    destruct (memory_info w) as [rss|e3];
    try destruct (is_Exception e3);
    simpl; repeat split; intros;
    match goal with
    | H : written_by_network ?l = true |- _ =>
        destruct l; simpl in *; try reflexivity; discriminate
    end.
Qed.

(** A tick that reaches the network block: the previous sample is
    replaced, and the speeds, when there are any, are recorded and
    shown. *)
Lemma update_stats_network_panel (w : world) (s : JarvisMonitor)
    (c : Q) (detail : text) (mem : svmem) (cur : snetio) :
  cpu_percent w = Ok c -> cpu_detail w = Ok detail ->
  virtual_memory w = Ok mem -> net_io_counters w = Ok cur ->
  let s' := after (update_stats w) s in
  last_net_io s' = cur /\ last_update s' = datetime_now w /\
  match rate (last_net_io s) (last_update s) cur (datetime_now w) with
  | Ok (Some (up, down)) =>
      net_up_history s' = Deque.append (net_up_history s) up /\
      net_down_history s' = Deque.append (net_down_history s) down /\
      labels s' net_up_label = format_speed up /\
      labels s' net_down_label = format_speed down /\
      labels s' total_tx_label = format_bytes (inject_Z (bytes_sent cur)) /\
      labels s' total_rx_label = format_bytes (inject_Z (bytes_recv cur))
  | Ok None | Raise _ => same_network_panel s s'
  end.
Proof.
  intros Hc Hd Hm Hn. unfold after. cbv zeta.
  rewrite (update_stats_reached w s c detail mem cur Hc Hd Hm Hn).
  set (s3 := gpu_done w (mem_done mem (cpu_done c detail s))).
  destruct (closing_live_keeps w (net_done w cur s3)) as [Hio [Hup [_ [_ [Hu [Hdn Hlab]]]]]].
  change (last_net_io s) with (last_net_io s3).
  change (last_update s) with (last_update s3).
  change (net_up_history s) with (net_up_history s3).
  change (net_down_history s) with (net_down_history s3).
  revert Hio Hup Hu Hdn Hlab. unfold net_done.
  set (s' := snd (closing w _)). clearbody s'.
  destruct (rate (last_net_io s3) (last_update s3) cur (datetime_now w))
    as [[[up down]|]|e]; simpl; intros Hio Hup Hu Hdn Hlab.
  - rewrite Hio, Hup, Hu, Hdn.
    rewrite (Hlab net_up_label eq_refl), (Hlab net_down_label eq_refl),
      (Hlab total_tx_label eq_refl), (Hlab total_rx_label eq_refl).
    repeat split.
  - rewrite Hio, Hup. split; [reflexivity|]. split; [reflexivity|].
    split; [rewrite Hu; reflexivity|]. split; [rewrite Hdn; reflexivity|].
    intros l Hl. rewrite (Hlab l Hl). destruct l; try discriminate; reflexivity.
  - rewrite Hio, Hup. split; [reflexivity|]. split; [reflexivity|].
    split; [rewrite Hu; reflexivity|]. split; [rewrite Hdn; reflexivity|].
    intros l Hl. rewrite (Hlab l Hl). destruct l; try discriminate; reflexivity.
Qed.

(** The frame of a tick on which no time has passed. *)
Lemma clock_anomaly_frame (w : world) (s : JarvisMonitor) :
  datetime_now w - last_update s <= 0 ->
  same_network_panel s (after (update_stats w) s).
Proof.
  intro Hdelta.
  set (J := fun s' => same_network_panel s s' /\ datetime_now w - last_update s' <= 0).
  assert (Hbody : safe J (fun _ => True) (update_stats_body w)).
  { apply safe_update_stats_body; try (intros; exact Logic.I).
    - intros l t s' Hl _ [Hp Ht]. split; [|exact Ht].
      apply same_network_panel_label; assumption.
    - intros x s' HJ. exact HJ.
    - intros x s' HJ. exact HJ.
    - intros s' [Hp Ht]. rewrite update_network_eq.
      destruct (net_io_counters w) as [cur|e];
        [|split; [split; assumption|exact Logic.I]].
      unfold net_done. rewrite rate_nonpositive by assumption.
      split; [exact Hp|simpl; lia].
    - apply safe_update_top_proc. intros t s' [Hp Ht]. split; [|exact Ht].
      apply same_network_panel_label; [reflexivity|assumption]. }
  assert (Htick : safe J (fun e => is_Exception e = false) (update_stats w)).
  { apply safe_update_stats; [exact Hbody| |]; intros; assumption. }
  assert (HJ : J s).
  { split; [|exact Hdelta]. repeat split. }
  specialize (Htick s HJ). unfold after.
  destruct (update_stats w s) as [[[]|e] s']; simpl; apply Htick.
Qed.

(** ** Rates *)

(** The rate in the words of the specification: the difference of the
    byte counters, clamped at zero, over the delta in seconds. *)
Definition clamped_rate (prev cur : Z) (delta_seconds : Q) : Q :=
  (Qmax 0 (inject_Z (cur - prev)) / delta_seconds)%Q.

Lemma total_seconds_pos (d : Z) : 0 < d -> (0 < total_seconds d)%Q.
Proof. intro Hd. unfold total_seconds, Qlt; simpl. lia. Qed.

Lemma speed_of_growth (a d : Z) :
  0 <= a -> 0 < d ->
  (inject_Z a / total_seconds d == Qmax 0 (inject_Z a) / total_seconds d)%Q.
Proof.
  intros Ha Hd. rewrite Q.max_r; [reflexivity|].
  unfold Qle; simpl. lia.
Qed.

Lemma speed_of_reset (a d : Z) :
  a < 0 -> 0 < d -> (inject_Z a / total_seconds d < 0)%Q.
Proof.
  intros Ha Hd. apply Qlt_shift_div_r; [apply total_seconds_pos; assumption|].
  rewrite Qmult_0_l. unfold Qlt; simpl. lia.
Qed.

Definition with_net_io_counters (v : result snetio) (w : world) : world :=
  {| cpu_percent := cpu_percent w; cpu_freq := cpu_freq w; cpu_count := cpu_count w;
     cpu_freq_current := cpu_freq_current w; virtual_memory := virtual_memory w;
     platform_system := platform_system w; platform_machine := platform_machine w;
     datetime_now := datetime_now w; net_io_counters := v;
     swap_memory := swap_memory w; pids := pids w;
     sensors_battery := sensors_battery w; process_iter := process_iter w;
     memory_info := memory_info w |}.

Definition with_datetime_now (v : Z) (w : world) : world :=
  {| cpu_percent := cpu_percent w; cpu_freq := cpu_freq w; cpu_count := cpu_count w;
     cpu_freq_current := cpu_freq_current w; virtual_memory := virtual_memory w;
     platform_system := platform_system w; platform_machine := platform_machine w;
     datetime_now := v; net_io_counters := net_io_counters w;
     swap_memory := swap_memory w; pids := pids w;
     sensors_battery := sensors_battery w; process_iter := process_iter w;
     memory_info := memory_info w |}.

(** A monitor whose previous sample has 1000 bytes sent, and the host one
    second later, after the interface counters were reset. *)
Definition monitor_before_reset : JarvisMonitor :=
  init {| bytes_sent := 1000; bytes_recv := 0 |} 0.

Definition world_after_reset : world :=
  with_net_io_counters (Ok {| bytes_sent := 0; bytes_recv := 0 |}) sample_world.

(** C3, as stated, fails: after a counter reset the upload rate is
    [-1000] bytes per second, not [0]; the negative value is pushed on
    the history and shown. *)
Lemma rate_is_not_clamped :
  rate {| bytes_sent := 1000; bytes_recv := 0 |} 0
       {| bytes_sent := 0; bytes_recv := 0 |} 1000000
  = Ok (Some ((inject_Z (-1000) / total_seconds 1000000)%Q,
              (inject_Z 0 / total_seconds 1000000)%Q)) /\
  (inject_Z (-1000) / total_seconds 1000000 < 0)%Q /\
  ~ (inject_Z (-1000) / total_seconds 1000000
     == clamped_rate 1000 0 (total_seconds 1000000))%Q /\
  Deque.newest (net_up_history (after (update_stats world_after_reset) monitor_before_reset))
  = Some (inject_Z (-1000) / total_seconds 1000000)%Q /\
  labels (after (update_stats world_after_reset) monitor_before_reset) net_up_label
  = format_speed (inject_Z (-1000) / total_seconds 1000000)%Q.
Proof.
  split; [reflexivity|]. split; [reflexivity|].
  split; [intro H; vm_compute in H; discriminate|].
  split; reflexivity.
Qed.

(** C3, amended.  With a positive delta the two speeds are the plain
    differences of the byte counters over the delta in seconds.  While a
    counter has not decreased this is the clamped rate of the
    specification; when it has decreased the speed is negative. *)
Theorem rate_is_difference_over_delta (prev cur : snetio) (before now : Z) :
  0 < now - before ->
  let delta_seconds := total_seconds (now - before) in
  exists up down,
    rate prev before cur now = Ok (Some (up, down)) /\
    up = (inject_Z (bytes_sent cur - bytes_sent prev) / delta_seconds)%Q /\
    down = (inject_Z (bytes_recv cur - bytes_recv prev) / delta_seconds)%Q /\
    (bytes_sent prev <= bytes_sent cur ->
     (up == clamped_rate (bytes_sent prev) (bytes_sent cur) delta_seconds)%Q) /\
    (bytes_recv prev <= bytes_recv cur ->
     (down == clamped_rate (bytes_recv prev) (bytes_recv cur) delta_seconds)%Q) /\
    (bytes_sent cur < bytes_sent prev -> (up < 0)%Q) /\
    (bytes_recv cur < bytes_recv prev -> (down < 0)%Q).
Proof.
  intros Hd delta_seconds. eexists. eexists.
  split; [apply rate_positive; assumption|].
  split; [reflexivity|]. split; [reflexivity|].
  unfold clamped_rate, delta_seconds.
  repeat split; intro H.
  - apply speed_of_growth; lia.
  - apply speed_of_growth; lia.
  - apply speed_of_reset; lia.
  - apply speed_of_reset; lia.
Qed.

Lemma rate_is_difference_over_delta_witness :
  exists up down,
    rate {| bytes_sent := 0; bytes_recv := 10 |} 0
         {| bytes_sent := 1000000; bytes_recv := 5 |} 1000000 = Ok (Some (up, down)) /\
    (up == 1000000)%Q /\ (down < 0)%Q.
Proof.
  destruct (rate_is_difference_over_delta
              {| bytes_sent := 0; bytes_recv := 10 |}
              {| bytes_sent := 1000000; bytes_recv := 5 |} 0 1000000)
    as [up [down [Hr [Hu [Hdn [_ [_ [_ Hneg]]]]]]]].
  - reflexivity.
  - exists up, down. split; [exact Hr|]. split.
    + rewrite Hu. reflexivity.
    + apply Hneg. reflexivity.
Defined.

(** The reads in front of the network block all answered. *)
Definition reaches_network (w : world) : bool :=
  is_ok (cpu_percent w) && is_ok (cpu_detail w) && is_ok (virtual_memory w).

Lemma reaches_network_inv (w : world) :
  reaches_network w = true ->
  exists c detail mem,
    cpu_percent w = Ok c /\ cpu_detail w = Ok detail /\ virtual_memory w = Ok mem.
Proof.
  unfold reaches_network. intro H.
  apply andb_true_iff in H. destruct H as [H Hm].
  apply andb_true_iff in H. destruct H as [Hc Hd].
  destruct (cpu_percent w) as [c|]; [|discriminate].
  destruct (cpu_detail w) as [detail|]; [|discriminate].
  destruct (virtual_memory w) as [mem|]; [|discriminate].
  exists c, detail, mem. repeat split.
Qed.

(** A tick with a positive delta that reaches the network block records
    and shows the two speeds. *)
Lemma update_stats_shows_speeds (w : world) (s : JarvisMonitor) (cur : snetio) :
  reaches_network w = true -> net_io_counters w = Ok cur ->
  0 < datetime_now w - last_update s ->
  let delta_seconds := total_seconds (datetime_now w - last_update s) in
  let up := (inject_Z (bytes_sent cur - bytes_sent (last_net_io s)) / delta_seconds)%Q in
  let down := (inject_Z (bytes_recv cur - bytes_recv (last_net_io s)) / delta_seconds)%Q in
  let s' := after (update_stats w) s in
  last_net_io s' = cur /\ last_update s' = datetime_now w /\
  net_up_history s' = Deque.append (net_up_history s) up /\
  net_down_history s' = Deque.append (net_down_history s) down /\
  labels s' net_up_label = format_speed up /\
  labels s' net_down_label = format_speed down /\
  labels s' total_tx_label = format_bytes (inject_Z (bytes_sent cur)) /\
  labels s' total_rx_label = format_bytes (inject_Z (bytes_recv cur)).
Proof.
  intros Hreach Hn Hdelta.
  destruct (reaches_network_inv w Hreach) as [c [detail [mem [Hc [Hd Hm]]]]].
  pose proof (update_stats_network_panel w s c detail mem cur Hc Hd Hm Hn) as H.
  cbv zeta in H. rewrite (rate_positive _ _ _ _ Hdelta) in H.
  cbv zeta. exact H.
Qed.

(** ** Ticks on which no time has passed *)

(** C4.  When the delta between [last_update] and now is zero or
    negative, [rate] answers nothing and divides nothing; the network
    block raises nothing of its own; and the tick as a whole leaves the
    two rate histories and the labels of the network panel as they
    were. *)
Theorem nonpositive_delta_skips_rate (w : world) (s : JarvisMonitor) :
  datetime_now w - last_update s <= 0 ->
  (forall cur, rate (last_net_io s) (last_update s) cur (datetime_now w) = Ok None) /\
  fst (update_network w s)
  = match net_io_counters w with Ok _ => Ok tt | Raise e => Raise e end /\
  same_network_panel s (after (update_stats w) s).
Proof.
  intro Hdelta. split; [|split].
  - intro cur. apply rate_nonpositive. assumption.
  - rewrite update_network_eq. destruct (net_io_counters w); reflexivity.
  - apply clock_anomaly_frame. assumption.
Qed.

Lemma nonpositive_delta_skips_rate_witness :
  same_network_panel sample_monitor
    (after (update_stats (with_datetime_now 0 sample_world)) sample_monitor).
Proof.
  refine (proj2 (proj2
    (nonpositive_delta_skips_rate (with_datetime_now 0 sample_world) sample_monitor _))).
  vm_compute. discriminate.
Defined.

(** The division of [rate] is never by zero, whatever the delta. *)
Lemma rate_no_zero_division (prev cur : snetio) (before now : Z) :
  rate prev before cur now <> Raise ZeroDivisionError.
Proof.
  destruct (rate_never_raises prev cur before now) as [speeds H].
  rewrite H. discriminate.
Qed.

(** C9.  On a tick that reaches the network block with a zero or
    negative delta, the rate histories and the four labels of the
    network panel keep their values, while [last_net_io] and
    [last_update] take the current counters and time; the speeds of the
    next tick are the differences to that sample. *)
Theorem clock_anomaly_replaces_previous_sample
    (w w2 : world) (s : JarvisMonitor) (cur cur2 : snetio) :
  reaches_network w = true -> net_io_counters w = Ok cur ->
  reaches_network w2 = true -> net_io_counters w2 = Ok cur2 ->
  datetime_now w - last_update s <= 0 ->
  0 < datetime_now w2 - datetime_now w ->
  let s' := after (update_stats w) s in
  let s'' := after (update_stats w2) s' in
  let delta_seconds := total_seconds (datetime_now w2 - datetime_now w) in
  let up := (inject_Z (bytes_sent cur2 - bytes_sent cur) / delta_seconds)%Q in
  let down := (inject_Z (bytes_recv cur2 - bytes_recv cur) / delta_seconds)%Q in
  same_network_panel s s' /\
  last_net_io s' = cur /\ last_update s' = datetime_now w /\
  net_up_history s'' = Deque.append (net_up_history s) up /\
  net_down_history s'' = Deque.append (net_down_history s) down /\
  labels s'' net_up_label = format_speed up /\
  labels s'' net_down_label = format_speed down.
Proof.
  intros Hreach Hn Hreach2 Hn2 Hdelta Hdelta2. cbv zeta.
  destruct (reaches_network_inv w Hreach) as [c [detail [mem [Hc [Hd Hm]]]]].
  pose proof (update_stats_network_panel w s c detail mem cur Hc Hd Hm Hn) as H.
  cbv zeta in H. destruct H as [Hio [Hup _]].
  pose proof (clock_anomaly_frame w s Hdelta) as Hframe.
  split; [exact Hframe|]. split; [exact Hio|]. split; [exact Hup|].
  pose proof (update_stats_shows_speeds w2 (after (update_stats w) s) cur2 Hreach2 Hn2) as H2.
  cbv zeta in H2. rewrite Hio, Hup in H2. specialize (H2 Hdelta2).
  destruct Hframe as [Hu [Hdn _]]. rewrite Hu, Hdn in H2.
  destruct H2 as [_ [_ [H3 [H4 [H5 [H6 _]]]]]]. repeat split; assumption.
Qed.

Lemma clock_anomaly_replaces_previous_sample_witness :
  let s' := after (update_stats (with_datetime_now 0 sample_world)) sample_monitor in
  same_network_panel sample_monitor s' /\
  last_net_io s' = {| bytes_sent := 1000000; bytes_recv := 500 |} /\
  last_update s' = 0.
Proof.
  assert (Hd1 : datetime_now (with_datetime_now 0 sample_world)
                 - last_update sample_monitor <= 0) by (vm_compute; discriminate).
  assert (Hd2 : 0 < datetime_now sample_world
                    - datetime_now (with_datetime_now 0 sample_world)) by reflexivity.
  destruct (clock_anomaly_replaces_previous_sample
              (with_datetime_now 0 sample_world) sample_world sample_monitor
              {| bytes_sent := 1000000; bytes_recv := 500 |}
              {| bytes_sent := 1000000; bytes_recv := 500 |}
              eq_refl eq_refl eq_refl eq_refl Hd1 Hd2) as [H1 [H2 [H3 _]]].
  cbv zeta. split; [exact H1|]. split; [exact H2|exact H3].
Defined.

(** ** The first ticks *)

(** C2, as stated, fails: the monitor is constructed with a previous
    sample, and the first tick, one second later, already computes,
    records and shows a rate. *)
Lemma first_tick_already_has_rate :
  rate (last_net_io sample_monitor) (last_update sample_monitor)
       {| bytes_sent := 1000000; bytes_recv := 500 |} (datetime_now sample_world)
  = Ok (Some ((inject_Z 1000000 / total_seconds 1000000)%Q,
              (inject_Z 500 / total_seconds 1000000)%Q)) /\
  labels (after (update_stats sample_world) sample_monitor) net_up_label
  = format_speed (inject_Z 1000000 / total_seconds 1000000)%Q /\
  Deque.newest (net_up_history (after (update_stats sample_world) sample_monitor))
  = Some (inject_Z 1000000 / total_seconds 1000000)%Q.
Proof. repeat split. Qed.

Lemma histories_full_newest (d : Deque.deque) (x : Q) :
  full d -> Deque.newest (Deque.append d x) = Some x.
Proof. intros [_ Hmax]. apply deque_append_newest. lia. Qed.

(** C2, amended.  [__init__] stores the counters and the time of
    construction as the previous sample.  The first tick has a rate, taken
    against that sample, as soon as its delta to the construction is
    positive, and has none only when that delta is zero or negative; the
    second tick with a positive delta has a rate. *)
Theorem first_tick_rate_against_construction
    (net0 : snetio) (now0 : Z) (w1 w2 : world) (cur1 cur2 : snetio) :
  reaches_network w1 = true -> net_io_counters w1 = Ok cur1 ->
  reaches_network w2 = true -> net_io_counters w2 = Ok cur2 ->
  0 < datetime_now w2 - datetime_now w1 ->
  let s0 := init net0 now0 in
  let s1 := after (update_stats w1) s0 in
  let s2 := after (update_stats w2) s1 in
  (last_net_io s0 = net0 /\ last_update s0 = now0) /\
  (0 < datetime_now w1 - now0 ->
   exists up down,
     rate net0 now0 cur1 (datetime_now w1) = Ok (Some (up, down)) /\
     labels s1 net_up_label = format_speed up /\
     labels s1 net_down_label = format_speed down /\
     Deque.newest (net_up_history s1) = Some up /\
     Deque.newest (net_down_history s1) = Some down) /\
  (datetime_now w1 - now0 <= 0 ->
   rate net0 now0 cur1 (datetime_now w1) = Ok None /\
   labels s1 net_up_label = Lit "0 B/s" /\
   labels s1 net_down_label = Lit "0 B/s" /\
   net_up_history s1 = net_up_history s0 /\
   net_down_history s1 = net_down_history s0) /\
  (exists up down,
     rate cur1 (datetime_now w1) cur2 (datetime_now w2) = Ok (Some (up, down)) /\
     labels s2 net_up_label = format_speed up /\
     labels s2 net_down_label = format_speed down /\
     Deque.newest (net_up_history s2) = Some up /\
     Deque.newest (net_down_history s2) = Some down).
Proof.
  intros Hreach1 Hn1 Hreach2 Hn2 Hdelta2. cbv zeta.
  pose proof (histories_full_init net0 now0) as Hfull0.
  pose proof (histories_full_update_stats w1 _ Hfull0) as Hfull1.
  destruct (reaches_network_inv w1 Hreach1) as [c [detail [mem [Hc [Hd Hm]]]]].
  pose proof (update_stats_network_panel w1 (init net0 now0) c detail mem cur1 Hc Hd Hm Hn1)
    as Hprev.
  cbv zeta in Hprev. destruct Hprev as [Hio [Hup _]].
  split; [split; reflexivity|]. split; [|split].
  - intro Hdelta1.
    pose proof (update_stats_shows_speeds w1 (init net0 now0) cur1 Hreach1 Hn1 Hdelta1) as H.
    cbv zeta in H. destruct H as [_ [_ [Hu [Hdn [Hlu [Hld _]]]]]].
    eexists. eexists. split; [apply rate_positive; exact Hdelta1|].
    split; [exact Hlu|]. split; [exact Hld|].
    destruct Hfull0 as [_ [_ [Hfu Hfd]]].
    split; [rewrite Hu|rewrite Hdn]; apply histories_full_newest; assumption.
  - intro Hdelta1.
    destruct (clock_anomaly_frame w1 (init net0 now0) Hdelta1) as [Hu [Hdn Hlab]].
    split; [apply rate_nonpositive; exact Hdelta1|].
    split; [exact (Hlab net_up_label eq_refl)|].
    split; [exact (Hlab net_down_label eq_refl)|].
    split; assumption.
  - pose proof (update_stats_shows_speeds w2 (after (update_stats w1) (init net0 now0))
                  cur2 Hreach2 Hn2) as H.
    cbv zeta in H. rewrite Hio, Hup in H. specialize (H Hdelta2).
    destruct H as [_ [_ [Hu [Hdn [Hlu [Hld _]]]]]].
    eexists. eexists. split; [apply rate_positive; exact Hdelta2|].
    split; [exact Hlu|]. split; [exact Hld|].
    destruct Hfull1 as [_ [_ [Hfu Hfd]]].
    split; [rewrite Hu|rewrite Hdn]; apply histories_full_newest; assumption.
Qed.

Lemma first_tick_rate_against_construction_witness :
  exists up down,
    rate {| bytes_sent := 0; bytes_recv := 0 |} 0
         {| bytes_sent := 1000000; bytes_recv := 500 |} 1000000 = Ok (Some (up, down)) /\
    labels (after (update_stats sample_world) sample_monitor) net_up_label = format_speed up.
Proof.
  assert (Hd2 : 0 < datetime_now (with_datetime_now 2000000 sample_world)
                    - datetime_now sample_world) by reflexivity.
  destruct (first_tick_rate_against_construction
              {| bytes_sent := 0; bytes_recv := 0 |} 0
              sample_world (with_datetime_now 2000000 sample_world)
              {| bytes_sent := 1000000; bytes_recv := 500 |}
              {| bytes_sent := 1000000; bytes_recv := 500 |}
              eq_refl eq_refl eq_refl eq_refl Hd2) as [_ [Hfirst _]].
  destruct Hfirst as [up [down [Hr [Hl _]]]]; [reflexivity|].
  exists up, down. split; [exact Hr|exact Hl].
Defined.

(** ** The loop *)

(** Whatever the reads outside a bare handler raise is an instance of
    [Exception]. *)
Definition raises_only_errors (w : world) : bool :=
  error_or_ok (cpu_percent w) && error_or_ok (cpu_detail w) &&
  error_or_ok (virtual_memory w) && error_or_ok (net_io_counters w) &&
  error_or_ok (memory_info w).

Definition with_cpu_percent (v : result Q) (w : world) : world :=
  {| cpu_percent := v; cpu_freq := cpu_freq w; cpu_count := cpu_count w;
     cpu_freq_current := cpu_freq_current w; virtual_memory := virtual_memory w;
     platform_system := platform_system w; platform_machine := platform_machine w;
     datetime_now := datetime_now w; net_io_counters := net_io_counters w;
     swap_memory := swap_memory w; pids := pids w;
     sensors_battery := sensors_battery w; process_iter := process_iter w;
     memory_info := memory_info w |}.

Lemma error_or_ok_raise {A} (r : result A) (e : exn) :
  error_or_ok r = true -> r = Raise e -> is_Exception e = true.
Proof. intros H Hr. subst r. exact H. Qed.

Lemma update_stats_body_timers (w : world) (n : nat) :
  raises_only_errors w = true ->
  safe (fun s => timers s = n) (fun e => is_Exception e = true) (update_stats_body w).
Proof.
  unfold raises_only_errors. intro H.
  repeat (apply andb_true_iff in H; destruct H as [H ?]).
  apply safe_update_stats_body; eauto using error_or_ok_raise.
  - intros s Hs. rewrite update_network_eq.
    destruct (net_io_counters w) as [cur|e] eqn:Hn.
    + unfold net_done. destruct (rate _ _ _ _) as [[[up down]|]|e]; exact Hs.
    + split; [exact Hs|]. eapply error_or_ok_raise; [|exact Hn]. rewrite Hn. assumption.
  - apply safe_update_top_proc. intros t s Hs. exact Hs.
Qed.

Lemma update_stats_schedules (w : world) (s : JarvisMonitor) :
  raises_only_errors w = true ->
  fst (update_stats w s) = Ok tt /\ timers (after (update_stats w) s) = S (timers s).
Proof.
  intro Hw.
  pose proof (update_stats_body_timers w (timers s) Hw s eq_refl) as H.
  unfold after, update_stats, root_after_update_stats, print, bind, try_except, update.
  destruct (update_stats_body w s) as [[[]|e] s'].
  - simpl. split; [reflexivity|]. rewrite H. reflexivity.
  - destruct H as [Ht He]. rewrite He. simpl. split; [reflexivity|].
    rewrite Ht. reflexivity.
Qed.

(** C8, as stated, fails for an exception that is not an instance of
    [Exception]: a [KeyboardInterrupt] out of [cpu_percent] is not caught
    by [except Exception], leaves [update_stats] before the timer is set
    again, and the loop, with two more answers of the host at hand, runs
    no further tick. *)
Lemma keyboard_interrupt_stops_the_loop :
  fst (update_stats (with_cpu_percent (Raise KeyboardInterrupt) sample_world) sample_monitor)
  = Raise KeyboardInterrupt /\
  timers (after (update_stats (with_cpu_percent (Raise KeyboardInterrupt) sample_world))
            sample_monitor) = timers sample_monitor /\
  fst (mainloop [with_cpu_percent (Raise KeyboardInterrupt) sample_world;
                 sample_world; sample_world]
         (after (update_stats sample_world) sample_monitor)) = 1%nat.
Proof. repeat split. Qed.

(** C8, amended.  An error raised in the body of a tick, that is an
    instance of [Exception], does not leave [update_stats]: the call
    returns and has put exactly one more [update_stats] on the timer
    queue.  Started with one callback pending, the timer loop therefore
    runs one tick for every answer of the host, however many there are,
    and still has one callback pending afterwards. *)
Theorem every_tick_schedules_the_next (ws : list world) (s : JarvisMonitor) :
  forallb raises_only_errors ws = true ->
  timers s = 1%nat ->
  (forall w s', In w ws ->
     fst (update_stats w s') = Ok tt /\
     timers (after (update_stats w) s') = S (timers s')) /\
  fst (mainloop ws s) = List.length ws /\
  timers (snd (mainloop ws s)) = 1%nat.
Proof.
  intros Hws Hs. split.
  - intros w s' Hin. apply update_stats_schedules.
    rewrite forallb_forall in Hws. apply Hws. exact Hin.
  - revert s Hs. induction ws as [|w ws IH]; intros s Hs.
    + split; [reflexivity|exact Hs].
    + simpl in Hws. apply andb_true_iff in Hws. destruct Hws as [Hw Hws].
      simpl. rewrite Hs.
      destruct (update_stats_schedules w (with_timers 0 s) Hw) as [_ Ht].
      specialize (IH Hws _ Ht).
      destruct (mainloop ws (after (update_stats w) (with_timers 0 s))) as [k s'].
      simpl in *. destruct IH as [Hk Hs']. split; [rewrite Hk; reflexivity|exact Hs'].
Qed.

Lemma every_tick_schedules_the_next_witness :
  fst (mainloop [with_cpu_percent (Raise (PsutilError "no cpu")) sample_world; sample_world]
         (after (update_stats sample_world) sample_monitor)) = 2%nat.
Proof.
  refine (proj1 (proj2
    (every_tick_schedules_the_next
       [with_cpu_percent (Raise (PsutilError "no cpu")) sample_world; sample_world]
       (after (update_stats sample_world) sample_monitor) _ _))).
  - reflexivity.
  - reflexivity.
Defined.

(** ** Top process *)

Lemma selected_origin (it : list (result pinfo)) (n : string) (c : option Q) :
  selected it = Some (n, c) ->
  exists i full, In (Ok i) it /\ info_name i = Some full /\
                 n = substring 0 10 full /\ c = info_cpu_percent i.
Proof.
  unfold selected. intro H.
  destruct (top_cpu_process it) as [[p|]|e] eqn:Htop; try discriminate.
  injection H as Hp. subst p. apply top_cpu_process_origin. exact Htop.
Qed.

(** The text a tick may leave on [top_proc_label]: the text it found
    there, or the first ten characters of the name of a listed process. *)
Definition top_label_from (it : list (result pinfo)) (old : text) (t : text) : Prop :=
  t = old \/
  exists i full,
    In (Ok i) it /\ info_name i = Some full /\
    t = Lit (substring 0 10 full) /\
    prefix (substring 0 10 full) full = true /\
    (String.length (substring 0 10 full) <= 10)%nat.

Lemma update_stats_top_label (w : world) (s : JarvisMonitor) :
  top_label_from (process_iter w) (labels s top_proc_label)
    (labels (after (update_stats w) s) top_proc_label).
Proof.
  set (J := fun s' => top_label_from (process_iter w) (labels s top_proc_label)
                        (labels s' top_proc_label)).
  assert (Hbody : safe J (fun _ => True) (update_stats_body w)).
  { apply safe_update_stats_body; try (intros; exact Logic.I).
    - intros l t s' _ Hl HJ. unfold J, set_label. simpl.
      destruct l; try discriminate; exact HJ.
    - intros x s' HJ. exact HJ.
    - intros x s' HJ. exact HJ.
    - intros s' HJ. rewrite update_network_eq.
      destruct (net_io_counters w) as [cur|e]; [|split; [exact HJ|exact Logic.I]].
      unfold net_done. destruct (rate _ _ _ _) as [[[up down]|]|e]; exact HJ.
    - intros s' HJ. rewrite update_top_proc_eq. unfold top_proc_done.
      destruct (selected (process_iter w)) as [[n c]|] eqn:Hsel; [|exact HJ].
      destruct (selected_origin _ _ _ Hsel) as [i [full [Hin [Hname [Hn _]]]]].
      right. exists i, full. simpl. subst n.
      repeat split; try assumption.
      + apply substring_prefix.
      + rewrite substring_length. apply Nat.le_min_l. }
  assert (Htick : safe J (fun e => is_Exception e = false) (update_stats w)).
  { apply safe_update_stats; [exact Hbody| |]; intros; assumption. }
  specialize (Htick s (or_introl eq_refl)). unfold after.
  destruct (update_stats w s) as [[[]|e] s']; simpl; apply Htick.
Qed.

(** C10.  The entry the tick selects carries the first ten characters of
    the name of one of the listed processes, a prefix of that name of at
    most ten characters; and after any tick [top_proc_label] shows either
    what it showed before or such a prefix. *)
Theorem top_process_name_is_prefix (w : world) (s : JarvisMonitor)
    (it : list (result pinfo)) (n : string) (c : option Q) :
  (selected it = Some (n, c) ->
   exists i full,
     In (Ok i) it /\ info_name i = Some full /\ c = info_cpu_percent i /\
     n = substring 0 10 full /\ prefix n full = true /\
     String.length n = Nat.min 10 (String.length full)) /\
  top_label_from (process_iter w) (labels s top_proc_label)
    (labels (after (update_stats w) s) top_proc_label).
Proof.
  split; [|apply update_stats_top_label].
  intro Hsel. destruct (selected_origin _ _ _ Hsel) as [i [full [Hin [Hname [Hn Hc]]]]].
  exists i, full. subst n.
  repeat split; try assumption.
  - apply substring_prefix.
  - apply substring_length.
Qed.

(** C6, amended.  Over a table all of whose entries could be read the
    selection is the first of the entries of largest CPU percentage,
    when that percentage is positive; nothing is selected from an empty
    table, from entries none of which exceeds zero, or from a table with
    at least one entry that could not be read, whatever the other
    entries are.  The label is set from the selection and from nothing
    else. *)
Theorem top_process_is_first_maximum
    (l1 l2 idle : list (string * Q)) (n : string) (c : Q)
    (mixed : list (result pinfo)) (w : world) (s : JarvisMonitor) :
  Forall (fun p => (snd p < c)%Q) l1 ->
  Forall (fun p => (snd p <= c)%Q) l2 ->
  (0 < c)%Q ->
  Forall (fun p => (snd p <= 0)%Q) idle ->
  Exists (fun r => readable r = false) mixed ->
  selected (map proc (l1 ++ (n, c) :: l2)) = Some (substring 0 10 n, Some c) /\
  selected [] = None /\
  selected (map proc idle) = None /\
  selected mixed = None /\
  selected (map proc [("a"%string, 0%Q); ("b"%string, (52 # 10)%Q); ("c"%string, (52 # 10)%Q)])
  = Some ("b"%string, Some (52 # 10)%Q) /\
  update_top_proc w s
  = (Ok tt, match selected (process_iter w) with
            | Some p => set_label top_proc_label (Lit (fst p)) s
            | None => s
            end).
Proof.
  intros H1 H2 Hc Hidle Hmixed.
  split; [|split; [|split; [|split; [|split]]]].
  - unfold selected. rewrite (top_cpu_process_first_max l1 l2 n c H1 H2 Hc). reflexivity.
  - reflexivity.
  - unfold selected. rewrite (top_cpu_process_idle idle Hidle). reflexivity.
  - destruct (top_cpu_process_unreadable mixed Hmixed) as [e He].
    unfold selected. rewrite He. reflexivity.
  - reflexivity.
  - apply update_top_proc_eq.
Qed.

Lemma top_process_is_first_maximum_witness :
  selected (map proc [("x"%string, 1%Q); ("y"%string, 3%Q); ("z"%string, 3%Q)])
  = Some ("y"%string, Some 3%Q) /\
  selected [proc ("busy"%string, 50%Q); Raise (PsutilError "denied")] = None.
Proof.
  destruct (top_process_is_first_maximum
              [("x"%string, 1%Q)] [("z"%string, 3%Q)] [("i"%string, 0%Q)]
              "y"%string 3%Q [proc ("busy"%string, 50%Q); Raise (PsutilError "denied")]
              sample_world sample_monitor) as [Hmax [_ [_ [Hmixed _]]]].
  - repeat constructor.
  - constructor; [|constructor]. simpl. apply Qle_refl.
  - reflexivity.
  - constructor; [|constructor]. simpl. apply Qle_refl.
  - right. left. reflexivity.
  - split; [exact Hmax|exact Hmixed].
Defined.

Definition with_process_iter (v : list (result pinfo)) (w : world) : world :=
  {| cpu_percent := cpu_percent w; cpu_freq := cpu_freq w; cpu_count := cpu_count w;
     cpu_freq_current := cpu_freq_current w; virtual_memory := virtual_memory w;
     platform_system := platform_system w; platform_machine := platform_machine w;
     datetime_now := datetime_now w; net_io_counters := net_io_counters w;
     swap_memory := swap_memory w; pids := pids w;
     sensors_battery := sensors_battery w; process_iter := v;
     memory_info := memory_info w |}.

Lemma bind_eq {A B} (m m' : M A) (k k' : A -> M B) (s : JarvisMonitor) :
  m s = m' s -> (forall a s', k a s' = k' a s') -> bind m k s = bind m' k' s.
Proof.
  intros Hm Hk. unfold bind. rewrite Hm.
  destruct (m' s) as [[a|e] s']; [apply Hk|reflexivity].
Qed.

Lemma try_except_eq (body body' : M unit) (catches : exn -> bool)
    (handler : exn -> M unit) (s : JarvisMonitor) :
  body s = body' s ->
  try_except body catches handler s = try_except body' catches handler s.
Proof. intro H. unfold try_except. rewrite H. reflexivity. Qed.

(** The table of the example with one more entry, whose CPU percentage
    psutil could not read. *)
Definition example_table_with_unread_entry : list (result pinfo) :=
  [proc ("a"%string, 0%Q);
   Ok {| info_name := Some "kernel_task"%string; info_cpu_percent := None |};
   proc ("b"%string, (52 # 10)%Q);
   proc ("c"%string, (52 # 10)%Q)].

(** C6, as stated, fails: the table is not empty, three of its four
    entries were read and the largest CPU percentage among them is 5.2,
    so the selector should return [b]; the code returns nothing, and the
    label keeps the text [setup_ui] gave it. *)
Lemma unread_entry_hides_the_maximum :
  List.length (filter readable example_table_with_unread_entry) = 3%nat /\
  selected (filter readable example_table_with_unread_entry)
  = Some ("b"%string, Some (52 # 10)%Q) /\
  selected example_table_with_unread_entry = None /\
  labels (after (update_stats (with_process_iter example_table_with_unread_entry sample_world))
            sample_monitor) top_proc_label = Lit "...".
Proof. repeat split. Qed.

(** A process table with one entry whose CPU percentage psutil was
    denied. *)
Definition table_with_denied_process : list (result pinfo) :=
  [proc ("busy"%string, 50%Q);
   Ok {| info_name := Some "guarded"%string; info_cpu_percent := None |};
   proc ("idle"%string, 1%Q)].

(** C7, as stated, fails: with one unreadable entry between two readable
    ones nothing is selected and the label keeps its text, where skipping
    the entry would select [busy]. *)
Lemma denied_process_empties_selection :
  selected table_with_denied_process = None /\
  selected (filter readable table_with_denied_process) = Some ("busy"%string, Some 50%Q) /\
  labels (after (update_stats (with_process_iter table_with_denied_process sample_world))
            sample_monitor) top_proc_label = Lit "..." /\
  labels (after (update_stats
                   (with_process_iter (filter readable table_with_denied_process) sample_world))
            sample_monitor) top_proc_label = Lit "busy".
Proof. repeat split. Qed.

(** C7, amended.  A read failure on one process is swallowed by the
    handler around the whole block: nothing is selected on that tick, no
    attribute of the monitor changes in the block, and the tick goes on
    exactly as it does over an empty process table. *)
Theorem unreadable_process_abandons_selection (w : world) (s : JarvisMonitor) :
  Exists (fun r => readable r = false) (process_iter w) ->
  selected (process_iter w) = None /\
  update_top_proc w s = (Ok tt, s) /\
  update_stats w s = update_stats (with_process_iter [] w) s.
Proof.
  intro Hex.
  assert (Hsel : selected (process_iter w) = None).
  { destruct (top_cpu_process_unreadable _ Hex) as [e He].
    unfold selected. rewrite He. reflexivity. }
  assert (Htop : forall s', update_top_proc w s' = (Ok tt, s')).
  { intro s'. rewrite update_top_proc_eq. unfold top_proc_done. rewrite Hsel. reflexivity. }
  split; [exact Hsel|]. split; [apply Htop|].
  unfold update_stats.
  apply bind_eq; [|reflexivity].
  apply try_except_eq. unfold update_stats_body.
  do 7 (apply bind_eq; [reflexivity|intros _ ?]).
  apply bind_eq; [|reflexivity].
  rewrite Htop. reflexivity.
Qed.

Lemma unreadable_process_abandons_selection_witness :
  update_stats (with_process_iter table_with_denied_process sample_world) sample_monitor
  = update_stats (with_process_iter []
                    (with_process_iter table_with_denied_process sample_world))
                 sample_monitor.
Proof.
  refine (proj2 (proj2
    (unreadable_process_abandons_selection
       (with_process_iter table_with_denied_process sample_world) sample_monitor _))).
  right. left. reflexivity.
Defined.

Lemma top_process_name_is_prefix_witness :
  exists i full,
    In (Ok i) (process_iter sample_world) /\ info_name i = Some full /\
    prefix "b" full = true.
Proof.
  destruct (proj1 (top_process_name_is_prefix sample_world sample_monitor
                     (process_iter sample_world) "b"%string (Some (52 # 10)%Q)) eq_refl)
    as [i [full [Hin [Hname [_ [_ [Hp _]]]]]]].
  exists i, full. split; [exact Hin|]. split; [exact Hname|exact Hp].
Defined.

(** ** A read that fails *)

Definition with_sensors_battery (v : result (option sbattery)) (w : world) : world :=
  {| cpu_percent := cpu_percent w; cpu_freq := cpu_freq w; cpu_count := cpu_count w;
     cpu_freq_current := cpu_freq_current w; virtual_memory := virtual_memory w;
     platform_system := platform_system w; platform_machine := platform_machine w;
     datetime_now := datetime_now w; net_io_counters := net_io_counters w;
     swap_memory := swap_memory w; pids := pids w;
     sensors_battery := v; process_iter := process_iter w;
     memory_info := memory_info w |}.

(** Two monitors that differ at most in the text of label [l]. *)
Definition same_but (l : label) (s s' : JarvisMonitor) : Prop :=
  last_net_io s = last_net_io s' /\ last_update s = last_update s' /\
  max_data_points s = max_data_points s' /\
  cpu_history s = cpu_history s' /\ mem_history s = mem_history s' /\
  net_up_history s = net_up_history s' /\ net_down_history s = net_down_history s' /\
  stdout s = stdout s' /\ timers s = timers s' /\
  forall l', label_eqb l' l = false -> labels s l' = labels s' l'.

Lemma same_but_here (l : label) (t t' : text) (s : JarvisMonitor) :
  same_but l (set_label l t s) (set_label l t' s).
Proof.
  repeat split. intros l' Hl'. unfold set_label; simpl. rewrite Hl'. reflexivity.
Qed.

Lemma same_but_set_label (l l0 : label) (t : text) (s s' : JarvisMonitor) :
  same_but l s s' -> same_but l (set_label l0 t s) (set_label l0 t s').
Proof.
  intros [H1 [H2 [H3 [H4 [H5 [H6 [H7 [H8 [H9 H10]]]]]]]]].
  repeat split; try assumption.
  intros l' Hl'. unfold set_label; simpl.
  destruct (label_eqb l' l0); [reflexivity|apply H10; exact Hl'].
Qed.

Lemma same_but_print (l : label) (t : text) (s s' : JarvisMonitor) :
  same_but l s s' ->
  same_but l (with_stdout (stdout s ++ [t]) s) (with_stdout (stdout s' ++ [t]) s').
Proof.
  intros [H1 [H2 [H3 [H4 [H5 [H6 [H7 [H8 [H9 H10]]]]]]]]].
  repeat split; try assumption. simpl. rewrite H8. reflexivity.
Qed.

Lemma same_but_timer (l : label) (s s' : JarvisMonitor) :
  same_but l s s' ->
  same_but l (with_timers (S (timers s)) s) (with_timers (S (timers s')) s').
Proof.
  intros [H1 [H2 [H3 [H4 [H5 [H6 [H7 [H8 [H9 H10]]]]]]]]].
  repeat split; try assumption. simpl. rewrite H9. reflexivity.
Qed.

(** The top process, the footer and the end of the tick read no label:
    from two monitors that differ in one label they give the same result
    and two monitors that differ in that label only. *)
Lemma closing_top_same_but (w : world) (l : label) (s s' : JarvisMonitor) :
  same_but l s s' ->
  fst (closing w (top_proc_done w s)) = fst (closing w (top_proc_done w s')) /\
  same_but l (snd (closing w (top_proc_done w s))) (snd (closing w (top_proc_done w s'))).
Proof.
  intro H.
  unfold closing, top_proc_done, update_footer, root_after_update_stats, print,
    try_except, bind, call, config, update.
  destruct (selected (process_iter w)) as [p|];
    destruct (memory_info w) as [rss|e];
    cbv beta iota delta [fst snd];
    try destruct (is_Exception e);
    cbv beta iota delta [fst snd];
    (split; [reflexivity|]);
    repeat first [ apply same_but_timer | apply same_but_print | apply same_but_set_label ];
    exact H.
Qed.

Lemma closing_top_keeps_battery (w : world) (s : JarvisMonitor) :
  labels (snd (closing w (top_proc_done w s))) battery_label = labels s battery_label.
Proof.
  unfold closing, top_proc_done, update_footer, root_after_update_stats, print,
    try_except, bind, call, config, update.
  destruct (selected (process_iter w)) as [p|];
    destruct (memory_info w) as [rss|e];
    try destruct (is_Exception e); reflexivity.
Qed.

Lemma net_done_keeps_samples (w : world) (cur : snetio) (s : JarvisMonitor) :
  cpu_history (net_done w cur s) = cpu_history s /\
  mem_history (net_done w cur s) = mem_history s.
Proof.
  unfold net_done. destruct (rate _ _ _ _) as [[[up down]|]|e]; split; reflexivity.
Qed.

(** C1, as stated, fails for the reads that have no handler of their
    own: when [cpu_percent] raises, the rest of the body is skipped.  The
    memory history is not pushed, the network sample is not taken, and
    the CPU label keeps its text; only the message of the outer handler
    is printed.  The same tick with the CPU read answering pushes the
    memory percentage. *)
Lemma cpu_failure_skips_the_tick :
  let failed := after (update_stats (with_cpu_percent (Raise (PsutilError "no cpu"))
                                       sample_world)) sample_monitor in
  let normal := after (update_stats sample_world) sample_monitor in
  mem_history failed = mem_history sample_monitor /\
  Deque.newest (mem_history normal) = Some 40%Q /\
  last_update failed = 0 /\ last_update normal = 1000000 /\
  labels failed cpu_value_label = Lit "0%" /\
  labels failed net_up_label = Lit "0 B/s" /\
  stdout failed = [Cat (Lit "Error updating stats: ") (StrExn (PsutilError "no cpu"))].
Proof. repeat split. Qed.

(** An error out of [cpu_percent] reaches the outer handler at once: the
    tick prints it, sets the timer and does nothing else. *)
Lemma cpu_failure_reaches_outer_handler (w : world) (s : JarvisMonitor) (e : exn) :
  cpu_percent w = Raise e -> is_Exception e = true ->
  update_stats w s
  = (Ok tt, with_timers (S (timers s))
              (with_stdout (stdout s ++ [Cat (Lit "Error updating stats: ") (StrExn e)]) s)).
Proof.
  intros Hc He. unfold update_stats, update_stats_body.
  unfold bind at 1. unfold try_except. unfold bind at 1.
  rewrite update_cpu_eq, Hc, He. reflexivity.
Qed.

(** A failed swap read leaves the label as it was: no sentinel. *)
Lemma swap_failure_keeps_label (w : world) (s : JarvisMonitor) (e : exn) :
  swap_memory w = Raise e -> update_swap w s = (Ok tt, s).
Proof. intro H. rewrite update_swap_eq. unfold swap_done. rewrite H. reflexivity. Qed.

(** C1, amended.  When the battery read raises on a tick whose CPU,
    memory and network reads answer, the tick is not cut short: the
    battery label shows ["N/A"], the CPU and memory percentages are pushed
    on their histories, the network sample is taken, and the result of
    the tick and every attribute other than the battery label are those of
    the same tick with a battery read that answers. *)
Theorem battery_failure_is_field_level
    (w : world) (s : JarvisMonitor) (e : exn) (b : option sbattery)
    (c : Q) (mem : svmem) (cur : snetio) :
  cpu_percent w = Ok c -> is_ok (cpu_detail w) = true ->
  virtual_memory w = Ok mem -> net_io_counters w = Ok cur ->
  sensors_battery w = Raise e ->
  let failed := update_stats w s in
  let normal := update_stats (with_sensors_battery (Ok b) w) s in
  labels (snd failed) battery_label = Lit "N/A" /\
  cpu_history (snd failed) = Deque.append (cpu_history s) c /\
  mem_history (snd failed) = Deque.append (mem_history s) (vm_percent mem) /\
  last_net_io (snd failed) = cur /\ last_update (snd failed) = datetime_now w /\
  fst failed = fst normal /\
  same_but battery_label (snd failed) (snd normal).
Proof.
  intros Hc Hd Hm Hn Hb. cbv zeta.
  destruct (cpu_detail w) as [detail|] eqn:Hdetail; [clear Hd|discriminate].
  set (w' := with_sensors_battery (Ok b) w).
  rewrite (update_stats_reached w s c detail mem cur Hc Hdetail Hm Hn).
  rewrite (update_stats_reached w' s c detail mem cur Hc Hdetail Hm Hn).
  destruct (net_done_keeps_samples w cur (gpu_done w (mem_done mem (cpu_done c detail s))))
    as [Hc4 Hm4].
  set (s4 := net_done w cur (gpu_done w (mem_done mem (cpu_done c detail s)))) in *.
  change (net_done w' cur (gpu_done w' (mem_done mem (cpu_done c detail s)))) with s4.
  destruct (closing_live_keeps w s4) as [Hio [Hup [Hch [Hmh _]]]].
  split; [|split; [|split; [|split; [|split]]]].
  - unfold live_done. rewrite closing_top_keeps_battery.
    unfold battery_done, battery_text, set_label. simpl. rewrite Hb. reflexivity.
  - rewrite Hch, Hc4. reflexivity.
  - rewrite Hmh, Hm4. reflexivity.
  - rewrite Hio. reflexivity.
  - rewrite Hup. reflexivity.
  - exact (closing_top_same_but w battery_label
             (battery_done w (proc_count_done w (swap_done w s4)))
             (battery_done w' (proc_count_done w (swap_done w s4)))
             (same_but_here battery_label _ _ _)).
Qed.

Lemma battery_failure_is_field_level_witness :
  labels (snd (update_stats (with_sensors_battery (Raise (OSError "no sensor")) sample_world)
                 sample_monitor)) battery_label = Lit "N/A".
Proof.
  refine (proj1
    (battery_failure_is_field_level
       (with_sensors_battery (Raise (OSError "no sensor")) sample_world) sample_monitor
       (OSError "no sensor") None (25 # 2)%Q
       {| vm_percent := 40%Q; vm_used := 4000; vm_total := 10000 |}
       {| bytes_sent := 1000000; bytes_recv := 500 |} _ _ _ _ _)); reflexivity.
Defined.


(** * The rest of the monitor

    The functions of [system_monitor.py] and [prerender_model.py] that
    [update_stats] calls or that run beside it: the two formatters, the
    network graph, the frame player, the code scroller, and the names
    under which the frames are rendered and loaded. *)

(** ** [format_bytes] and [format_speed] *)

From Stdlib Require Import Qround.

Module Format.

(** The units of the [for] loop of [format_bytes]. *)
Definition units : list string := ["B"; "KB"; "MB"; "GB"; "TB"]%string.

(** Lines 724-728, from the unit the loop has reached: the remaining
    units, and the value divided so far. *)
Fixpoint format_bytes_from (remaining : list string) (bytes_val : Q) : text :=
  match remaining with
  | [] => Cat (Fixed 1 bytes_val) (Lit " PB")
  | unit :: remaining' =>
      if Qlt_bool bytes_val 1024
      then Cat (Fixed 1 bytes_val) (Cat (Lit " ") (Lit unit))
      else format_bytes_from remaining' (bytes_val / 1024)%Q
  end.

Definition format_bytes (bytes_val : Q) : text := format_bytes_from units bytes_val.

(** Lines 730-737. *)
Definition format_speed (bytes_per_sec : Q) : text :=
  if Qlt_bool bytes_per_sec 1024
  then Cat (Fixed 0 bytes_per_sec) (Lit " B/s")
  else if Qlt_bool bytes_per_sec (1024 * 1024)
  then Cat (Fixed 1 (bytes_per_sec / 1024)%Q) (Lit " KB/s")
  else Cat (Fixed 1 (bytes_per_sec / (1024 * 1024))%Q) (Lit " MB/s").

End Format.

(** A label text with the calls of the two formatters carried out. *)
Fixpoint expand (t : text) : text :=
  match t with
  | format_bytes q => Format.format_bytes q
  | format_speed q => Format.format_speed q
  | Cat a b => Cat (expand a) (expand b)
  | other => other
  end.

(** What [format_bytes] returns for the unit of index [k]. *)
Definition shown_bytes (v : Q) (k : nat) (remaining : list string) : text :=
  match nth_error remaining k with
  | Some unit => Cat (Fixed 1 v) (Cat (Lit " ") (Lit unit))
  | None => Cat (Fixed 1 v) (Lit " PB")
  end.

Lemma format_bytes_from_unit (remaining : list string) (b : Q) :
  exists (k : nat) (v : Q),
    (k <= List.length remaining)%nat /\
    Format.format_bytes_from remaining b = shown_bytes v k remaining /\
    (v == b / inject_Z (1024 ^ Z.of_nat k))%Q /\
    ((k < List.length remaining)%nat -> (v < 1024)%Q) /\
    ((0 < k)%nat -> (1 <= v)%Q).
Proof.
  revert b. induction remaining as [|unit remaining IH]; intro b.
  - exists 0%nat, b. repeat split; try (simpl; lia).
    simpl. field.
  - simpl. destruct (Qlt_bool b 1024) eqn:Hlt.
    + exists 0%nat, b. split; [simpl; lia|]. split; [reflexivity|].
      split; [simpl; field|]. split; [|lia].
      intros _. apply Qlt_bool_true. exact Hlt.
    + apply Qlt_bool_false in Hlt.
      destruct (IH (b / 1024)%Q) as [k [v [Hk [Hf [Hv [Hhi Hlo]]]]]].
      exists (S k), v. split; [simpl; lia|]. split; [exact Hf|].
      split; [|split].
      * rewrite Hv. rewrite Nat2Z.inj_succ, Z.pow_succ_r by lia.
        rewrite inject_Z_mult.
        assert (Hp : ~ (inject_Z (1024 ^ Z.of_nat k) == 0)%Q).
        { unfold Qeq; simpl. rewrite Z.mul_1_r.
          pose proof (Z.pow_pos_nonneg 1024 (Z.of_nat k)). lia. }
        field. exact Hp.
      * intro H. apply Hhi. simpl in H. lia.
      * intros _. destruct k as [|k].
        -- assert (H1 : (v == b / 1024)%Q) by (rewrite Hv; simpl; field).
           rewrite H1. apply Qle_shift_div_l; [reflexivity|].
           rewrite Qmult_1_l. exact Hlt.
        -- apply Hlo. lia.
Qed.

(** *** What the format writes *)

(** [x] rounded to an integer, a tie going to the even one. *)
Definition round_half_even (x : Q) : Z :=
  let f := Qfloor x in
  let r := (x - inject_Z f)%Q in
  if Qlt_bool r (1 # 2) then f
  else if Qlt_bool (1 # 2) r then f + 1
  else if Z.even f then f else f + 1.

(** The number that [f"{v:.1f}"] writes ([decimals = 1]), or
    [f"{v:.0f}"]: [v] rounded to that many decimals. *)
Definition fixed (decimals : nat) (v : Q) : Q :=
  (inject_Z (round_half_even (v * inject_Z (10 ^ Z.of_nat decimals)))
   / inject_Z (10 ^ Z.of_nat decimals))%Q.

Lemma round_half_even_bounds (x : Q) :
  Qfloor x <= round_half_even x <= Qfloor x + 1.
Proof.
  unfold round_half_even.
  destruct (Qlt_bool _ (1 # 2)); [lia|].
  destruct (Qlt_bool (1 # 2) _); [lia|].
  destruct (Z.even (Qfloor x)); lia.
Qed.

Lemma power_of_ten_pos (decimals : nat) : (0 < inject_Z (10 ^ Z.of_nat decimals))%Q.
Proof.
  change 0%Q with (inject_Z 0). rewrite <- Zlt_Qlt.
  apply Z.pow_pos_nonneg; lia.
Qed.

(** Rounding does not cross an integer: below [n] it writes at most
    [n], from [n] on at least [n]. *)
Lemma fixed_le (decimals : nat) (v : Q) (n : Z) :
  (v < inject_Z n)%Q -> (fixed decimals v <= inject_Z n)%Q.
Proof.
  intro Hv. unfold fixed.
  pose proof (power_of_ten_pos decimals) as Hp.
  set (P := 10 ^ Z.of_nat decimals) in *.
  apply Qle_shift_div_r; [exact Hp|].
  rewrite <- inject_Z_mult, <- Zle_Qle.
  assert (Hx : (v * inject_Z P < inject_Z (n * P))%Q).
  { rewrite inject_Z_mult. apply Qmult_lt_compat_r; assumption. }
  assert (Hf : Qfloor (v * inject_Z P) < n * P).
  { rewrite Zlt_Qlt. eapply Qle_lt_trans; [apply Qfloor_le|exact Hx]. }
  pose proof (round_half_even_bounds (v * inject_Z P)). lia.
Qed.

Lemma fixed_ge (decimals : nat) (v : Q) (n : Z) :
  (inject_Z n <= v)%Q -> (inject_Z n <= fixed decimals v)%Q.
Proof.
  intro Hv. unfold fixed.
  pose proof (power_of_ten_pos decimals) as Hp.
  set (P := 10 ^ Z.of_nat decimals) in *.
  apply Qle_shift_div_l; [exact Hp|].
  rewrite <- inject_Z_mult, <- Zle_Qle.
  assert (Hx : (inject_Z (n * P) <= v * inject_Z P)%Q).
  { rewrite inject_Z_mult. apply Qmult_le_compat_r; [exact Hv|apply Qlt_le_weak; exact Hp]. }
  apply Qfloor_resp_le in Hx. rewrite Qfloor_Z in Hx.
  pose proof (round_half_even_bounds (v * inject_Z P)). lia.
Qed.

(** X1.  [format_bytes] formats the value divided by [1024] as many
    times as the index [k] of the unit it prints ([k = 5] for PB).  With
    any unit below PB the value formatted is below [1024] and the number
    written, the value rounded to one decimal, is at most [1024.0]; with
    any unit above B both are at least [1].  The bound is reached:
    [1048575] bytes are written as [1024.0] with unit KB.  A value below
    [1024], a negative one included, is written with unit B, and with PB
    the number is not bounded. *)
Theorem format_bytes_picks_unit (b : Q) :
  (exists (k : nat) (v : Q),
    (k <= 5)%nat /\
    Format.format_bytes b = shown_bytes v k Format.units /\
    (v == b / inject_Z (1024 ^ Z.of_nat k))%Q /\
    (k = 5%nat \/ ((v < 1024)%Q /\ (fixed 1 v <= 1024)%Q)) /\
    (k = 0%nat \/ ((1 <= v)%Q /\ (1 <= fixed 1 v)%Q)) /\
    (k = 0%nat \/ (1024 <= b)%Q)) /\
  (Format.format_bytes 1048575 = shown_bytes (1048575 / 1024)%Q 1 Format.units /\
   (1048575 / 1024 < 1024)%Q /\
   (fixed 1 (1048575 / 1024) == 1024)%Q).
Proof.
  split; [|split; [reflexivity|split; vm_compute; reflexivity]].
  destruct (format_bytes_from_unit Format.units b) as [k [v [Hk [Hf [Hv [Hhi Hlo]]]]]].
  destruct (Qlt_bool b 1024) eqn:Hb.
  - exists 0%nat, b. unfold Format.format_bytes. simpl. rewrite Hb.
    split; [lia|]. split; [reflexivity|]. split; [field|].
    apply Qlt_bool_true in Hb.
    split; [right; split; [exact Hb|apply (fixed_le 1 b 1024); exact Hb]|].
    split; left; reflexivity.
  - exists k, v. simpl in Hk, Hhi.
    split; [exact Hk|]. split; [exact Hf|]. split; [exact Hv|].
    split; [|split].
    + destruct (Nat.eq_dec k 5) as [->|Hne]; [left; reflexivity|right].
      assert (Hlt : (v < 1024)%Q) by (apply Hhi; lia).
      split; [exact Hlt|apply (fixed_le 1 v 1024); exact Hlt].
    + destruct k as [|k]; [left; reflexivity|right].
      assert (Hge : (1 <= v)%Q) by (apply Hlo; lia).
      split; [exact Hge|apply (fixed_ge 1 v 1); exact Hge].
    + right. apply Qlt_bool_false. exact Hb.
Qed.

(** [format_speed] prints the speed itself with no decimals and
    unit B/s below [1024], the speed over [1024] with unit KB/s, a number
    from [1] up to [1024], below [1024 * 1024], and the speed over
    [1024 * 1024] with unit MB/s, a number of at least [1], from there
    on. *)
Lemma format_speed_picks_unit (r : Q) :
  ((r < 1024)%Q /\
   Format.format_speed r = Cat (Fixed 0 r) (Lit " B/s")) \/
  ((1024 <= r)%Q /\ (r < 1024 * 1024)%Q /\
   (1 <= r / 1024)%Q /\ (r / 1024 < 1024)%Q /\
   Format.format_speed r = Cat (Fixed 1 (r / 1024)%Q) (Lit " KB/s")) \/
  ((1024 * 1024 <= r)%Q /\ (1 <= r / (1024 * 1024))%Q /\
   Format.format_speed r = Cat (Fixed 1 (r / (1024 * 1024))%Q) (Lit " MB/s")).
Proof.
  unfold Format.format_speed.
  destruct (Qlt_bool r 1024) eqn:H1.
  - left. split; [apply Qlt_bool_true; exact H1|reflexivity].
  - apply Qlt_bool_false in H1. right.
    destruct (Qlt_bool r (1024 * 1024)) eqn:H2.
    + apply Qlt_bool_true in H2. left.
      split; [exact H1|]. split; [exact H2|].
      split; [|split; [|reflexivity]].
      * apply Qle_shift_div_l; [reflexivity|]. rewrite Qmult_1_l. exact H1.
      * apply Qlt_shift_div_r; [reflexivity|]. exact H2.
    + apply Qlt_bool_false in H2. right.
      split; [exact H2|]. split; [|reflexivity].
      apply Qle_shift_div_l; [reflexivity|]. rewrite Qmult_1_l. exact H2.
Qed.

(** X2.  On a tick with a positive delta on which [bytes_sent] is below
    the previous sample, the upload label reads a negative number of
    B/s: a negative speed never gets a larger unit. *)
Theorem counter_reset_shows_negative_speed
    (w : world) (s : JarvisMonitor) (cur : snetio) :
  reaches_network w = true -> net_io_counters w = Ok cur ->
  0 < datetime_now w - last_update s ->
  bytes_sent cur < bytes_sent (last_net_io s) ->
  exists up,
    (up < 0)%Q /\
    labels (after (update_stats w) s) net_up_label = format_speed up /\
    expand (labels (after (update_stats w) s) net_up_label)
    = Cat (Fixed 0 up) (Lit " B/s").
Proof.
  intros Hreach Hn Hdelta Hreset.
  pose proof (update_stats_shows_speeds w s cur Hreach Hn Hdelta) as H.
  cbv zeta in H. destruct H as [_ [_ [_ [_ [Hlabel _]]]]].
  eexists. split; [|split; [exact Hlabel|]].
  - apply speed_of_reset; lia.
  - rewrite Hlabel. simpl. unfold Format.format_speed.
    assert (Hneg : (inject_Z (bytes_sent cur - bytes_sent (last_net_io s))
                    / total_seconds (datetime_now w - last_update s) < 1024)%Q).
    { eapply Qlt_trans; [apply speed_of_reset; lia|reflexivity]. }
    apply Qlt_bool_true in Hneg. rewrite Hneg. reflexivity.
Qed.

Lemma counter_reset_shows_negative_speed_witness :
  exists up,
    (up < 0)%Q /\
    labels (after (update_stats world_after_reset) monitor_before_reset) net_up_label
    = format_speed up /\
    expand (labels (after (update_stats world_after_reset) monitor_before_reset) net_up_label)
    = Cat (Fixed 0 up) (Lit " B/s").
Proof.
  apply (counter_reset_shows_negative_speed world_after_reset monitor_before_reset
           {| bytes_sent := 0; bytes_recv := 0 |}); reflexivity.
Defined.

(** ** Rendering, loading and playing the frames *)

From Stdlib Require Import DecimalString Orders Sorted Mergesort.

(** What the functions of this part can raise. *)
Inductive failure : Type :=
| IndexError
| ValueError
| DivisionByZero
| FileNotFoundError
| UnidentifiedImageError
| ImageFileTruncated
| TclError.

Inductive outcome (A : Type) : Type :=
| Returns (a : A)
| Fails (e : failure).
Arguments Returns {A} a.
Arguments Fails {A} e.

(** [l[i]] for a Python list: a negative index counts from the end. *)
Definition getitem {A} (l : list A) (i : Z) : outcome A :=
  let n := Z.of_nat (List.length l) in
  let j := if i <? 0 then i + n else i in
  if (0 <=? j) && (j <? n) then
    match nth_error l (Z.to_nat j) with
    | Some a => Returns a
    | None => Fails IndexError
    end
  else Fails IndexError.

Module Prerender.

(** [FRAME_COUNT], line 16 of [prerender_model.py]. *)
Definition FRAME_COUNT : nat := 120.

(** [f'{i:03d}'] for an [i] of [range]: the decimal digits, with zeros in
    front up to a width of three. *)
Definition format_03d (i : nat) : string :=
  let digits := NilZero.string_of_uint (Nat.to_uint i) in
  (string_of_list_ascii (repeat "0"%char (3 - String.length digits)) ++ digits)%string.

(** The name, inside [CACHE_DIR], of the file of frame [i]. *)
Definition frame_file (i : nat) : string :=
  ("frame_" ++ format_03d i ++ ".png")%string.

(** [(i * 360) / FRAME_COUNT] *)
Definition angle (i : nat) : Q :=
  (inject_Z (Z.of_nat i * 360) / inject_Z (Z.of_nat FRAME_COUNT))%Q.

(** [main]: the calls [render_frame(faces, angle, output_path)] it
    makes, in order; none when [load_and_prepare_model] found no model
    file.  Each call writes the file it names. *)
Definition main (model_found : bool) : list (Q * string) :=
  if model_found
  then map (fun i => (angle i, frame_file i)) (seq 0 FRAME_COUNT)
  else [].

End Prerender.

(** Python compares strings code point by code point. *)
Module StringOrder <: TotalLeBool.
Definition t := string.
Definition leb := String.leb.
Lemma leb_total : forall x y : string, leb x y = true \/ leb y x = true.
Proof. exact String.leb_total. Qed.
End StringOrder.

Module StringSort := Sort StringOrder.

Module Player.

(** [glob] with the pattern ['frame_*.png'], on one file name. *)
Definition matches_frame_png (name : string) : bool :=
  prefix "frame_" name &&
  (10 <=? String.length name)%nat &&
  String.eqb (substring (String.length name - 4) 4 name) ".png".

(** [sorted(glob.glob(os.path.join(cache_dir, 'frame_*.png')))], on the
    names [listing] of the files of the cache directory. *)
Definition frame_files (listing : list string) : list string :=
  StringSort.sort (filter matches_frame_png listing).

(** The attributes of [JarvisMonitor] that hold the frames and
    play them.  A [PhotoImage] is named by the file it was loaded from;
    [loading] keeps the calls of [update_loading_progress], [printed] the
    lines of [print], [timers] counts the calls of
    [root.after(50, self.animate_model)]. *)
Record Gui : Type := {
  frames : list string;
  current_frame : Z;
  model_label : option string;
  loading : list (Q * text);
  printed : list text;
  timers : nat
}.

(** The three library calls of lines 149-152 on one frame file:
    [Image.open(frame_path)], [img.resize(target_size, LANCZOS)] and
    [ImageTk.PhotoImage(img)], each of which returns or raises; an image
    is named by the file it was read from.  [Image.open] raises on a
    file that is missing or is no image ([FileNotFoundError],
    [UnidentifiedImageError]); it reads the header only, so a file that
    opens can still raise on [resize], which decodes it (the [OSError]
    of a truncated file, [ImageFileTruncated]). *)
Record Pillow : Type := {
  Image_open : string -> outcome unit;
  resize : string -> outcome unit;
  PhotoImage : string -> outcome unit
}.

(** Lines 149-152: the photo of one frame file, or the exception of the
    first of the three calls that raises. *)
Definition photo (lib : Pillow) (frame_path : string) : outcome string :=
  match Image_open lib frame_path with
  | Fails e => Fails e
  | Returns _ =>
      match resize lib frame_path with
      | Fails e => Fails e
      | Returns _ =>
          match PhotoImage lib frame_path with
          | Fails e => Fails e
          | Returns _ => Returns frame_path
          end
      end
  end.

(** None of the three calls raises on the file. *)
Definition loads (lib : Pillow) (frame_path : string) : bool :=
  match photo lib frame_path with
  | Returns _ => true
  | Fails _ => false
  end.

(** The attributes as [__init__] sets them (lines 56-58). *)
Definition init : Gui :=
  {| frames := []; current_frame := 0; model_label := None;
     loading := []; printed := []; timers := 0 |}.

(** The [for] loop of [load_frames] (lines 148-158) from index [i] on.
    No handler is around the three library calls: what one of them
    raises leaves the loop, with the frame not appended. *)
Fixpoint load_loop (lib : Pillow) (total : nat) (i : nat)
    (files : list string) (g : Gui) : outcome unit * Gui :=
  match files with
  | [] => (Returns tt, g)
  | frame_path :: files' =>
      match photo lib frame_path with
      | Returns image =>
        let g1 :=
          {| frames := frames g ++ [image]; current_frame := current_frame g;
             model_label := model_label g; loading := loading g;
             printed := printed g; timers := timers g |} in
        let g2 :=
          if (Z.of_nat i mod 10 =? 0)%Z then
            let progress :=
              (1 # 10) + (inject_Z (Z.of_nat i) / inject_Z (Z.of_nat total)) * (5 # 10) in
            let status :=
              Cat (Lit "Loading frames... ")
                  (Cat (Int (Z.of_nat i + 1)) (Cat (Lit "/") (Int (Z.of_nat total)))) in
            {| frames := frames g1; current_frame := current_frame g1;
               model_label := model_label g1;
               loading := loading g1 ++ [(progress, status)];
               printed := printed g1; timers := timers g1 |}
          else g1 in
        load_loop lib total (S i) files' g2
      | Fails e => (Fails e, g)
      end
  end%Q.

(** [load_frames] (lines 135-160). *)
Definition load_frames (cache_dir : string) (listing : list string)
    (lib : Pillow) (g : Gui) : outcome unit * Gui :=
  let files := frame_files listing in
  match files with
  | [] =>
      (Returns tt,
       {| frames := frames g; current_frame := current_frame g;
          model_label := model_label g; loading := loading g;
          printed := printed g ++
                     [Cat (Lit "No pre-rendered frames found in ") (Lit cache_dir);
                      Lit "Run 'python3 prerender_model.py' to generate frames"];
          timers := timers g |})
  | _ =>
      match load_loop lib (List.length files) 0 files g with
      | (Returns _, g') =>
          (Returns tt,
           {| frames := frames g'; current_frame := current_frame g';
              model_label := model_label g'; loading := loading g';
              printed := printed g' ++
                         [Cat (Lit "Loaded ")
                              (Cat (Int (Z.of_nat (List.length (frames g'))))
                                   (Lit " animation frames"))];
              timers := timers g' |})
      | (Fails e, g') => (Fails e, g')
      end
  end.

(** [animate_model] (lines 713-720). *)
Definition animate_model (g : Gui) : outcome unit * Gui :=
  match frames g with
  | [] =>
      (Returns tt,
       {| frames := frames g; current_frame := current_frame g;
          model_label := model_label g; loading := loading g;
          printed := printed g; timers := S (timers g) |})
  | _ =>
      match getitem (frames g) (current_frame g) with
      | Returns image =>
          (Returns tt,
           {| frames := frames g;
              current_frame := (current_frame g + 1) mod Z.of_nat (List.length (frames g));
              model_label := Some image; loading := loading g;
              printed := printed g; timers := S (timers g) |})
      | Fails e => (Fails e, g)
      end
  end.

(** [n] firings of the timer of [animate_model]; the first call that
    raises sets no timer and ends the animation. *)
Fixpoint animate (n : nat) (g : Gui) : outcome unit * Gui :=
  match n with
  | O => (Returns tt, g)
  | S n' =>
      match animate_model g with
      | (Returns _, g') => animate n' g'
      | (Fails e, g') => (Fails e, g')
      end
  end.

End Player.

(** A library none of whose calls raises. *)
Definition sound_library : Player.Pillow :=
  {| Player.Image_open := fun _ => Returns tt;
     Player.resize := fun _ => Returns tt;
     Player.PhotoImage := fun _ => Returns tt |}.

(** [frame_001.png] was cut short on disk: it opens, and [resize]
    raises on it. *)
Definition truncated_frame_001 : Player.Pillow :=
  {| Player.Image_open := fun _ => Returns tt;
     Player.resize := fun name => if String.eqb name "frame_001.png"
                                  then Fails ImageFileTruncated else Returns tt;
     Player.PhotoImage := fun _ => Returns tt |}.

(** *** The order of file names *)

Lemma ascii_compare_lt_trans (a b c : ascii) :
  Ascii.compare a b = Lt -> Ascii.compare b c = Lt -> Ascii.compare a c = Lt.
Proof.
  unfold Ascii.compare. rewrite !N.compare_lt_iff. apply N.lt_trans.
Qed.

Lemma string_compare_lt_trans (s1 s2 s3 : string) :
  String.compare s1 s2 = Lt -> String.compare s2 s3 = Lt -> String.compare s1 s3 = Lt.
Proof.
  revert s2 s3. induction s1 as [|a s1 IH]; intros [|b s2] [|c s3]; simpl;
    try discriminate; try reflexivity.
  destruct (Ascii.compare a b) eqn:Hab; try discriminate;
    destruct (Ascii.compare b c) eqn:Hbc; try discriminate; intros H12 H23.
  - apply Ascii.compare_eq_iff in Hab. subst. rewrite Hbc.
    eapply IH; eassumption.
  - apply Ascii.compare_eq_iff in Hab. subst. rewrite Hbc. reflexivity.
  - apply Ascii.compare_eq_iff in Hbc. subst. rewrite Hab. reflexivity.
  - rewrite (ascii_compare_lt_trans a b c Hab Hbc). reflexivity.
Qed.

Lemma string_leb_trans (s1 s2 s3 : string) :
  String.leb s1 s2 = true -> String.leb s2 s3 = true -> String.leb s1 s3 = true.
Proof.
  unfold String.leb.
  destruct (String.compare s1 s2) eqn:H12; try discriminate;
    destruct (String.compare s2 s3) eqn:H23; try discriminate; intros _ _.
  - apply String.compare_eq_iff in H12. subst. rewrite H23. reflexivity.
  - apply String.compare_eq_iff in H12. subst. rewrite H23. reflexivity.
  - apply String.compare_eq_iff in H23. subst. rewrite H12. reflexivity.
  - rewrite (string_compare_lt_trans _ _ _ H12 H23). reflexivity.
Qed.

Definition string_le (a b : string) : Prop := is_true (String.leb a b).

Lemma string_le_strongly_sorted (l : list string) :
  Sorted string_le l -> StronglySorted string_le l.
Proof.
  apply Sorted_StronglySorted. intros a b c. apply string_leb_trans.
Qed.

(** Two sorted lists with the same elements are the same list. *)
Lemma sorted_strings_unique (l1 l2 : list string) :
  StronglySorted string_le l1 -> StronglySorted string_le l2 ->
  Permutation l1 l2 -> l1 = l2.
Proof.
  intro H1. revert l2. induction H1 as [|a l1 H1 IH Ha]; intros l2 H2 Hp.
  - apply Permutation_nil in Hp. subst. reflexivity.
  - destruct l2 as [|b l2].
    + apply Permutation_sym, Permutation_nil in Hp. discriminate.
    + inversion H2 as [|? ? H2' Hb]; subst.
      assert (Hab : a = b).
      { assert (Hina : In a (b :: l2))
          by (eapply Permutation_in; [exact Hp|left; reflexivity]).
        assert (Hinb : In b (a :: l1))
          by (eapply Permutation_in; [apply Permutation_sym; exact Hp|left; reflexivity]).
        destruct Hina as [Heq|Hina]; [congruence|].
        destruct Hinb as [Heq|Hinb]; [congruence|].
        rewrite Forall_forall in Ha, Hb.
        apply String.leb_antisym; [apply Ha|apply Hb]; assumption. }
      subst b. f_equal. apply IH; [assumption|].
      eapply Permutation_cons_inv. exact Hp.
Qed.

Lemma Permutation_filter {A} (f : A -> bool) (l l' : list A) :
  Permutation l l' -> Permutation (filter f l) (filter f l').
Proof.
  induction 1 as [|x l l' _ IH|x y l|l l' l'' _ IH1 _ IH2]; simpl.
  - apply perm_nil.
  - destruct (f x); [apply perm_skip|]; exact IH.
  - destruct (f x), (f y); try apply Permutation_refl. apply perm_swap.
  - eapply perm_trans; eassumption.
Qed.

(** Strictly ascending, checked pair by pair. *)
Fixpoint ascending (l : list string) : bool :=
  match l with
  | a :: (b :: _) as l' => String.ltb a b && ascending l'
  | _ => true
  end.

Lemma ascending_sorted (l : list string) : ascending l = true -> Sorted string_le l.
Proof.
  induction l as [|a [|b l] IH]; intro H.
  - constructor.
  - repeat constructor.
  - simpl in H. apply andb_true_iff in H. destruct H as [Hab Hl].
    constructor; [apply IH; exact Hl|]. constructor.
    unfold string_le, is_true, String.leb. unfold String.ltb in Hab.
    destruct (String.compare a b); try discriminate; reflexivity.
Qed.

(** The names [main] renders under, in the order of rendering. *)
Definition rendered_files : list string := map snd (Prerender.main true).

Lemma rendered_files_eq :
  rendered_files = map Prerender.frame_file (seq 0 Prerender.FRAME_COUNT).
Proof. unfold rendered_files, Prerender.main. rewrite map_map. reflexivity. Qed.

Lemma rendered_files_sorted : StronglySorted string_le rendered_files.
Proof.
  apply string_le_strongly_sorted, ascending_sorted. vm_compute. reflexivity.
Qed.

Lemma rendered_files_match :
  filter Player.matches_frame_png rendered_files = rendered_files.
Proof. apply forallb_filter_id. vm_compute. reflexivity. Qed.

(** The glob keeps the rendered files and drops the rest. *)
Lemma filter_rendered (listing others : list string) :
  Forall (fun name => Player.matches_frame_png name = false) others ->
  Permutation listing (rendered_files ++ others) ->
  Permutation (filter Player.matches_frame_png listing) rendered_files.
Proof.
  intros Hothers Hp.
  eapply perm_trans; [apply Permutation_filter; exact Hp|].
  rewrite filter_app, rendered_files_match.
  assert (Hnone : filter Player.matches_frame_png others = []).
  { clear Hp. induction Hothers as [|x l Hx _ IH]; [reflexivity|].
    simpl. rewrite Hx. exact IH. }
  rewrite Hnone, app_nil_r. apply Permutation_refl.
Qed.

(** Sorting the rendered names, listed in any order, gives the order of
    rendering. *)
Lemma sort_rendered (files : list string) :
  Permutation files rendered_files -> StringSort.sort files = rendered_files.
Proof.
  intro Hf. apply sorted_strings_unique.
  - apply string_le_strongly_sorted. apply StringSort.Sorted_sort.
  - apply rendered_files_sorted.
  - eapply perm_trans; [apply Permutation_sym, StringSort.Permuted_sort|exact Hf].
Qed.

(** X3.  When the cache directory holds the files [prerender_model.py]
    wrote, in whatever order the file system lists them and beside any
    files that do not match ['frame_*.png'], the sorted list of frame
    files of [load_frames] is the list of rendered files in the order of
    rendering: the zero padding of the names makes the order of the
    names the order of the frame numbers. *)
Theorem frame_files_in_render_order (listing others : list string) :
  Forall (fun name => Player.matches_frame_png name = false) others ->
  Permutation listing (rendered_files ++ others) ->
  Player.frame_files listing = map Prerender.frame_file (seq 0 120).
Proof.
  intros Hothers Hp. unfold Player.frame_files.
  assert (E : map Prerender.frame_file (seq 0 120) = rendered_files)
    by (symmetry; apply rendered_files_eq).
  rewrite E. apply sort_rendered. eapply filter_rendered; eassumption.
Qed.

Lemma frame_files_in_render_order_witness :
  Player.frame_files (rev rendered_files ++ ["code_lines.txt"%string])
  = map Prerender.frame_file (seq 0 120).
Proof.
  apply (frame_files_in_render_order _ ["code_lines.txt"%string]).
  - repeat constructor.
  - apply Permutation_app_tail. apply Permutation_sym, Permutation_rev.
Defined.

(** *** Loading *)

(** The progress [load_frames] reports at frame [i] of [total]. *)
Definition frame_progress (total i : nat) : Q :=
  ((1 # 10) + (inject_Z (Z.of_nat i) / inject_Z (Z.of_nat total)) * (5 # 10))%Q.

(** The indices at which it reports. *)
Definition reported (i n : nat) : list nat :=
  filter (fun j => (Z.of_nat j mod 10 =? 0)%Z) (seq i n).

Lemma loads_photo (lib : Player.Pillow) (frame_path : string) :
  Player.loads lib frame_path = true -> Player.photo lib frame_path = Returns frame_path.
Proof.
  unfold Player.loads, Player.photo.
  destruct (Player.Image_open lib frame_path); [|discriminate].
  destruct (Player.resize lib frame_path); [|discriminate].
  destruct (Player.PhotoImage lib frame_path); [reflexivity|discriminate].
Qed.

Lemma load_loop_all_open (lib : Player.Pillow) (total : nat)
    (files : list string) (i : nat) (g : Player.Gui) :
  forallb (Player.loads lib) files = true ->
  exists g',
    Player.load_loop lib total i files g = (Returns tt, g') /\
    Player.frames g' = (Player.frames g ++ files)%list /\
    Player.current_frame g' = Player.current_frame g /\
    Player.model_label g' = Player.model_label g /\
    Player.printed g' = Player.printed g /\
    Player.timers g' = Player.timers g /\
    map fst (Player.loading g')
    = (map fst (Player.loading g)
       ++ map (frame_progress total) (reported i (List.length files)))%list.
Proof.
  revert i g. induction files as [|f files IH]; intros i g Hopen.
  - exists g. simpl. rewrite !app_nil_r. repeat split.
  - simpl in Hopen. apply andb_true_iff in Hopen. destruct Hopen as [Hf Hfiles].
    simpl. rewrite (loads_photo _ _ Hf). unfold reported. simpl.
    destruct (Z.of_nat i mod 10 =? 0)%Z;
      match goal with
      | |- context [Player.load_loop lib total (S i) files ?g2] =>
          destruct (IH (S i) g2 Hfiles) as [g' [Hrun [Hfr [Hcf [Hml [Hpr [Htm Hld]]]]]]]
      end;
      exists g'; simpl in *;
      (split; [exact Hrun|]);
      (split; [rewrite Hfr, <- app_assoc; reflexivity|]);
      repeat (split; [assumption|]).
    + rewrite Hld. unfold reported. rewrite map_app, <- app_assoc. reflexivity.
    + rewrite Hld. reflexivity.
Qed.

Lemma load_loop_first_failure (lib : Player.Pillow) (total : nat)
    (before : list string) (bad : string) (rest : list string) (e : failure)
    (i : nat) (g : Player.Gui) :
  forallb (Player.loads lib) before = true -> Player.photo lib bad = Fails e ->
  exists g',
    Player.load_loop lib total i (before ++ bad :: rest) g = (Fails e, g') /\
    Player.frames g' = (Player.frames g ++ before)%list /\
    Player.printed g' = Player.printed g.
Proof.
  revert i g. induction before as [|f before IH]; intros i g Hopen Hbad.
  - exists g. simpl. rewrite Hbad, app_nil_r. repeat split.
  - simpl in Hopen. apply andb_true_iff in Hopen. destruct Hopen as [Hf Hbefore].
    simpl. rewrite (loads_photo _ _ Hf).
    match goal with
    | |- context [Player.load_loop lib total (S i) _ ?g2] =>
        destruct (IH (S i) g2 Hbefore Hbad) as [g' [Hrun [Hfr Hpr]]]
    end.
    exists g'. split; [exact Hrun|].
    rewrite Hfr, Hpr.
    destruct (Z.of_nat i mod 10 =? 0)%Z; simpl; rewrite <- app_assoc; split; reflexivity.
Qed.

Lemma frame_progress_bounds (total i : nat) :
  (i < total)%nat ->
  (1 # 10 <= frame_progress total i)%Q /\ (frame_progress total i < 6 # 10)%Q.
Proof.
  intro Hi. unfold frame_progress.
  assert (Ht : (0 < inject_Z (Z.of_nat total))%Q) by (unfold Qlt; simpl; lia).
  assert (H0 : (0 <= inject_Z (Z.of_nat i) / inject_Z (Z.of_nat total))%Q).
  { apply Qle_shift_div_l; [exact Ht|]. rewrite Qmult_0_l. unfold Qle; simpl. lia. }
  assert (H1 : (inject_Z (Z.of_nat i) / inject_Z (Z.of_nat total) < 1)%Q).
  { apply Qlt_shift_div_r; [exact Ht|]. rewrite Qmult_1_l. unfold Qlt; simpl. lia. }
  set (x := (inject_Z (Z.of_nat i) / inject_Z (Z.of_nat total))%Q) in *.
  split.
  - setoid_replace (1 # 10)%Q with ((1 # 10) + 0 * (5 # 10))%Q at 1 by ring.
    apply Qplus_le_r. apply Qmult_le_compat_r; [exact H0|discriminate].
  - setoid_replace (6 # 10)%Q with ((1 # 10) + 1 * (5 # 10))%Q by reflexivity.
    apply Qplus_lt_r. apply Qmult_lt_compat_r; [reflexivity|exact H1].
Qed.

(** With every frame file readable [load_frames] returns, the frames
    appended and the current frame as it was. *)
Lemma load_frames_all_open
    (cache_dir : string) (listing : list string) (lib : Player.Pillow)
    (g : Player.Gui) :
  Player.frame_files listing <> [] ->
  forallb (Player.loads lib) (Player.frame_files listing) = true ->
  exists g',
    Player.load_frames cache_dir listing lib g = (Returns tt, g') /\
    Player.frames g' = (Player.frames g ++ Player.frame_files listing)%list /\
    Player.current_frame g' = Player.current_frame g.
Proof.
  intros Hne Hopen. unfold Player.load_frames.
  destruct (load_loop_all_open lib (List.length (Player.frame_files listing))
              (Player.frame_files listing) 0 g Hopen)
    as [g' [Hrun [Hfr [Hcf _]]]].
  destruct (Player.frame_files listing) as [|f files] eqn:Hfiles; [congruence|].
  rewrite Hrun. eexists. split; [reflexivity|]. split; [exact Hfr|exact Hcf].
Qed.

(** X4.  When at least one frame file is found and none of
    [Image.open], [resize] and [PhotoImage] raises on any of them,
    [load_frames] appends all of them to [frames] in sorted order, touches neither the current frame
    nor the label, and prints their number.  It reports progress at
    every tenth file, starting with the first, and every progress value
    lies between 0.1, set before the call by [initialize_app], and 0.6,
    set after it. *)
Theorem load_frames_appends_sorted_files
    (cache_dir : string) (listing : list string) (lib : Player.Pillow)
    (g : Player.Gui) :
  Player.frame_files listing <> [] ->
  forallb (Player.loads lib) (Player.frame_files listing) = true ->
  exists g',
    Player.load_frames cache_dir listing lib g = (Returns tt, g') /\
    Player.frames g' = (Player.frames g ++ Player.frame_files listing)%list /\
    Player.current_frame g' = Player.current_frame g /\
    Player.model_label g' = Player.model_label g /\
    Player.timers g' = Player.timers g /\
    Player.printed g'
    = (Player.printed g
       ++ [Cat (Lit "Loaded ")
               (Cat (Int (Z.of_nat (List.length (Player.frames g)
                                    + List.length (Player.frame_files listing))))
                    (Lit " animation frames"))])%list /\
    map fst (Player.loading g')
    = (map fst (Player.loading g)
       ++ map (frame_progress (List.length (Player.frame_files listing)))
              (reported 0 (List.length (Player.frame_files listing))))%list /\
    Forall (fun p => (1 # 10 <= p)%Q /\ (p < 6 # 10)%Q)
      (map (frame_progress (List.length (Player.frame_files listing)))
           (reported 0 (List.length (Player.frame_files listing)))).
Proof.
  intros Hne Hopen. unfold Player.load_frames.
  destruct (load_loop_all_open lib (List.length (Player.frame_files listing))
              (Player.frame_files listing) 0 g Hopen)
    as [g' [Hrun [Hfr [Hcf [Hml [Hpr [Htm Hld]]]]]]].
  destruct (Player.frame_files listing) as [|f files] eqn:Hfiles; [congruence|].
  rewrite Hrun. eexists. split; [reflexivity|]. simpl Player.frames.
  cbn [Player.current_frame Player.model_label Player.timers Player.printed Player.loading].
  split; [exact Hfr|]. split; [exact Hcf|]. split; [exact Hml|]. split; [exact Htm|].
  split; [|split; [exact Hld|]].
  - rewrite Hpr, Hfr, length_app, Nat2Z.inj_add, <- Nat2Z.inj_add. reflexivity.
  - apply Forall_map. apply Forall_forall. intros j Hj.
    unfold reported in Hj. apply filter_In in Hj. destruct Hj as [Hj _].
    apply in_seq in Hj. apply frame_progress_bounds. lia.
Qed.

Lemma load_frames_appends_sorted_files_witness :
  exists g',
    Player.load_frames "cache" (rev rendered_files) sound_library Player.init
    = (Returns tt, g') /\
    Player.frames g' = Player.frame_files (rev rendered_files).
Proof.
  destruct (load_frames_appends_sorted_files "cache" (rev rendered_files)
              sound_library Player.init) as [g' [Hrun [Hfr _]]].
  - vm_compute. discriminate.
  - vm_compute. reflexivity.
  - exists g'. split; [exact Hrun|exact Hfr].
Defined.

(** X5.  [load_frames] has no handler around [Image.open], [resize]
    and [PhotoImage]: at the first frame file, in sorted order, on which
    one of the three raises, [load_frames] raises that same exception,
    with exactly the files sorted before that one appended to [frames]
    and the line with the number of frames not printed.  A file that
    opens and cannot be decoded stops the loading as a file that does
    not open does. *)
Theorem load_frames_stops_at_unreadable_file
    (cache_dir : string) (listing : list string) (lib : Player.Pillow)
    (g : Player.Gui) (before : list string) (bad : string) (rest : list string)
    (e : failure) :
  Player.frame_files listing = (before ++ bad :: rest)%list ->
  forallb (Player.loads lib) before = true ->
  Player.photo lib bad = Fails e ->
  exists g',
    Player.load_frames cache_dir listing lib g = (Fails e, g') /\
    Player.frames g' = (Player.frames g ++ before)%list /\
    Player.printed g' = Player.printed g.
Proof.
  intros Hfiles Hopen Hbad. unfold Player.load_frames. rewrite Hfiles.
  destruct (load_loop_first_failure lib (List.length (before ++ bad :: rest))
              before bad rest e 0 g Hopen Hbad) as [g' [Hrun [Hfr Hpr]]].
  rewrite Hrun. exists g'.
  destruct (before ++ bad :: rest)%list eqn:E; [destruct before; discriminate|].
  split; [reflexivity|]. split; [exact Hfr|exact Hpr].
Qed.

Lemma load_frames_stops_at_unreadable_file_witness :
  exists g',
    Player.load_frames "cache" ["frame_001.png"; "frame_000.png"; "frame_002.png"]%string
      truncated_frame_001 Player.init
    = (Fails ImageFileTruncated, g') /\
    Player.frames g' = ["frame_000.png"%string] /\
    Player.printed g' = [].
Proof.
  apply (load_frames_stops_at_unreadable_file "cache"
           ["frame_001.png"; "frame_000.png"; "frame_002.png"]%string
           truncated_frame_001 Player.init
           ["frame_000.png"%string] "frame_001.png"%string ["frame_002.png"%string]
           ImageFileTruncated);
    reflexivity.
Defined.

(** *** Playing *)

Lemma animate_model_in_range (g : Player.Gui) :
  0 <= Player.current_frame g < Z.of_nat (List.length (Player.frames g)) ->
  exists image,
    nth_error (Player.frames g) (Z.to_nat (Player.current_frame g)) = Some image /\
    Player.animate_model g
    = (Returns tt,
       {| Player.frames := Player.frames g;
          Player.current_frame :=
            (Player.current_frame g + 1) mod Z.of_nat (List.length (Player.frames g));
          Player.model_label := Some image;
          Player.loading := Player.loading g;
          Player.printed := Player.printed g;
          Player.timers := S (Player.timers g) |}).
Proof.
  intro Hrange. unfold Player.animate_model, getitem.
  destruct (Player.frames g) as [|f fs] eqn:Hframes; [simpl in Hrange; lia|].
  destruct (Z.ltb_spec (Player.current_frame g) 0) as [Hneg|_]; [lia|].
  destruct (Z.leb_spec 0 (Player.current_frame g)) as [_|Hneg]; [|lia].
  destruct (Z.ltb_spec (Player.current_frame g) (Z.of_nat (List.length (f :: fs))))
    as [_|Hbig]; [|lia].
  simpl andb. cbv iota.
  destruct (nth_error (f :: fs) (Z.to_nat (Player.current_frame g))) as [image|] eqn:Hnth.
  - exists image. split; reflexivity.
  - apply nth_error_None in Hnth. lia.
Qed.

Lemma animate_closed_form (n : nat) (g : Player.Gui) :
  0 <= Player.current_frame g < Z.of_nat (List.length (Player.frames g)) ->
  exists g',
    Player.animate n g = (Returns tt, g') /\
    Player.frames g' = Player.frames g /\
    Player.current_frame g'
    = (Player.current_frame g + Z.of_nat n) mod Z.of_nat (List.length (Player.frames g)) /\
    Player.timers g' = (Player.timers g + n)%nat /\
    Player.model_label g'
    = match n with
      | O => Player.model_label g
      | S _ =>
          nth_error (Player.frames g)
            (Z.to_nat ((Player.current_frame g + Z.of_nat n - 1)
                       mod Z.of_nat (List.length (Player.frames g))))
      end.
Proof.
  revert g. induction n as [|n IH]; intros g Hrange.
  - exists g. simpl. rewrite Z.add_0_r, Z.mod_small by lia.
    rewrite Nat.add_0_r. repeat split.
  - destruct (animate_model_in_range g Hrange) as [image [Hnth Hstep]].
    simpl Player.animate. rewrite Hstep.
    set (len := Z.of_nat (List.length (Player.frames g))) in *.
    match goal with
    | |- context [Player.animate n ?g1] =>
        destruct (IH g1) as [g' [Hrun [Hfr [Hcf [Htm Hml]]]]]
    end.
    { simpl. fold len. apply Z.mod_pos_bound. lia. }
    simpl in Hfr, Hcf, Htm, Hml. fold len in Hcf, Hml.
    exists g'. split; [exact Hrun|]. split; [exact Hfr|].
    split; [|split].
    + rewrite Hcf, Zplus_mod_idemp_l. f_equal. lia.
    + rewrite Htm. lia.
    + rewrite Hml. destruct n as [|n].
      * rewrite <- Hnth. f_equal. f_equal.
        replace (Player.current_frame g + Z.of_nat 1 - 1) with (Player.current_frame g) by lia.
        rewrite Z.mod_small by lia. reflexivity.
      * f_equal. f_equal.
        replace ((Player.current_frame g + 1) mod len + Z.of_nat (S n) - 1)
          with ((Player.current_frame g + 1) mod len + (Z.of_nat (S n) - 1)) by lia.
        rewrite Zplus_mod_idemp_l. f_equal. lia.
Qed.

(** X6.  With the current frame inside a non-empty [frames],
    [animate_model] can be called any number of times: no call raises,
    every call sets its timer, the current frame after [n] calls is the
    first one plus [n] modulo the number of frames, and the label shows
    the frame before it.  After as many calls as there are frames the
    current frame is where it started. *)
Theorem animation_cycles_through_frames (n : nat) (g : Player.Gui) :
  0 <= Player.current_frame g < Z.of_nat (List.length (Player.frames g)) ->
  exists g' g'',
    Player.animate n g = (Returns tt, g') /\
    Player.frames g' = Player.frames g /\
    Player.current_frame g'
    = (Player.current_frame g + Z.of_nat n) mod Z.of_nat (List.length (Player.frames g)) /\
    0 <= Player.current_frame g' < Z.of_nat (List.length (Player.frames g)) /\
    Player.timers g' = (Player.timers g + n)%nat /\
    Player.model_label g'
    = match n with
      | O => Player.model_label g
      | S _ =>
          nth_error (Player.frames g)
            (Z.to_nat ((Player.current_frame g + Z.of_nat n - 1)
                       mod Z.of_nat (List.length (Player.frames g))))
      end /\
    Player.animate (List.length (Player.frames g)) g = (Returns tt, g'') /\
    Player.current_frame g'' = Player.current_frame g.
Proof.
  intro Hrange.
  destruct (animate_closed_form n g Hrange) as [g' [Hrun [Hfr [Hcf [Htm Hml]]]]].
  destruct (animate_closed_form (List.length (Player.frames g)) g Hrange)
    as [g'' [Hrun' [_ [Hcf' _]]]].
  exists g', g''. repeat split; try assumption.
  - rewrite Hcf. apply Z.mod_pos_bound. lia.
  - rewrite Hcf. apply Z.mod_pos_bound. lia.
  - rewrite Hcf'.
    rewrite <- (Z.mul_1_l (Z.of_nat (List.length (Player.frames g)))) at 1.
    rewrite Z.mod_add by lia. apply Z.mod_small. lia.
Qed.

Lemma animation_cycles_through_frames_witness :
  exists g',
    Player.animate 5 {| Player.frames := ["a"; "b"; "c"]%string; Player.current_frame := 0;
                        Player.model_label := None; Player.loading := [];
                        Player.printed := []; Player.timers := 0 |}
    = (Returns tt, g') /\
    Player.current_frame g' = 2 /\ Player.model_label g' = Some "b"%string.
Proof.
  destruct (animation_cycles_through_frames 5
              {| Player.frames := ["a"; "b"; "c"]%string; Player.current_frame := 0;
                 Player.model_label := None; Player.loading := [];
                 Player.printed := []; Player.timers := 0 |})
    as [g' [_ [Hrun [_ [Hcf [_ [_ [Hml _]]]]]]]].
  - simpl. lia.
  - exists g'. split; [exact Hrun|]. split; [exact Hcf|exact Hml].
Defined.

Lemma animate_without_frames (n : nat) (g : Player.Gui) :
  Player.frames g = [] ->
  exists g',
    Player.animate n g = (Returns tt, g') /\ Player.frames g' = [] /\
    Player.model_label g' = Player.model_label g /\
    Player.current_frame g' = Player.current_frame g /\
    Player.timers g' = (Player.timers g + n)%nat.
Proof.
  revert g. induction n as [|n IH]; intros g Hempty.
  - exists g. simpl. rewrite Nat.add_0_r. repeat split. exact Hempty.
  - simpl. unfold Player.animate_model. rewrite Hempty.
    match goal with
    | |- context [Player.animate n ?g1] =>
        destruct (IH g1 eq_refl) as [g' [Hrun [Hfr [Hml [Hcf Htm]]]]]
    end.
    exists g'. simpl in *. repeat split; try assumption. rewrite Htm. lia.
Qed.

(** X7.  When the cache directory has no file matching
    ['frame_*.png'], [load_frames] prints its two lines and loads
    nothing, and the animation that starts afterwards runs on without
    ever raising or giving the label an image: every call only sets its
    timer again. *)
Theorem no_frames_animation_idles
    (cache_dir : string) (listing : list string) (lib : Player.Pillow) (n : nat) :
  Forall (fun name => Player.matches_frame_png name = false) listing ->
  exists g1 g2,
    Player.load_frames cache_dir listing lib Player.init = (Returns tt, g1) /\
    Player.frames g1 = [] /\
    Player.printed g1
    = [Cat (Lit "No pre-rendered frames found in ") (Lit cache_dir);
       Lit "Run 'python3 prerender_model.py' to generate frames"] /\
    Player.loading g1 = [] /\
    Player.animate n g1 = (Returns tt, g2) /\
    Player.model_label g2 = None /\
    Player.current_frame g2 = 0 /\
    Player.timers g2 = n.
Proof.
  intro Hnone.
  assert (Hfiles : Player.frame_files listing = []).
  { unfold Player.frame_files.
    assert (Hf : filter Player.matches_frame_png listing = []).
    { induction Hnone as [|x l Hx _ IH]; [reflexivity|]. simpl. rewrite Hx. exact IH. }
    rewrite Hf. reflexivity. }
  unfold Player.load_frames. rewrite Hfiles.
  eexists. 
  match goal with
  | |- exists g2, (_, ?g1) = _ /\ _ =>
      destruct (animate_without_frames n g1 eq_refl) as [g2 [Hrun [_ [Hml [Hcf Htm]]]]]
  end.
  exists g2. split; [reflexivity|]. split; [reflexivity|]. split; [reflexivity|].
  split; [reflexivity|]. split; [exact Hrun|].
  split; [exact Hml|]. split; [exact Hcf|exact Htm].
Qed.

Lemma no_frames_animation_idles_witness :
  exists g1 g2,
    Player.load_frames "cache" ["code_lines.txt"%string] sound_library Player.init
    = (Returns tt, g1) /\
    Player.animate 3 g1 = (Returns tt, g2) /\ Player.model_label g2 = None.
Proof.
  destruct (no_frames_animation_idles "cache" ["code_lines.txt"%string] sound_library 3)
    as [g1 [g2 [Hload [_ [_ [_ [Hrun [Hml _]]]]]]]].
  - repeat constructor.
  - exists g1, g2. split; [exact Hload|]. split; [exact Hrun|exact Hml].
Defined.

(** X8.  Frames rendered by [prerender_model.py], loaded by
    [load_frames], none of [Image.open], [resize] and [PhotoImage]
    raising on any of them, and played by [animate_model]: after
    [n >= 1] calls the
    label shows the frame of index [(n - 1) mod 120], which [main]
    rendered at three degrees per index; no call raises, and after 120
    calls the turn starts again at zero degrees. *)
Theorem animation_turns_three_degrees_per_frame
    (cache_dir : string) (listing others : list string) (lib : Player.Pillow) (n : nat) :
  Forall (fun name => Player.matches_frame_png name = false) others ->
  Permutation listing (rendered_files ++ others) ->
  forallb (Player.loads lib) rendered_files = true ->
  (1 <= n)%nat ->
  let k := ((n - 1) mod 120)%nat in
  exists g1 g2,
    Player.load_frames cache_dir listing lib Player.init = (Returns tt, g1) /\
    Player.animate n g1 = (Returns tt, g2) /\
    Player.model_label g2 = Some (Prerender.frame_file k) /\
    In (Prerender.angle k, Prerender.frame_file k) (Prerender.main true) /\
    (Prerender.angle k == inject_Z (3 * Z.of_nat k))%Q.
Proof.
  intros Hothers Hp Hopen Hn k.
  assert (Hrf : rendered_files = map Prerender.frame_file (seq 0 120))
    by apply rendered_files_eq.
  assert (Hfiles : Player.frame_files listing = map Prerender.frame_file (seq 0 120)).
  { unfold Player.frame_files. rewrite <- Hrf.
    apply sort_rendered. eapply filter_rendered; eassumption. }
  destruct (load_frames_all_open cache_dir listing lib Player.init)
    as [g1 [Hload [Hfr Hcf]]].
  { rewrite Hfiles. discriminate. }
  { rewrite Hfiles, <- Hrf. exact Hopen. }
  simpl in Hfr, Hcf. rewrite Hfiles in Hfr.
  assert (Hlen : List.length (Player.frames g1) = 120%nat)
    by (rewrite Hfr, length_map, length_seq; reflexivity).
  destruct (animate_closed_form n g1) as [g2 [Hrun [_ [_ [_ Hml]]]]].
  { rewrite Hcf, Hlen. lia. }
  assert (Hk : (k < 120)%nat) by (apply Nat.mod_upper_bound; discriminate).
  exists g1, g2. split; [exact Hload|]. split; [exact Hrun|].
  split; [|split].
  - rewrite Hml. destruct n as [|n]; [lia|].
    rewrite Hcf, Hlen, Hfr.
    replace (Z.to_nat ((0 + Z.of_nat (S n) - 1) mod Z.of_nat 120)) with k.
    + rewrite nth_error_map, nth_error_nth' with (d := 0%nat)
        by (rewrite length_seq; exact Hk).
      rewrite seq_nth by exact Hk. reflexivity.
    + unfold k. replace (0 + Z.of_nat (S n) - 1) with (Z.of_nat (S n - 1)) by lia.
      rewrite <- Nat2Z.inj_mod, Nat2Z.id. reflexivity.
  - unfold Prerender.main. apply in_map_iff. exists k. split; [reflexivity|].
    apply in_seq. unfold Prerender.FRAME_COUNT. lia.
  - unfold Prerender.angle, Prerender.FRAME_COUNT.
    replace (Z.of_nat k * 360) with (3 * Z.of_nat k * 120) by lia.
    rewrite inject_Z_mult. change (Z.of_nat 120) with 120.
    field.
Qed.

Lemma animation_turns_three_degrees_per_frame_witness :
  exists g1 g2,
    Player.load_frames "cache" (rev rendered_files) sound_library Player.init
    = (Returns tt, g1) /\
    Player.animate 122 g1 = (Returns tt, g2) /\
    Player.model_label g2 = Some "frame_001.png"%string.
Proof.
  destruct (animation_turns_three_degrees_per_frame "cache" (rev rendered_files) []
              sound_library 122) as [g1 [g2 [Hload [Hrun [Hml _]]]]].
  - constructor.
  - rewrite app_nil_r. apply Permutation_sym, Permutation_rev.
  - reflexivity.
  - lia.
  - exists g1, g2. split; [exact Hload|]. split; [exact Hrun|exact Hml].
Defined.

(** ** [draw_network_graph] *)

Module Graph.

(** [canvas.create_line(x1, y1, x2, y2, fill=..., ...)] *)
Record line : Type := create_line { x1 : Q; y1 : Q; x2 : Q; y2 : Q; fill : string }.

Definition width : Q := 210.
Definition height : Q := 80.
Definition padding : Q := 5.
Definition graph_width : Q := width - 2 * padding.
Definition graph_height : Q := height - 2 * padding.

(** the colours of [__init__] *)
Definition primary : string := "#00d4ff".
Definition accent : string := "#ff6600".
Definition text_dim : string := "#4a6a7a".

(** [max(d)] of a deque: the first of its largest items; [ValueError]
    when it is empty. *)
Definition py_max (l : list Q) : outcome Q :=
  match l with
  | [] => Fails ValueError
  | x :: l' => Returns (fold_left (fun m y => if Qlt_bool m y then y else m) l' x)
  end.

(** [a / b] *)
Definition div (a b : Q) : outcome Q :=
  if Qeq_bool b 0 then Fails DivisionByZero else Returns (a / b)%Q.

(** Lines 679-681. *)
Definition grid : list line :=
  map (fun i : Z =>
         let y := (padding + graph_height * inject_Z i / 3)%Q in
         create_line padding y (width - padding)%Q y text_dim)
      [0; 1; 2; 3]%Z.

(** The loops of lines 688-692 and 701-705, from index [i] on. *)
Fixpoint points_from (i : nat) (len : nat) (max_val : Q) (vals : list Q)
    : outcome (list (Q * Q)) :=
  match vals with
  | [] => Returns []
  | val :: vals' =>
      match div (inject_Z (Z.of_nat i)) (inject_Z (Z.of_nat len)) with
      | Fails e => Fails e
      | Returns fx =>
          match div val max_val with
          | Fails e => Fails e
          | Returns fy =>
              match points_from (S i) len max_val vals' with
              | Fails e => Fails e
              | Returns points =>
                  Returns ((padding + fx * graph_width,
                            height - padding - fy * graph_height)%Q :: points)
              end
          end
      end
  end.

(** Lines 694-698 and 707-711: one line from each point to the next. *)
Fixpoint segments (points : list (Q * Q)) (colour : string) : list line :=
  match points with
  | p :: (q :: _) as points' =>
      create_line (fst p) (snd p) (fst q) (snd q) colour :: segments points' colour
  | _ => []
  end.

(** [draw_network_graph] (lines 666-711): what it returns or raises, and
    the lines on the canvas when it does. *)
Definition draw_network_graph (s : JarvisMonitor) : outcome unit * list line :=
  let up := Deque.items (net_up_history s) in
  let down := Deque.items (net_down_history s) in
  match py_max up with
  | Fails e => (Fails e, grid)
  | Returns m_up =>
      let max_up := if Qlt_bool 0 m_up then m_up else 1%Q in
      match py_max down with
      | Fails e => (Fails e, grid)
      | Returns m_down =>
          let max_down := if Qlt_bool 0 m_down then m_down else 1%Q in
          let max_val := if Qlt_bool max_up max_down then max_down else max_up in
          match points_from 0 (List.length down) max_val down with
          | Fails e => (Fails e, grid)
          | Returns points_down =>
              let lines_down := segments points_down primary in
              match points_from 0 (List.length up) max_val up with
              | Fails e => (Fails e, (grid ++ lines_down)%list)
              | Returns points_up =>
                  (Returns tt, (grid ++ lines_down ++ segments points_up accent)%list)
              end
          end
      end
  end.

End Graph.

From Stdlib Require Import Lqa.

Lemma fold_max_spec (l : list Q) (acc : Q) :
  let m := fold_left (fun m y => if Qlt_bool m y then y else m) l acc in
  (acc <= m)%Q /\ Forall (fun x => (x <= m)%Q) l /\ (m = acc \/ In m l).
Proof.
  revert acc. induction l as [|y l IH]; intro acc; simpl.
  - split; [apply Qle_refl|]. split; [constructor|left; reflexivity].
  - destruct (Qlt_bool acc y) eqn:Hlt.
    + destruct (IH y) as [Hy [Hall Hin]]. apply Qlt_bool_true in Hlt.
      split; [lra|]. split; [constructor; assumption|].
      right. destruct Hin as [->|Hin]; [left; reflexivity|right; exact Hin].
    + destruct (IH acc) as [Hacc [Hall Hin]]. apply Qlt_bool_false in Hlt.
      split; [exact Hacc|]. split; [constructor; [lra|assumption]|].
      destruct Hin as [->|Hin]; [left; reflexivity|right; right; exact Hin].
Qed.

Lemma py_max_spec (l : list Q) :
  l <> [] ->
  exists m, Graph.py_max l = Returns m /\ Forall (fun x => (x <= m)%Q) l /\ In m l.
Proof.
  destruct l as [|x l]; [congruence|]. intros _.
  eexists. split; [reflexivity|].
  destruct (fold_max_spec l x) as [Hx [Hall Hin]].
  split; [constructor; assumption|].
  destruct Hin as [->|Hin]; [left; reflexivity|right; exact Hin].
Qed.

(** Where a history item of index [i] and value [v] is drawn. *)
Definition place (len : nat) (max_val : Q) (iv : nat * Q) : Q * Q :=
  (Graph.padding + (inject_Z (Z.of_nat (fst iv)) / inject_Z (Z.of_nat len)) * Graph.graph_width,
   Graph.height - Graph.padding - (snd iv / max_val) * Graph.graph_height)%Q.

Lemma Qeq_bool_nonzero (x : Q) : ~ (x == 0)%Q -> Qeq_bool x 0 = false.
Proof.
  intro H. destruct (Qeq_bool x 0) eqn:E; [|reflexivity].
  apply Qeq_bool_iff in E. contradiction.
Qed.

Lemma points_from_spec (len : nat) (max_val : Q) (vals : list Q) (i : nat) :
  (0 < len)%nat -> (0 < max_val)%Q ->
  Graph.points_from i len max_val vals
  = Returns (map (place len max_val) (combine (seq i (List.length vals)) vals)).
Proof.
  intros Hlen Hmax. revert i. induction vals as [|v vals IH]; intro i; [reflexivity|].
  simpl. unfold Graph.div.
  assert (H1 : Qeq_bool (inject_Z (Z.of_nat len)) 0 = false).
  { apply Qeq_bool_nonzero. unfold Qeq; simpl. lia. }
  assert (H2 : Qeq_bool max_val 0 = false).
  { apply Qeq_bool_nonzero. lra. }
  rewrite H1, H2, IH. reflexivity.
Qed.

(** The scale [draw_network_graph] divides by. *)
Definition graph_scale (up down : list Q) (max_val : Q) : Prop :=
  (0 < max_val)%Q /\ Forall (fun v => (v <= max_val)%Q) (up ++ down).

Lemma draw_network_graph_spec (s : JarvisMonitor) :
  Deque.items (net_up_history s) <> [] -> Deque.items (net_down_history s) <> [] ->
  let up := Deque.items (net_up_history s) in
  let down := Deque.items (net_down_history s) in
  exists max_val,
    graph_scale up down max_val /\
    Graph.draw_network_graph s
    = (Returns tt,
       (Graph.grid
        ++ Graph.segments (map (place (List.length down) max_val)
                               (combine (seq 0 (List.length down)) down)) Graph.primary
        ++ Graph.segments (map (place (List.length up) max_val)
                               (combine (seq 0 (List.length up)) up)) Graph.accent)%list).
Proof.
  intros Hup Hdown. cbv zeta. unfold Graph.draw_network_graph.
  set (up := Deque.items (net_up_history s)) in *.
  set (down := Deque.items (net_down_history s)) in *.
  clearbody up down.
  destruct (py_max_spec up Hup) as [m_up [Hmu [Hall_up _]]].
  destruct (py_max_spec down Hdown) as [m_down [Hmd [Hall_down _]]].
  rewrite Hmu, Hmd.
  set (max_up := if Qlt_bool 0 m_up then m_up else 1%Q).
  set (max_down := if Qlt_bool 0 m_down then m_down else 1%Q).
  set (max_val := if Qlt_bool max_up max_down then max_down else max_up).
  assert (Hmu1 : (0 < max_up)%Q /\ (m_up <= max_up)%Q).
  { unfold max_up. destruct (Qlt_bool 0 m_up) eqn:E.
    - apply Qlt_bool_true in E. split; lra.
    - apply Qlt_bool_false in E. split; lra. }
  assert (Hmd1 : (0 < max_down)%Q /\ (m_down <= max_down)%Q).
  { unfold max_down. destruct (Qlt_bool 0 m_down) eqn:E.
    - apply Qlt_bool_true in E. split; lra.
    - apply Qlt_bool_false in E. split; lra. }
  assert (Hmv : (0 < max_val)%Q /\ (max_up <= max_val)%Q /\ (max_down <= max_val)%Q).
  { unfold max_val. destruct (Qlt_bool max_up max_down) eqn:E.
    - apply Qlt_bool_true in E. repeat split; lra.
    - apply Qlt_bool_false in E. repeat split; lra. }
  assert (Hlu : (0 < List.length up)%nat) by (destruct up; [congruence|simpl; lia]).
  assert (Hld : (0 < List.length down)%nat) by (destruct down; [congruence|simpl; lia]).
  rewrite (points_from_spec _ _ down 0 Hld (proj1 Hmv)).
  rewrite (points_from_spec _ _ up 0 Hlu (proj1 Hmv)).
  exists max_val. split; [|reflexivity].
  split; [apply Hmv|]. apply Forall_app. split.
  - eapply Forall_impl; [|exact Hall_up]. intros v Hv. simpl in Hv. lra.
  - eapply Forall_impl; [|exact Hall_down]. intros v Hv. simpl in Hv. lra.
Qed.

Lemma segments_length (points : list (Q * Q)) (colour : string) :
  List.length (Graph.segments points colour) = (List.length points - 1)%nat.
Proof.
  induction points as [|p [|q points] IH]; try reflexivity.
  change (S (List.length (Graph.segments (q :: points) colour))
          = (List.length (p :: q :: points) - 1)%nat).
  rewrite IH. simpl. lia.
Qed.

(** X9.  After any number of ticks, whatever the host answered,
    [draw_network_graph] raises nothing: the histories are never empty,
    so [max] has items to look at, and the scale it divides by is
    positive.  It draws 122 lines: four of the grid and 59 for each
    history. *)
Theorem network_graph_never_raises (net0 : snetio) (now0 : Z) (ws : list world) :
  let s := ticks ws (init net0 now0) in
  fst (Graph.draw_network_graph s) = Returns tt /\
  List.length (snd (Graph.draw_network_graph s)) = 122%nat.
Proof.
  intro s.
  destruct (histories_full_ticks ws (init net0 now0) (histories_full_init net0 now0))
    as [_ [_ [[Hu _] [Hd _]]]].
  fold s in Hu, Hd. unfold Deque.len in Hu, Hd.
  destruct (draw_network_graph_spec s) as [max_val [_ Hdraw]].
  - intro E. rewrite E in Hu. discriminate.
  - intro E. rewrite E in Hd. discriminate.
  - rewrite Hdraw. split; [reflexivity|]. cbn [snd].
    rewrite !length_app, !segments_length, !length_map, !length_combine, !length_seq.
    rewrite Hu, Hd. reflexivity.
Qed.

(** Inside the plot: within the padding on every side. *)
Definition point_in_plot (p : Q * Q) : Prop :=
  (Graph.padding <= fst p)%Q /\ (fst p <= Graph.width - Graph.padding)%Q /\
  (Graph.padding <= snd p)%Q /\ (snd p <= Graph.height - Graph.padding)%Q.

Definition line_in_plot (l : Graph.line) : Prop :=
  point_in_plot (Graph.x1 l, Graph.y1 l) /\ point_in_plot (Graph.x2 l, Graph.y2 l).

Lemma place_in_plot (len : nat) (max_val : Q) (i : nat) (v : Q) :
  (i < len)%nat -> (0 < max_val)%Q -> (0 <= v)%Q -> (v <= max_val)%Q ->
  point_in_plot (place len max_val (i, v)).
Proof.
  intros Hi Hmax Hv0 Hv1.
  assert (Hl : (0 < inject_Z (Z.of_nat len))%Q) by (unfold Qlt; simpl; lia).
  assert (Hx0 : (0 <= inject_Z (Z.of_nat i) / inject_Z (Z.of_nat len))%Q).
  { apply Qle_shift_div_l; [exact Hl|]. rewrite Qmult_0_l. unfold Qle; simpl. lia. }
  assert (Hx1 : (inject_Z (Z.of_nat i) / inject_Z (Z.of_nat len) <= 1)%Q).
  { apply Qle_shift_div_r; [exact Hl|]. rewrite Qmult_1_l. unfold Qle; simpl. lia. }
  assert (Hy0 : (0 <= v / max_val)%Q).
  { apply Qle_shift_div_l; [exact Hmax|]. lra. }
  assert (Hy1 : (v / max_val <= 1)%Q).
  { apply Qle_shift_div_r; [exact Hmax|]. lra. }
  unfold point_in_plot, place, Graph.graph_width, Graph.graph_height,
    Graph.width, Graph.height, Graph.padding. simpl fst. simpl snd.
  set (tx := (inject_Z (Z.of_nat i) / inject_Z (Z.of_nat len))%Q) in *.
  set (ty := (v / max_val)%Q) in *.
  repeat split; lra.
Qed.

Lemma segments_in_plot (points : list (Q * Q)) (colour : string) :
  Forall point_in_plot points -> Forall line_in_plot (Graph.segments points colour).
Proof.
  induction points as [|p [|q points] IH]; intro H; try constructor.
  - inversion H as [|? ? Hp H']; subst. inversion H' as [|? ? Hq _]; subst.
    split; [destruct p; exact Hp|destruct q; exact Hq].
  - apply IH. inversion H; assumption.
Qed.

Lemma placed_in_plot (max_val : Q) (vals : list Q) :
  (0 < max_val)%Q -> Forall (fun v => (0 <= v)%Q) vals ->
  Forall (fun v => (v <= max_val)%Q) vals ->
  Forall point_in_plot
    (map (place (List.length vals) max_val) (combine (seq 0 (List.length vals)) vals)).
Proof.
  intros Hmax H0 H1. apply Forall_map. apply Forall_forall. intros [i v] Hin.
  pose proof (in_combine_l _ _ _ _ Hin) as Hi. apply in_seq in Hi.
  pose proof (in_combine_r _ _ _ _ Hin) as Hv.
  rewrite Forall_forall in H0, H1.
  apply place_in_plot; [lia|exact Hmax|apply H0; exact Hv|apply H1; exact Hv].
Qed.

Lemma grid_in_plot : Forall line_in_plot Graph.grid.
Proof.
  repeat constructor; vm_compute; discriminate.
Qed.

(** X10.  While no item of the two rate histories is negative, every
    line [draw_network_graph] draws lies inside the plot, five pixels
    inside the 210 by 80 canvas on every side: the larger of the two
    maxima, or [1] when both are zero, is the scale, so no item is drawn
    above the top. *)
Theorem network_graph_stays_in_plot (s : JarvisMonitor) :
  Deque.items (net_up_history s) <> [] -> Deque.items (net_down_history s) <> [] ->
  Forall (fun v => (0 <= v)%Q) (Deque.items (net_up_history s)) ->
  Forall (fun v => (0 <= v)%Q) (Deque.items (net_down_history s)) ->
  fst (Graph.draw_network_graph s) = Returns tt /\
  Forall line_in_plot (snd (Graph.draw_network_graph s)).
Proof.
  intros Hup Hdown Hup0 Hdown0.
  destruct (draw_network_graph_spec s Hup Hdown) as [max_val [[Hmax Hall] Hdraw]].
  rewrite Hdraw. split; [reflexivity|]. cbn [snd].
  apply Forall_app in Hall. destruct Hall as [Hallu Halld].
  apply Forall_app. split; [apply grid_in_plot|].
  apply Forall_app. split; apply segments_in_plot, placed_in_plot; assumption.
Qed.

Lemma network_graph_stays_in_plot_witness :
  Forall line_in_plot
    (snd (Graph.draw_network_graph (after (update_stats sample_world) sample_monitor))).
Proof.
  refine (proj2 (network_graph_stays_in_plot
                   (after (update_stats sample_world) sample_monitor) _ _ _ _)).
  - vm_compute. discriminate.
  - vm_compute. discriminate.
  - vm_compute. repeat constructor; discriminate.
  - vm_compute. repeat constructor; discriminate.
Defined.

Lemma segments_cover (points : list (Q * Q)) (colour : string) (p : Q * Q) :
  In p points -> (2 <= List.length points)%nat ->
  Exists (fun l => (Graph.x1 l, Graph.y1 l) = p \/ (Graph.x2 l, Graph.y2 l) = p)
    (Graph.segments points colour).
Proof.
  induction points as [|a [|b points] IH]; intros Hin Hlen; simpl in Hlen; try lia.
  destruct Hin as [Ha|Hin].
  - left. left. subst a. destruct p; reflexivity.
  - destruct points as [|c points].
    + destruct Hin as [Hb|[]]. left. right. subst b. destruct p; reflexivity.
    + right. apply IH; [exact Hin|simpl; lia].
Qed.

Lemma in_enumerate (vals : list Q) (v : Q) (k : nat) :
  In v vals -> exists i, In (i, v) (combine (seq k (List.length vals)) vals).
Proof.
  revert k. induction vals as [|x vals IH]; intros k Hin; [destruct Hin|].
  destruct Hin as [->|Hin].
  - exists k. left. reflexivity.
  - destruct (IH (S k) Hin) as [i Hi]. exists i. right. exact Hi.
Qed.

(** X11.  A negative item in the upload history, as a counter reset
    leaves one, is drawn below the bottom edge of the plot: the graph has
    a line with an end point lower than [height - padding]. *)
Theorem negative_rate_is_drawn_below_the_plot (s : JarvisMonitor) (v : Q) :
  histories_full s ->
  In v (Deque.items (net_up_history s)) -> (v < 0)%Q ->
  fst (Graph.draw_network_graph s) = Returns tt /\
  Exists (fun l => (Graph.height - Graph.padding < Graph.y1 l)%Q \/
                   (Graph.height - Graph.padding < Graph.y2 l)%Q)
    (snd (Graph.draw_network_graph s)).
Proof.
  intros [_ [_ [[Hu _] [Hd _]]]] Hin Hneg. unfold Deque.len in Hu, Hd.
  destruct (draw_network_graph_spec s) as [max_val [[Hmax _] Hdraw]].
  { intro E. rewrite E in Hu. discriminate. }
  { intro E. rewrite E in Hd. discriminate. }
  rewrite Hdraw. split; [reflexivity|]. cbn [snd].
  apply Exists_app. right. apply Exists_app. right.
  destruct (in_enumerate _ v 0 Hin) as [i Hi].
  set (len := List.length (Deque.items (net_up_history s))) in *.
  pose proof (segments_cover
                (map (place len max_val) (combine (seq 0 len) (Deque.items (net_up_history s))))
                Graph.accent (place len max_val (i, v))) as Hcover.
  eapply Exists_impl; [|apply Hcover].
  - intros l Hl.
    assert (Hy : (Graph.height - Graph.padding < snd (place len max_val (i, v)))%Q).
    { unfold place, Graph.graph_height, Graph.height, Graph.padding. simpl snd.
      assert (Hq : (v / max_val < 0)%Q).
      { apply Qlt_shift_div_r; [exact Hmax|]. lra. }
      set (t := (v / max_val)%Q) in *. lra. }
    destruct Hl as [Hl|Hl]; [left|right]; rewrite <- Hl in Hy; exact Hy.
  - apply in_map. exact Hi.
  - subst len. rewrite length_map, length_combine, length_seq, !Hu. simpl. lia.
Qed.

Lemma negative_rate_is_drawn_below_the_plot_witness :
  Exists (fun l => (Graph.height - Graph.padding < Graph.y1 l)%Q \/
                   (Graph.height - Graph.padding < Graph.y2 l)%Q)
    (snd (Graph.draw_network_graph
            (after (update_stats world_after_reset) monitor_before_reset))).
Proof.
  refine (proj2 (negative_rate_is_drawn_below_the_plot
                   (after (update_stats world_after_reset) monitor_before_reset)
                   (inject_Z (-1000) / total_seconds 1000000)%Q _ _ _)).
  - apply histories_full_update_stats. apply histories_full_init.
  - vm_compute. do 59 right. left. reflexivity.
  - reflexivity.
Defined.

(** ** [scroll_code] *)

From Stdlib Require Import Qround.

Definition obind {A B} (o : outcome A) (k : A -> outcome B) : outcome B :=
  match o with Returns a => k a | Fails e => Fails e end.

(** A loop that draws one item per element of [l]: what it returns or
    raises, and the items drawn until then. *)
Fixpoint draw_each {A B} (f : A -> outcome B) (l : list A) : outcome unit * list B :=
  match l with
  | [] => (Returns tt, [])
  | x :: l' =>
      match f x with
      | Fails e => (Fails e, [])
      | Returns item => let (r, items) := draw_each f l' in (r, item :: items)
      end
  end.

Module Scroll.

(** [canvas.create_text(3, y, text=line, anchor='nw', font=..., fill=colour)] *)
Record text_item : Type := create_text { y : Q; line : string; fill : string }.

(** The attributes [scroll_code] works on; [after] keeps the delays of
    its calls of [root.after]. *)
Record Panels : Type := {
  code_lines : list string;
  code_scroll_offset_left : Q;
  code_scroll_offset_right : Q;
  left_code_canvas : list text_item;
  right_code_canvas : list text_item;
  after : list Z
}.

(** [range(n)] *)
Definition range (n : Z) : list Z := map Z.of_nat (seq 0 (Z.to_nat n)).

(** [int(x)]: towards zero. *)
Definition int (x : Q) : Z := if Qlt_bool x 0 then Qceiling x else Qfloor x.

(** [a % n] on integers. *)
Definition mod_int (a n : Z) : outcome Z :=
  if n =? 0 then Fails DivisionByZero else Returns (a mod n).

(** [x % n] for a float [x] and an integer [n]: of the sign of [n]. *)
Definition mod_float (x : Q) (n : Z) : outcome Q :=
  if n =? 0 then Fails DivisionByZero
  else Returns (x - inject_Z n * inject_Z (Qfloor (x / inject_Z n)))%Q.

Definition line_height : Z := 12.

(** Lines 428-433 and 449-454: dim at both ends of the panel. *)
Definition colour (i visible_lines : Z) : string :=
  if i <? 2 then "#1a3a4a"
  else if visible_lines - 3 <? i then "#1a3a4a"
  else "#00a0c0".

(** One turn of the loop of lines 422-436. *)
Definition left_item (p : Panels) (visible_lines i : Z) : outcome text_item :=
  let len := Z.of_nat (List.length (code_lines p)) in
  obind (mod_int (int (code_scroll_offset_left p + inject_Z i)) len) (fun line_idx =>
  obind (mod_float (code_scroll_offset_left p) 1) (fun fraction =>
  obind (getitem (code_lines p) line_idx) (fun full =>
  Returns (create_text (inject_Z (i * line_height) - fraction * inject_Z line_height)
                       (substring 0 25 full) (colour i visible_lines))))).

(** One turn of the loop of lines 444-457. *)
Definition right_item (p : Panels) (visible_lines i : Z) : outcome text_item :=
  let len := Z.of_nat (List.length (code_lines p)) in
  obind (mod_int (int (inject_Z len - code_scroll_offset_right p - inject_Z i)) len)
    (fun line_idx =>
  obind (getitem (code_lines p) line_idx) (fun full =>
  Returns (create_text (inject_Z (i * line_height))
                       (substring 0 25 full) (colour i visible_lines)))).

Definition with_canvases (left right : list text_item) (p : Panels) : Panels :=
  {| code_lines := code_lines p;
     code_scroll_offset_left := code_scroll_offset_left p;
     code_scroll_offset_right := code_scroll_offset_right p;
     left_code_canvas := left;
     right_code_canvas := right;
     after := after p |}.

(** [scroll_code] (lines 410-461); [canvas_height] is what
    [self.left_code_canvas.winfo_height()] answers. *)
Definition scroll_code (canvas_height : Z) (p : Panels) : outcome unit * Panels :=
  match code_lines p with
  | [] =>
      (Returns tt,
       {| code_lines := code_lines p;
          code_scroll_offset_left := code_scroll_offset_left p;
          code_scroll_offset_right := code_scroll_offset_right p;
          left_code_canvas := left_code_canvas p;
          right_code_canvas := right_code_canvas p;
          after := after p ++ [100] |})
  | _ =>
      let len := Z.of_nat (List.length (code_lines p)) in
      let visible_lines := canvas_height / line_height + 2 in
      match draw_each (left_item p visible_lines) (range visible_lines) with
      | (Fails e, left_items) => (Fails e, with_canvases left_items (right_code_canvas p) p)
      | (Returns _, left_items) =>
          match mod_float (code_scroll_offset_left p + (1 # 2)) len with
          | Fails e => (Fails e, with_canvases left_items (right_code_canvas p) p)
          | Returns offset_left =>
              let p1 :=
                {| code_lines := code_lines p;
                   code_scroll_offset_left := offset_left;
                   code_scroll_offset_right := code_scroll_offset_right p;
                   left_code_canvas := left_items;
                   right_code_canvas := right_code_canvas p;
                   after := after p |} in
              match draw_each (right_item p1 visible_lines) (range visible_lines) with
              | (Fails e, right_items) => (Fails e, with_canvases left_items right_items p1)
              | (Returns _, right_items) =>
                  match mod_float (code_scroll_offset_right p + (3 # 10)) len with
                  | Fails e => (Fails e, with_canvases left_items right_items p1)
                  | Returns offset_right =>
                      (Returns tt,
                       {| code_lines := code_lines p;
                          code_scroll_offset_left := offset_left;
                          code_scroll_offset_right := offset_right;
                          left_code_canvas := left_items;
                          right_code_canvas := right_items;
                          after := after p ++ [80] |})
                  end
              end
          end
      end
  end.

End Scroll.

Lemma getitem_in_range {A} (l : list A) (j : Z) :
  0 <= j < Z.of_nat (List.length l) ->
  exists a, getitem l j = Returns a /\ In a l.
Proof.
  intro Hj. unfold getitem.
  destruct (Z.ltb_spec j 0) as [Hneg|_]; [lia|].
  destruct (Z.leb_spec 0 j) as [_|Hneg]; [|lia].
  destruct (Z.ltb_spec j (Z.of_nat (List.length l))) as [_|Hbig]; [|lia].
  simpl. destruct (nth_error l (Z.to_nat j)) as [a|] eqn:Hnth.
  - exists a. split; [reflexivity|]. eapply nth_error_In. exact Hnth.
  - apply nth_error_None in Hnth. lia.
Qed.

Lemma mod_float_bounds (x : Q) (n : Z) :
  0 < n ->
  exists r, Scroll.mod_float x n = Returns r /\ (0 <= r)%Q /\ (r < inject_Z n)%Q.
Proof.
  intro Hn. unfold Scroll.mod_float.
  destruct (Z.eqb_spec n 0) as [E|_]; [lia|].
  eexists. split; [reflexivity|].
  assert (Hpos : (0 < inject_Z n)%Q) by (unfold Qlt; simpl; lia).
  pose proof (Qfloor_le (x / inject_Z n)) as Hlo.
  pose proof (Qlt_floor (x / inject_Z n)) as Hhi.
  rewrite inject_Z_plus in Hhi.
  assert (Hx : (x == (x / inject_Z n) * inject_Z n)%Q) by (field; lra).
  set (q := (x / inject_Z n)%Q) in *.
  set (f := inject_Z (Qfloor q)) in *.
  set (m := inject_Z n) in *.
  split.
  - assert (H : (0 <= m * (q - f))%Q) by (apply Qmult_le_0_compat; lra).
    lra.
  - assert (H : (m * (q - f) < m * 1)%Q).
    { apply Qmult_lt_l; [exact Hpos|]. change (inject_Z 1) with 1%Q in Hhi. lra. }
    lra.
Qed.

(** An item that shows the first 25 characters of one of the lines. *)
Definition shows_code_line (lines : list string) (item : Scroll.text_item) : Prop :=
  exists full, In full lines /\ Scroll.line item = substring 0 25 full.

Lemma left_item_returns (p : Scroll.Panels) (visible_lines i : Z) :
  Scroll.code_lines p <> [] ->
  exists item,
    Scroll.left_item p visible_lines i = Returns item /\
    shows_code_line (Scroll.code_lines p) item.
Proof.
  intro Hne. unfold Scroll.left_item, Scroll.mod_int.
  assert (Hlen : 0 < Z.of_nat (List.length (Scroll.code_lines p))).
  { destruct (Scroll.code_lines p); [congruence|simpl; lia]. }
  destruct (Z.eqb_spec (Z.of_nat (List.length (Scroll.code_lines p))) 0) as [E|_]; [lia|].
  cbn [obind].
  destruct (mod_float_bounds (Scroll.code_scroll_offset_left p) 1) as [fr [Hfr _]]; [lia|].
  rewrite Hfr. cbn [obind].
  match goal with
  | |- context [getitem _ ?j] =>
      destruct (getitem_in_range (Scroll.code_lines p) j) as [full [Hget Hin]]
  end.
  { apply Z.mod_pos_bound. exact Hlen. }
  rewrite Hget. cbn [obind]. eexists. split; [reflexivity|].
  exists full. split; [exact Hin|reflexivity].
Qed.

Lemma right_item_returns (p : Scroll.Panels) (visible_lines i : Z) :
  Scroll.code_lines p <> [] ->
  exists item,
    Scroll.right_item p visible_lines i = Returns item /\
    shows_code_line (Scroll.code_lines p) item.
Proof.
  intro Hne. unfold Scroll.right_item, Scroll.mod_int.
  assert (Hlen : 0 < Z.of_nat (List.length (Scroll.code_lines p))).
  { destruct (Scroll.code_lines p); [congruence|simpl; lia]. }
  destruct (Z.eqb_spec (Z.of_nat (List.length (Scroll.code_lines p))) 0) as [E|_]; [lia|].
  cbn [obind].
  match goal with
  | |- context [getitem _ ?j] =>
      destruct (getitem_in_range (Scroll.code_lines p) j) as [full [Hget Hin]]
  end.
  { apply Z.mod_pos_bound. exact Hlen. }
  rewrite Hget. cbn [obind]. eexists. split; [reflexivity|].
  exists full. split; [exact Hin|reflexivity].
Qed.

Lemma draw_each_returns {A B} (f : A -> outcome B) (P : B -> Prop) (l : list A) :
  (forall x, exists b, f x = Returns b /\ P b) ->
  exists items,
    draw_each f l = (Returns tt, items) /\ Forall P items /\
    List.length items = List.length l.
Proof.
  intro Hf. induction l as [|x l [items [Hrun [Hall Hlen]]]].
  - exists []. repeat split. constructor.
  - destruct (Hf x) as [b [Hb HP]]. simpl. rewrite Hb, Hrun.
    exists (b :: items). split; [reflexivity|]. split; [constructor; assumption|].
    simpl. rewrite Hlen. reflexivity.
Qed.

(** X12.  [scroll_code] never raises.  With no code lines it draws
    nothing and calls itself again after 100 ms.  With code lines it
    calls itself again after 80 ms, whatever height the canvas reports
    and wherever the two offsets are: it draws [canvas_height // 12 + 2]
    items on each panel, none when that is negative, every item the
    first 25 characters of one of the code lines, and it leaves both
    offsets from zero up to the number of lines. *)
Theorem scroll_code_never_raises (canvas_height : Z) (p : Scroll.Panels) :
  let p' := snd (Scroll.scroll_code canvas_height p) in
  let visible_lines := Z.to_nat (canvas_height / 12 + 2) in
  let len := inject_Z (Z.of_nat (List.length (Scroll.code_lines p))) in
  fst (Scroll.scroll_code canvas_height p) = Returns tt /\
  Scroll.code_lines p' = Scroll.code_lines p /\
  ((Scroll.code_lines p = [] /\
    Scroll.after p' = (Scroll.after p ++ [100])%list /\
    Scroll.left_code_canvas p' = Scroll.left_code_canvas p /\
    Scroll.right_code_canvas p' = Scroll.right_code_canvas p /\
    Scroll.code_scroll_offset_left p' = Scroll.code_scroll_offset_left p /\
    Scroll.code_scroll_offset_right p' = Scroll.code_scroll_offset_right p)
   \/
   (Scroll.code_lines p <> [] /\
    Scroll.after p' = (Scroll.after p ++ [80])%list /\
    List.length (Scroll.left_code_canvas p') = visible_lines /\
    List.length (Scroll.right_code_canvas p') = visible_lines /\
    Forall (shows_code_line (Scroll.code_lines p)) (Scroll.left_code_canvas p') /\
    Forall (shows_code_line (Scroll.code_lines p)) (Scroll.right_code_canvas p') /\
    (0 <= Scroll.code_scroll_offset_left p' < len)%Q /\
    (0 <= Scroll.code_scroll_offset_right p' < len)%Q)).
Proof.
  cbv zeta. unfold Scroll.scroll_code.
  destruct (Scroll.code_lines p) as [|l0 ls] eqn:Hlines.
  - simpl. split; [reflexivity|]. split; [first [reflexivity|exact Hlines]|].
    left. repeat split.
  - assert (Hne : Scroll.code_lines p <> []) by (rewrite Hlines; discriminate).
    assert (Hlen : 0 < Z.of_nat (List.length (l0 :: ls))) by (simpl; lia).
    destruct (draw_each_returns (Scroll.left_item p (canvas_height / Scroll.line_height + 2))
                (shows_code_line (Scroll.code_lines p))
                (Scroll.range (canvas_height / Scroll.line_height + 2)))
      as [left_items [Hleft [Hlall Hllen]]].
    { intro i. apply left_item_returns. exact Hne. }
    rewrite Hleft.
    destruct (mod_float_bounds (Scroll.code_scroll_offset_left p + (1 # 2))
                (Z.of_nat (List.length (l0 :: ls))) Hlen) as [ol [Hol Holb]].
    rewrite Hol.
    match goal with
    | |- context [draw_each (Scroll.right_item ?p1 _) _] =>
        destruct (draw_each_returns (Scroll.right_item p1 (canvas_height / Scroll.line_height + 2))
                    (shows_code_line (l0 :: ls))
                    (Scroll.range (canvas_height / Scroll.line_height + 2)))
          as [right_items [Hright [Hrall Hrlen]]];
          [intro i; apply (right_item_returns p1); simpl; discriminate|]
    end.
    rewrite Hright.
    destruct (mod_float_bounds (Scroll.code_scroll_offset_right p + (3 # 10))
                (Z.of_nat (List.length (l0 :: ls))) Hlen) as [or [Hor Horb]].
    rewrite Hor. simpl.
    split; [reflexivity|]. split; [first [reflexivity|exact Hlines]|]. right.
    rewrite Hlines in Hlall.
    unfold Scroll.range in Hllen, Hrlen. rewrite length_map, length_seq in Hllen, Hrlen.
    split; [discriminate|]. split; [reflexivity|].
    split; [exact Hllen|]. split; [exact Hrlen|].
    split; [exact Hlall|]. split; [exact Hrall|].
    split; [exact Holb|exact Horb].
Qed.

(** ** [load_code_lines] *)

Module CodeLines.

(** Text is a [string] of characters, one [ascii] per code point. *)
Definition LF : ascii := "010"%char.
Definition CR : ascii := "013".

(** [c.isspace()]: tab to carriage return, the four separators, the
    space, next line and the no-break space. *)
Definition isspace (c : ascii) : bool :=
  let n := N_of_ascii c in
  ((9 <=? n) && (n <=? 13) || (28 <=? n) && (n <=? 32) || (n =? 133) || (n =? 160))%N.

(** [not s.strip()]: nothing but white space. *)
Fixpoint blank (s : string) : bool :=
  match s with
  | EmptyString => true
  | String c s' => isspace c && blank s'
  end.

(** [s.rstrip()] *)
Fixpoint rstrip (s : string) : string :=
  match s with
  | EmptyString => EmptyString
  | String c s' => if blank s then EmptyString else String c (rstrip s')
  end.

(** What text mode makes of the characters of a file on reading: a
    carriage return, with or without a line feed after it, becomes one
    line feed. *)
Fixpoint universal_newlines (s : string) : string :=
  match s with
  | EmptyString => EmptyString
  | String c s' =>
      if Ascii.eqb c CR then
        match s' with
        | String c' _ => if Ascii.eqb c' LF then universal_newlines s'
                         else String LF (universal_newlines s')
        | EmptyString => String LF EmptyString
        end
      else String c (universal_newlines s')
  end.

(** [f.readlines()] on the text read: the lines, each with its line
    feed. *)
Fixpoint readlines (s : string) : list string :=
  match s with
  | EmptyString => []
  | String c s' =>
      if Ascii.eqb c LF then String LF EmptyString :: readlines s'
      else match readlines s' with
           | [] => [String c EmptyString]
           | l :: ls => String c l :: ls
           end
  end.

(** ['\n'.join(lines)] *)
Fixpoint join (lines : list string) : string :=
  match lines with
  | [] => EmptyString
  | [l] => l
  | l :: lines' => (l ++ String LF (join lines'))%string
  end.

(** The 19 lines of lines 194-214, 50 times over. *)
Definition jarvis_lines : list string :=
  List.concat (repeat
    ["def boot_jarvis_core():";
     "    arc_reactor.initialize()";
     "class MarkIII(IronManSuit):";
     "    def __init__(self):";
     "        self.weapons = WeaponSystem()";
     "async fn scan_threat_level() {";
     "    sensors.activate();";
     "    return analysis.run();";
     "}";
     "POWER_OUTPUT = 3_000_000_000";
     "const JARVIS_VERSION = '4.0.1';";
     "target.lock(coordinates);";
     "repulsor.charge(85);";
     "flight_systems.engage();";
     "hud.display(threat_data);";
     "armor.integrity = 98.7;";
     "reactor_temp = 347.2;";
     "altitude = 12847.5;";
     "velocity = mach_2.3;"]%string 50).

(** What the function finds on disk: the characters of the cache file
    when it exists and whether reading it succeeds, the characters of the
    files the globs find, in the order of the two loops ([None] for a
    file that cannot be read), and the error of opening the cache for
    writing, if any (the file is then as it was). *)
Record Disk : Type := {
  cache_file : option string;
  cache_reads : bool;
  sources : list (option string);
  write_error : option string
}.

Record Loaded : Type := {
  code_lines : list string;
  printed : list text;
  disk : Disk
}.

(** Lines 167-172: the list comprehension over the cache file. *)
Definition cached_lines (characters : string) : list string :=
  map rstrip (filter (fun l => negb (blank l)) (readlines (universal_newlines characters))).

(** Lines 184-191: what one source file adds to [all_lines]. *)
Definition source_lines (file : option string) : list string :=
  match file with
  | None => []
  | Some characters =>
      filter (fun l => (5 <? String.length l)%nat && (String.length l <? 60)%nat)
             (map rstrip (firstn 50 (readlines (universal_newlines characters))))
  end.

(** Lines 176-226, after the cache was not loaded; [shuffle] is what
    [random.shuffle] does to the list this time. *)
Definition generate (shuffle : list string -> list string) (d : Disk) : Loaded :=
  let all_lines := (flat_map source_lines (sources d) ++ jarvis_lines)%list in
  let lines := firstn 1000 (shuffle all_lines) in
  let generating := Lit "Generating code lines cache..." in
  match write_error d with
  | None =>
      {| code_lines := lines;
         printed := [generating;
                     Cat (Lit "Cached ")
                         (Cat (Int (Z.of_nat (List.length lines))) (Lit " code lines"))];
         disk := {| cache_file := Some (join lines); cache_reads := cache_reads d;
                    sources := sources d; write_error := write_error d |} |}
  | Some e =>
      {| code_lines := lines;
         printed := [generating; Cat (Lit "Could not cache code lines: ") (Lit e)];
         disk := d |}
  end.

(** [load_code_lines] (lines 162-226). *)
Definition load_code_lines (shuffle : list string -> list string) (d : Disk) : Loaded :=
  match cache_file d with
  | Some characters =>
      if cache_reads d then
        let lines := cached_lines characters in
        {| code_lines := lines;
           printed := [Cat (Lit "Loaded ")
                           (Cat (Int (Z.of_nat (List.length lines)))
                                (Lit " code lines from cache"))];
           disk := d |}
      else generate shuffle d
  | None => generate shuffle d
  end.

End CodeLines.

Section CodeLinesFacts.

Import CodeLines.
Local Open Scope string_scope.

(** No character [c] in [s]. *)
Fixpoint free_of (c : ascii) (s : string) : bool :=
  match s with
  | EmptyString => true
  | String c' s' => negb (Ascii.eqb c' c) && free_of c s'
  end.

Lemma blank_app (a b : string) : blank (a ++ b) = blank a && blank b.
Proof.
  induction a as [|c a IH]; simpl; [reflexivity|].
  rewrite IH, andb_assoc. reflexivity.
Qed.

Lemma free_of_app (c : ascii) (a b : string) :
  free_of c (a ++ b) = free_of c a && free_of c b.
Proof.
  induction a as [|c' a IH]; simpl; [reflexivity|].
  rewrite IH, andb_assoc. reflexivity.
Qed.

Lemma rstrip_cons (c : ascii) (s : string) :
  rstrip (String c s) = if blank (String c s) then "" else String c (rstrip s).
Proof. reflexivity. Qed.

Lemma rstrip_blank (s : string) : blank s = true -> rstrip s = "".
Proof. destruct s as [|c s]; [reflexivity|]. intro H. rewrite rstrip_cons, H. reflexivity. Qed.

Lemma rstrip_app_blank (l w : string) : blank w = true -> rstrip (l ++ w) = rstrip l.
Proof.
  intro Hw. induction l as [|c l IH].
  - simpl. apply rstrip_blank. exact Hw.
  - change (String c l ++ w) with (String c (l ++ w)).
    rewrite !rstrip_cons, IH.
    change (blank (String c (l ++ w))) with (isspace c && blank (l ++ w)).
    rewrite blank_app, Hw, andb_true_r. reflexivity.
Qed.

Lemma blank_rstrip (s : string) : blank s = false -> blank (rstrip s) = false.
Proof.
  induction s as [|c s IH]; [discriminate|]. intro H.
  rewrite rstrip_cons, H.
  change (isspace c && blank s = false) in H.
  change (isspace c && blank (rstrip s) = false).
  destruct (isspace c); [|reflexivity]. simpl in *. apply IH. exact H.
Qed.

Lemma rstrip_idempotent (s : string) : rstrip (rstrip s) = rstrip s.
Proof.
  induction s as [|c s IH]; [reflexivity|].
  pose proof (blank_rstrip (String c s)) as Hb'.
  rewrite rstrip_cons in *.
  destruct (blank (String c s)) eqn:Hb; [reflexivity|].
  specialize (Hb' eq_refl).
  rewrite rstrip_cons, Hb', IH. reflexivity.
Qed.

Lemma free_of_rstrip (c : ascii) (s : string) :
  free_of c s = true -> free_of c (rstrip s) = true.
Proof.
  induction s as [|c' s IH]; [reflexivity|]. intro H.
  rewrite rstrip_cons.
  destruct (blank (String c' s)); [reflexivity|].
  simpl in *. apply andb_true_iff in H. destruct H as [H1 H2].
  rewrite H1, (IH H2). reflexivity.
Qed.

Lemma readlines_line (l t : string) :
  free_of LF l = true ->
  readlines (l ++ String LF t) = (l ++ String LF "") :: readlines t.
Proof.
  induction l as [|c l IH]; intro H.
  - reflexivity.
  - simpl in H. apply andb_true_iff in H. destruct H as [Hc Hl].
    apply negb_true_iff in Hc. simpl. rewrite Hc, (IH Hl). reflexivity.
Qed.

Lemma readlines_last (l : string) :
  free_of LF l = true -> l <> "" -> readlines l = [l].
Proof.
  induction l as [|c l IH]; intros H Hne; [congruence|].
  simpl in H. apply andb_true_iff in H. destruct H as [Hc Hl].
  apply negb_true_iff in Hc. simpl. rewrite Hc.
  destruct l as [|c' l]; [reflexivity|].
  rewrite (IH Hl) by discriminate. reflexivity.
Qed.

Lemma universal_newlines_id (s : string) :
  free_of CR s = true -> universal_newlines s = s.
Proof.
  induction s as [|c s IH]; [reflexivity|]. intro H.
  simpl in H. apply andb_true_iff in H. destruct H as [Hc Hs].
  apply negb_true_iff in Hc. simpl. rewrite Hc, (IH Hs). reflexivity.
Qed.

Lemma universal_newlines_free (s : string) : free_of CR (universal_newlines s) = true.
Proof.
  induction s as [|c s IH]; [reflexivity|].
  simpl. destruct (Ascii.eqb c CR) eqn:Hc.
  - destruct s as [|c' s]; [reflexivity|].
    destruct (Ascii.eqb c' LF); [exact IH|].
    change (negb (Ascii.eqb LF CR) && free_of CR (universal_newlines (String c' s)) = true).
    rewrite IH. reflexivity.
  - simpl. rewrite Hc, IH. reflexivity.
Qed.

(** A line as [readlines] gives it: a line feed, if any, is its last
    character. *)
Definition line_shaped (x : string) : Prop :=
  exists body, free_of LF body = true /\ (x = body \/ x = body ++ String LF "").

Lemma readlines_shaped (t : string) : Forall line_shaped (readlines t).
Proof.
  induction t as [|c t IH]; [constructor|].
  simpl. destruct (Ascii.eqb c LF) eqn:Hc.
  - constructor; [|exact IH]. exists "". split; [reflexivity|right; reflexivity].
  - destruct (readlines t) as [|l ls].
    + constructor; [|constructor]. exists (String c ""). split; [|left; reflexivity].
      simpl. rewrite Hc. reflexivity.
    + inversion IH as [|? ? [body [Hb Hl]] Hls]; subst.
      constructor; [|exact Hls].
      exists (String c body). split; [simpl; rewrite Hc, Hb; reflexivity|].
      destruct Hl as [->| ->]; [left|right]; reflexivity.
Qed.

Lemma readlines_free (c : ascii) (t : string) :
  free_of c t = true -> Forall (fun x => free_of c x = true) (readlines t).
Proof.
  induction t as [|c' t IH]; [constructor|]. intro H.
  simpl in H. apply andb_true_iff in H. destruct H as [Hc Ht].
  specialize (IH Ht). simpl. destruct (Ascii.eqb c' LF) eqn:Hlf.
  - constructor; [|exact IH]. apply Ascii.eqb_eq in Hlf. subst c'.
    change (negb (Ascii.eqb LF c) && true = true). rewrite Hc. reflexivity.
  - destruct (readlines t) as [|l ls].
    + constructor; [|constructor]. simpl. rewrite Hc. reflexivity.
    + inversion IH; subst. constructor; [|assumption].
      simpl. rewrite Hc. assumption.
Qed.

(** A line that survives writing to the cache and reading back: no line
    break inside, something other than white space, none at its end. *)
Definition clean (l : string) : bool :=
  free_of LF l && free_of CR l && negb (blank l) && String.eqb (rstrip l) l.

Lemma clean_inv (l : string) :
  clean l = true ->
  free_of LF l = true /\ free_of CR l = true /\ blank l = false /\ rstrip l = l.
Proof.
  unfold clean. intro H.
  apply andb_true_iff in H. destruct H as [H H4].
  apply andb_true_iff in H. destruct H as [H H3].
  apply andb_true_iff in H. destruct H as [H1 H2].
  apply negb_true_iff in H3. apply String.eqb_eq in H4. repeat split; assumption.
Qed.

Lemma isspace_LF : isspace LF = true.
Proof. reflexivity. Qed.

Lemma cached_lines_join (ls : list string) :
  Forall (fun l => clean l = true) ls -> cached_lines (join ls) = ls.
Proof.
  intro Hclean. unfold cached_lines.
  assert (Hcr : free_of CR (join ls) = true).
  { induction Hclean as [|l ls Hl _ IH]; [reflexivity|].
    apply clean_inv in Hl. destruct Hl as [_ [Hl _]].
    destruct ls as [|l2 ls]; [exact Hl|].
    change (join (l :: l2 :: ls)) with (l ++ String LF (join (l2 :: ls))).
    rewrite free_of_app, Hl.
    change (true && (negb (Ascii.eqb LF CR) && free_of CR (join (l2 :: ls))) = true).
    rewrite IH. reflexivity. }
  rewrite (universal_newlines_id _ Hcr). clear Hcr.
  induction Hclean as [|l ls Hl Hls IH]; [reflexivity|].
  apply clean_inv in Hl. destruct Hl as [Hlf [_ [Hnb Hrs]]].
  destruct ls as [|l2 ls].
  - simpl join. rewrite readlines_last; [|exact Hlf|intro E; subst; discriminate].
    simpl. rewrite Hnb. simpl. rewrite Hrs. reflexivity.
  - change (join (l :: l2 :: ls)) with (l ++ String LF (join (l2 :: ls))).
    rewrite (readlines_line _ _ Hlf).
    simpl filter. rewrite blank_app, Hnb. simpl negb. cbv iota.
    simpl map. rewrite rstrip_app_blank by reflexivity. rewrite Hrs.
    f_equal. exact IH.
Qed.

End CodeLinesFacts.

Lemma jarvis_lines_length : List.length CodeLines.jarvis_lines = 950%nat.
Proof. reflexivity. Qed.

Lemma jarvis_lines_clean :
  forallb (fun l => clean l && (String.length l <? 60)%nat) CodeLines.jarvis_lines = true.
Proof. vm_compute. reflexivity. Qed.

Lemma firstn_In {A : Type} (n : nat) (l : list A) (x : A) : In x (firstn n l) -> In x l.
Proof. intro H. rewrite <- (firstn_skipn n l). apply in_or_app. left. exact H. Qed.

Lemma source_lines_clean (file : option string) :
  Forall (fun l => clean l = true /\ (5 < String.length l < 60)%nat)
         (CodeLines.source_lines file).
Proof.
  destruct file as [characters|]; [|constructor].
  unfold CodeLines.source_lines. apply Forall_forall. intros l Hl.
  apply filter_In in Hl. destruct Hl as [Hl Hlen].
  apply andb_true_iff in Hlen. destruct Hlen as [H5 H60].
  apply Nat.ltb_lt in H5. apply Nat.ltb_lt in H60.
  split; [|lia].
  apply in_map_iff in Hl. destruct Hl as [x [<- Hx]].
  apply firstn_In in Hx.
  pose proof (readlines_shaped (CodeLines.universal_newlines characters)) as Hshape.
  pose proof (readlines_free CodeLines.CR _ (universal_newlines_free characters)) as Hcr.
  rewrite Forall_forall in Hshape, Hcr.
  specialize (Hshape x Hx). specialize (Hcr x Hx). cbv beta in Hcr.
  destruct Hshape as [body [Hbody Hxb]].
  assert (Hstrip : CodeLines.rstrip x = CodeLines.rstrip body).
  { destruct Hxb as [->| ->]; [reflexivity|]. apply rstrip_app_blank. reflexivity. }
  assert (Hnb : CodeLines.blank x = false).
  { destruct (CodeLines.blank x) eqn:Hb; [|reflexivity].
    rewrite (rstrip_blank _ Hb) in H5. simpl in H5. lia. }
  unfold clean.
  rewrite (free_of_rstrip _ _ Hcr), (blank_rstrip _ Hnb), rstrip_idempotent, String.eqb_refl.
  rewrite Hstrip, (free_of_rstrip _ _ Hbody). reflexivity.
Qed.

(** What [generate] keeps, whatever the shuffle: lines that come back
    unchanged from the cache, each shorter than 60 characters. *)
Lemma generate_clean (shuffle : list string -> list string) (d : CodeLines.Disk) :
  (forall l, Permutation l (shuffle l)) ->
  Forall (fun l => clean l = true /\ (String.length l < 60)%nat)
         (CodeLines.code_lines (CodeLines.generate shuffle d)).
Proof.
  intro Hperm.
  assert (Hall : Forall (fun l => clean l = true /\ (String.length l < 60)%nat)
                   (flat_map CodeLines.source_lines (CodeLines.sources d)
                    ++ CodeLines.jarvis_lines)).
  { apply Forall_app. split.
    - apply Forall_forall. intros l Hl. apply in_flat_map in Hl.
      destruct Hl as [file [_ Hl]].
      pose proof (source_lines_clean file) as Hs. rewrite Forall_forall in Hs.
      destruct (Hs l Hl) as [Hc Hlen]. split; [exact Hc|lia].
    - apply Forall_forall. intros l Hl.
      pose proof jarvis_lines_clean as Hj. rewrite forallb_forall in Hj.
      specialize (Hj l Hl). apply andb_true_iff in Hj. destruct Hj as [Hc Hlen].
      apply Nat.ltb_lt in Hlen. split; assumption. }
  assert (Hkept : Forall (fun l => clean l = true /\ (String.length l < 60)%nat)
                    (firstn 1000 (shuffle (flat_map CodeLines.source_lines (CodeLines.sources d)
                                           ++ CodeLines.jarvis_lines)))).
  { apply Forall_forall. intros l Hl. apply firstn_In in Hl.
    rewrite Forall_forall in Hall. apply Hall.
    eapply Permutation_in; [apply Permutation_sym; apply Hperm|exact Hl]. }
  unfold CodeLines.generate. cbv zeta.
  destruct (CodeLines.write_error d); exact Hkept.
Qed.

Lemma generate_length (shuffle : list string -> list string) (d : CodeLines.Disk) :
  (forall l, Permutation l (shuffle l)) ->
  List.length (CodeLines.code_lines (CodeLines.generate shuffle d))
  = Nat.min 1000 (List.length (flat_map CodeLines.source_lines (CodeLines.sources d)) + 950).
Proof.
  intro Hperm.
  assert (E : List.length (firstn 1000 (shuffle (flat_map CodeLines.source_lines
                                                   (CodeLines.sources d)
                                                 ++ CodeLines.jarvis_lines)))
              = Nat.min 1000 (List.length (flat_map CodeLines.source_lines (CodeLines.sources d))
                              + 950)).
  { rewrite length_firstn, <- (Permutation_length (Hperm _)), length_app, jarvis_lines_length.
    reflexivity. }
  unfold CodeLines.generate. cbv zeta.
  destruct (CodeLines.write_error d); exact E.
Qed.

Lemma load_generates (shuffle : list string -> list string) (d : CodeLines.Disk) :
  CodeLines.cache_file d = None \/ CodeLines.cache_reads d = false ->
  CodeLines.load_code_lines shuffle d = CodeLines.generate shuffle d.
Proof.
  unfold CodeLines.load_code_lines. intros [H|H]; rewrite H; [reflexivity|].
  destruct (CodeLines.cache_file d); reflexivity.
Qed.

Lemma blank_universal_newlines (s : string) :
  CodeLines.blank s = true -> CodeLines.blank (CodeLines.universal_newlines s) = true.
Proof.
  induction s as [|c s IH]; [reflexivity|]. intro H.
  change (CodeLines.isspace c && CodeLines.blank s = true) in H.
  apply andb_true_iff in H. destruct H as [Hc Hs]. specialize (IH Hs).
  simpl. destruct (Ascii.eqb c CodeLines.CR).
  - destruct s as [|c' s]; [reflexivity|].
    destruct (Ascii.eqb c' CodeLines.LF); [exact IH|].
    change (CodeLines.isspace CodeLines.LF
            && CodeLines.blank (CodeLines.universal_newlines (String c' s)) = true).
    rewrite IH. reflexivity.
  - change (CodeLines.isspace c && CodeLines.blank (CodeLines.universal_newlines s) = true).
    rewrite Hc, IH. reflexivity.
Qed.

Lemma blank_readlines (t : string) :
  CodeLines.blank t = true ->
  Forall (fun l => CodeLines.blank l = true) (CodeLines.readlines t).
Proof.
  induction t as [|c t IH]; [constructor|]. intro H.
  change (CodeLines.isspace c && CodeLines.blank t = true) in H.
  apply andb_true_iff in H. destruct H as [Hc Ht]. specialize (IH Ht).
  simpl. destruct (Ascii.eqb c CodeLines.LF).
  - constructor; [reflexivity|exact IH].
  - destruct (CodeLines.readlines t) as [|l ls].
    + constructor; [|constructor].
      change (CodeLines.isspace c && true = true). rewrite Hc. reflexivity.
    + inversion IH; subst. constructor; [|assumption].
      change (CodeLines.isspace c && CodeLines.blank l = true).
      rewrite Hc. assumption.
Qed.

Lemma cached_lines_blank (characters : string) :
  CodeLines.blank characters = true -> CodeLines.cached_lines characters = [].
Proof.
  intro H. unfold CodeLines.cached_lines.
  pose proof (blank_readlines _ (blank_universal_newlines _ H)) as Hall.
  induction Hall as [|l ls Hl _ IH]; [reflexivity|].
  simpl. rewrite Hl. exact IH.
Qed.

(** X13 ([load_code_lines], generation): when the cache file is missing
    or cannot be read, the lines are generated, and however
    [random.shuffle] orders them the monitor ends with between 950 and
    1000 lines: all the lines found in the source files and the 950
    built-in ones, cut at 1000.  Each line has between 1 and 59
    characters, no line break, and no white space at its end. *)
Theorem generated_code_lines_fill_the_panels
  (shuffle : list string -> list string) (d : CodeLines.Disk) :
  (forall l, Permutation l (shuffle l)) ->
  CodeLines.cache_file d = None \/ CodeLines.cache_reads d = false ->
  let r := CodeLines.load_code_lines shuffle d in
  let found := List.length (flat_map CodeLines.source_lines (CodeLines.sources d)) in
  List.length (CodeLines.code_lines r) = Nat.min 1000 (found + 950) /\
  (950 <= List.length (CodeLines.code_lines r) <= 1000)%nat /\
  Forall (fun l => (1 <= String.length l < 60)%nat /\
                   free_of CodeLines.LF l = true /\
                   CodeLines.rstrip l = l)
         (CodeLines.code_lines r).
Proof.
  intros Hperm Hcache. cbv zeta. rewrite (load_generates _ _ Hcache).
  pose proof (generate_length shuffle d Hperm) as Hlen.
  split; [exact Hlen|]. split; [lia|].
  pose proof (generate_clean shuffle d Hperm) as Hclean.
  eapply Forall_impl; [|exact Hclean].
  intros l [Hc H60]. apply clean_inv in Hc. destruct Hc as [Hlf [_ [Hnb Hrs]]].
  split; [|split; assumption].
  split; [|exact H60]. destruct l; [discriminate Hnb|simpl; lia].
Qed.

(** X14 ([load_code_lines], cache round trip): the lines generated at
    one start and written to the cache are exactly the lines the next
    start loads from it, in the same order, without scanning the sources
    or shuffling again. *)
Theorem code_lines_cache_round_trip
  (shuffle shuffle' : list string -> list string) (d : CodeLines.Disk)
  (sources' : list (option string)) (write_error' : option string) :
  (forall l, Permutation l (shuffle l)) ->
  CodeLines.cache_file d = None \/ CodeLines.cache_reads d = false ->
  CodeLines.write_error d = None ->
  let first := CodeLines.load_code_lines shuffle d in
  let d' := {| CodeLines.cache_file := CodeLines.cache_file (CodeLines.disk first);
               CodeLines.cache_reads := true;
               CodeLines.sources := sources';
               CodeLines.write_error := write_error' |} in
  let again := CodeLines.load_code_lines shuffle' d' in
  CodeLines.code_lines again = CodeLines.code_lines first /\
  CodeLines.disk again = d' /\
  CodeLines.printed again
  = [Cat (Lit "Loaded ")
         (Cat (Int (Z.of_nat (List.length (CodeLines.code_lines first))))
              (Lit " code lines from cache"))].
Proof.
  intros Hperm Hcache Hwrite. cbv zeta. rewrite (load_generates _ _ Hcache).
  pose proof (generate_clean shuffle d Hperm) as Hclean.
  assert (Hc : Forall (fun l => clean l = true)
                 (CodeLines.code_lines (CodeLines.generate shuffle d))).
  { eapply Forall_impl; [|exact Hclean]. intros l [H _]. exact H. }
  apply cached_lines_join in Hc. clear Hclean.
  unfold CodeLines.generate in *. cbv zeta in *. rewrite Hwrite in *.
  unfold CodeLines.load_code_lines. cbn [CodeLines.cache_file CodeLines.disk
    CodeLines.cache_reads CodeLines.code_lines CodeLines.printed] in *.
  rewrite Hc. repeat split.
Qed.

(** X15 ([load_code_lines] and [scroll_code], empty cache): a cache file
    that exists and holds nothing but white space is taken as it is:
    no line is loaded and nothing is generated or written, and
    [scroll_code] then draws nothing and only asks to be called again
    after 100 ms. *)
Theorem blank_cache_leaves_panels_empty
  (shuffle : list string -> list string) (d : CodeLines.Disk) (characters : string)
  (canvas_height : Z) (p : Scroll.Panels) :
  CodeLines.cache_file d = Some characters ->
  CodeLines.cache_reads d = true ->
  CodeLines.blank characters = true ->
  let r := CodeLines.load_code_lines shuffle d in
  Scroll.code_lines p = CodeLines.code_lines r ->
  CodeLines.code_lines r = [] /\
  CodeLines.disk r = d /\
  CodeLines.printed r = [Cat (Lit "Loaded ") (Cat (Int 0) (Lit " code lines from cache"))] /\
  fst (Scroll.scroll_code canvas_height p) = Returns tt /\
  Scroll.left_code_canvas (snd (Scroll.scroll_code canvas_height p))
  = Scroll.left_code_canvas p /\
  Scroll.right_code_canvas (snd (Scroll.scroll_code canvas_height p))
  = Scroll.right_code_canvas p /\
  Scroll.after (snd (Scroll.scroll_code canvas_height p)) = (Scroll.after p ++ [100])%list.
Proof.
  intros Hfile Hreads Hblank. cbv zeta.
  unfold CodeLines.load_code_lines. rewrite Hfile, Hreads.
  cbn [CodeLines.code_lines CodeLines.disk CodeLines.printed].
  rewrite (cached_lines_blank _ Hblank). intro Hp.
  unfold Scroll.scroll_code. rewrite Hp. simpl. repeat split.
Qed.

(** A project directory with one readable source file of three lines
    (the second too short to keep, the first ended by a carriage return
    and a line feed) and one unreadable file; no cache yet. *)
Definition sample_disk : CodeLines.Disk :=
  {| CodeLines.cache_file := None;
     CodeLines.cache_reads := false;
     CodeLines.sources :=
       [Some ("import psutil" ++ String CodeLines.CR (String CodeLines.LF
              ("x = 1" ++ String CodeLines.LF "root = tk.Tk()   ")))%string;
        None];
     CodeLines.write_error := None |}.

Lemma generated_code_lines_fill_the_panels_witness :
  (forall l : list string, Permutation l (rev l)) /\
  (CodeLines.cache_file sample_disk = None \/ CodeLines.cache_reads sample_disk = false) /\
  let r := CodeLines.load_code_lines (@rev string) sample_disk in
  let found := List.length (flat_map CodeLines.source_lines (CodeLines.sources sample_disk)) in
  List.length (CodeLines.code_lines r) = Nat.min 1000 (found + 950) /\
  (950 <= List.length (CodeLines.code_lines r) <= 1000)%nat /\
  Forall (fun l => (1 <= String.length l < 60)%nat /\
                   free_of CodeLines.LF l = true /\
                   CodeLines.rstrip l = l)
         (CodeLines.code_lines r).
Proof.
  split; [intro l; apply Permutation_rev|].
  split; [left; reflexivity|].
  apply (generated_code_lines_fill_the_panels (@rev string) sample_disk);
    [intro l; apply Permutation_rev|left; reflexivity].
Defined.

Lemma code_lines_cache_round_trip_witness :
  (forall l : list string, Permutation l (rev l)) /\
  (CodeLines.cache_file sample_disk = None \/ CodeLines.cache_reads sample_disk = false) /\
  CodeLines.write_error sample_disk = None /\
  let first := CodeLines.load_code_lines (@rev string) sample_disk in
  let d' := {| CodeLines.cache_file := CodeLines.cache_file (CodeLines.disk first);
               CodeLines.cache_reads := true;
               CodeLines.sources := [];
               CodeLines.write_error := Some "read-only file system"%string |} in
  let again := CodeLines.load_code_lines (fun l => l) d' in
  CodeLines.code_lines again = CodeLines.code_lines first /\
  CodeLines.disk again = d' /\
  CodeLines.printed again
  = [Cat (Lit "Loaded ")
         (Cat (Int (Z.of_nat (List.length (CodeLines.code_lines first))))
              (Lit " code lines from cache"))].
Proof.
  split; [intro l; apply Permutation_rev|].
  split; [left; reflexivity|].
  split; [reflexivity|].
  apply (code_lines_cache_round_trip (@rev string) (fun l => l) sample_disk []
           (Some "read-only file system"%string));
    [intro l; apply Permutation_rev|left; reflexivity|reflexivity].
Defined.

(** A cache file of two lines of white space, and panels still empty. *)
Definition blank_cache_disk : CodeLines.Disk :=
  {| CodeLines.cache_file :=
       Some ("  " ++ String CodeLines.CR (String CodeLines.LF (String CodeLines.LF "")))%string;
     CodeLines.cache_reads := true;
     CodeLines.sources := [Some "import psutil"%string];
     CodeLines.write_error := None |}.

Definition empty_panels : Scroll.Panels :=
  {| Scroll.code_lines := [];
     Scroll.code_scroll_offset_left := 0;
     Scroll.code_scroll_offset_right := 0;
     Scroll.left_code_canvas := [];
     Scroll.right_code_canvas := [];
     Scroll.after := [] |}.

Lemma blank_cache_leaves_panels_empty_witness :
  let r := CodeLines.load_code_lines (@rev string) blank_cache_disk in
  CodeLines.code_lines r = [] /\
  CodeLines.disk r = blank_cache_disk /\
  CodeLines.printed r = [Cat (Lit "Loaded ") (Cat (Int 0) (Lit " code lines from cache"))] /\
  fst (Scroll.scroll_code 600 empty_panels) = Returns tt /\
  Scroll.left_code_canvas (snd (Scroll.scroll_code 600 empty_panels))
  = Scroll.left_code_canvas empty_panels /\
  Scroll.right_code_canvas (snd (Scroll.scroll_code 600 empty_panels))
  = Scroll.right_code_canvas empty_panels /\
  Scroll.after (snd (Scroll.scroll_code 600 empty_panels))
  = (Scroll.after empty_panels ++ [100])%list.
Proof.
  apply (blank_cache_leaves_panels_empty (@rev string) blank_cache_disk
           ("  " ++ String CodeLines.CR (String CodeLines.LF (String CodeLines.LF "")))%string
           600 empty_panels); reflexivity.
Defined.

(** ** [initialize_app] *)

Module Startup.

(** What left a call: an error of the list and image operations, or an
    exception out of [update_stats]. *)
Inductive raised : Type :=
| Failure (e : failure)
| Exn (e : exn).

(** The application: the frames and the loading screen, the code lines
    with the disk they come from, the two code panels, the statistics,
    and [model_loading].  Each part keeps the lines it printed. *)
Record App : Type := {
  gui : Player.Gui;
  loaded : CodeLines.Loaded;
  panels : Scroll.Panels;
  monitor : JarvisMonitor;
  model_loading : bool
}.

(** [update_loading_progress] (lines 103-111) with a status that is not
    empty: the call is kept with its arguments. *)
Definition update_loading_progress (progress : Q) (status : text) (g : Player.Gui)
    : Player.Gui :=
  {| Player.frames := Player.frames g;
     Player.current_frame := Player.current_frame g;
     Player.model_label := Player.model_label g;
     Player.loading := Player.loading g ++ [(progress, status)];
     Player.printed := Player.printed g;
     Player.timers := Player.timers g |}.

(** [__init__] (lines 36-63); the labels of [monitor] have the texts
    [setup_ui] gives them when [initialize_app] calls it, and no method
    reads them before. *)
Definition init (net0 : snetio) (now0 : Z) (d : CodeLines.Disk) : App :=
  {| gui := Player.init;
     loaded := {| CodeLines.code_lines := []; CodeLines.printed := []; CodeLines.disk := d |};
     panels := {| Scroll.code_lines := [];
                  Scroll.code_scroll_offset_left := 0;
                  Scroll.code_scroll_offset_right := 0;
                  Scroll.left_code_canvas := [];
                  Scroll.right_code_canvas := [];
                  Scroll.after := [] |};
     monitor := init net0 now0;
     model_loading := true |}.

(** [initialize_app] (lines 113-133).  [w] is what the host answers to
    the first [update_stats], [canvas_height] what the code canvases
    answer to the first [scroll_code].  The calls that only build or
    refresh widgets ([root.update], [loading_frame.destroy], [setup_ui])
    return and leave the attributes modelled here alone. *)
Definition initialize_app (cache_dir : string) (listing : list string)
    (lib : Player.Pillow) (shuffle : list string -> list string)
    (w : world) (canvas_height : Z) (a : App) : option raised * App :=
  let g0 := update_loading_progress (1 # 10) (Lit "Loading pre-rendered frames...") (gui a) in
  match Player.load_frames cache_dir listing lib g0 with
  | (Fails e, g1) =>
      (Some (Failure e),
       {| gui := g1; loaded := loaded a; panels := panels a; monitor := monitor a;
          model_loading := model_loading a |})
  | (Returns _, g1) =>
      let g2 := update_loading_progress (6 # 10) (Lit "Scanning code files...") g1 in
      let r := CodeLines.load_code_lines shuffle (CodeLines.disk (loaded a)) in
      let r' := {| CodeLines.code_lines := CodeLines.code_lines r;
                   CodeLines.printed := CodeLines.printed (loaded a) ++ CodeLines.printed r;
                   CodeLines.disk := CodeLines.disk r |} in
      let g3 := update_loading_progress (8 # 10) (Lit "Setting up interface...") g2 in
      let p := {| Scroll.code_lines := CodeLines.code_lines r;
                  Scroll.code_scroll_offset_left := Scroll.code_scroll_offset_left (panels a);
                  Scroll.code_scroll_offset_right := Scroll.code_scroll_offset_right (panels a);
                  Scroll.left_code_canvas := Scroll.left_code_canvas (panels a);
                  Scroll.right_code_canvas := Scroll.right_code_canvas (panels a);
                  Scroll.after := Scroll.after (panels a) |} in
      match update_stats w (monitor a) with
      | (Raise e, s) =>
          (Some (Exn e),
           {| gui := g3; loaded := r'; panels := p; monitor := s; model_loading := false |})
      | (Ok _, s) =>
          match Player.animate_model g3 with
          | (Fails e, g4) =>
              (Some (Failure e),
               {| gui := g4; loaded := r'; panels := p; monitor := s;
                  model_loading := false |})
          | (Returns _, g4) =>
              match Scroll.scroll_code canvas_height p with
              | (Fails e, p') =>
                  (Some (Failure e),
                   {| gui := g4; loaded := r'; panels := p'; monitor := s;
                      model_loading := false |})
              | (Returns _, p') =>
                  (None,
                   {| gui := g4; loaded := r'; panels := p'; monitor := s;
                      model_loading := false |})
              end
          end
      end
  end.

End Startup.

Lemma load_loop_keeps (lib : Player.Pillow) (total : nat) (files : list string)
    (i : nat) (g : Player.Gui) :
  Player.timers (snd (Player.load_loop lib total i files g)) = Player.timers g /\
  Player.current_frame (snd (Player.load_loop lib total i files g))
  = Player.current_frame g.
Proof.
  revert i g. induction files as [|f files IH]; intros i g; [split; reflexivity|].
  simpl. destruct (Player.photo lib f) as [image|e]; [|split; reflexivity].
  destruct (Z.of_nat i mod 10 =? 0)%Z;
    match goal with
    | |- context [Player.load_loop lib total (S i) files ?g2] =>
        destruct (IH (S i) g2) as [Ht Hc]
    end; rewrite Ht, Hc; split; reflexivity.
Qed.

Lemma load_frames_keeps (cache_dir : string) (listing : list string)
    (lib : Player.Pillow) (g : Player.Gui) :
  Player.timers (snd (Player.load_frames cache_dir listing lib g)) = Player.timers g /\
  Player.current_frame (snd (Player.load_frames cache_dir listing lib g))
  = Player.current_frame g.
Proof.
  unfold Player.load_frames.
  destruct (Player.frame_files listing) as [|f files]; [split; reflexivity|].
  pose proof (load_loop_keeps lib (List.length (f :: files)) (f :: files) 0 g) as H.
  destruct (Player.load_loop lib (List.length (f :: files)) 0 (f :: files) g) as [[[]|e] g'];
    exact H.
Qed.

(** With every frame file loading, and also with none found,
    [load_frames] returns with the files appended. *)
Lemma load_frames_returns (cache_dir : string) (listing : list string)
    (lib : Player.Pillow) (g : Player.Gui) :
  forallb (Player.loads lib) (Player.frame_files listing) = true ->
  exists g',
    Player.load_frames cache_dir listing lib g = (Returns tt, g') /\
    Player.frames g' = (Player.frames g ++ Player.frame_files listing)%list.
Proof.
  intro Hopen.
  destruct (Player.frame_files listing) as [|f files] eqn:Hfiles.
  - unfold Player.load_frames. rewrite Hfiles. eexists. split; [reflexivity|].
    simpl. rewrite app_nil_r. reflexivity.
  - destruct (load_frames_all_open cache_dir listing lib g) as [g' [Hrun [Hfr _]]].
    + rewrite Hfiles. discriminate.
    + rewrite Hfiles. exact Hopen.
    + exists g'. rewrite Hfiles in Hfr. split; assumption.
Qed.

(** The first call of [animate_model], at frame 0, returns and sets its
    timer. *)
Lemma animate_model_first (g : Player.Gui) :
  Player.current_frame g = 0 ->
  exists g',
    Player.animate_model g = (Returns tt, g') /\
    Player.timers g' = S (Player.timers g) /\
    Player.frames g' = Player.frames g /\
    Player.model_label g' = match Player.frames g with
                            | [] => Player.model_label g
                            | image :: _ => Some image
                            end.
Proof.
  intro H0. destruct (Player.frames g) as [|f fs] eqn:Hframes.
  - unfold Player.animate_model. rewrite Hframes. eexists. split; [reflexivity|].
    simpl. repeat split; try reflexivity; try assumption.
  - destruct (animate_model_in_range g) as [image [Hnth Hrun]].
    + rewrite H0, Hframes. simpl. lia.
    + rewrite Hrun. eexists. split; [reflexivity|]. simpl.
      rewrite H0, Hframes in Hnth. simpl in Hnth. injection Hnth as <-.
      repeat split; try reflexivity; try assumption.
Qed.

(** [scroll_code] returns and sets its timer: at 100 ms without code
    lines, at 80 ms with. *)
Lemma scroll_code_reschedules (canvas_height : Z) (p : Scroll.Panels) :
  fst (Scroll.scroll_code canvas_height p) = Returns tt /\
  Scroll.after (snd (Scroll.scroll_code canvas_height p))
  = (Scroll.after p ++ [match Scroll.code_lines p with [] => 100 | _ => 80 end])%list /\
  Scroll.code_lines (snd (Scroll.scroll_code canvas_height p)) = Scroll.code_lines p.
Proof.
  unfold Scroll.scroll_code.
  destruct (Scroll.code_lines p) as [|l0 ls] eqn:Hlines;
    [repeat split; first [reflexivity|exact Hlines]|].
  assert (Hne : Scroll.code_lines p <> []) by (rewrite Hlines; discriminate).
  assert (Hlen : 0 < Z.of_nat (List.length (l0 :: ls))) by (simpl; lia).
  destruct (draw_each_returns (Scroll.left_item p (canvas_height / Scroll.line_height + 2))
              (shows_code_line (Scroll.code_lines p))
              (Scroll.range (canvas_height / Scroll.line_height + 2)))
    as [left_items [Hleft _]].
  { intro i. apply left_item_returns. exact Hne. }
  rewrite Hleft.
  destruct (mod_float_bounds (Scroll.code_scroll_offset_left p + (1 # 2))
              (Z.of_nat (List.length (l0 :: ls))) Hlen) as [ol [Hol _]].
  rewrite Hol.
  match goal with
  | |- context [draw_each (Scroll.right_item ?p1 _) _] =>
      destruct (draw_each_returns (Scroll.right_item p1 (canvas_height / Scroll.line_height + 2))
                  (shows_code_line (l0 :: ls))
                  (Scroll.range (canvas_height / Scroll.line_height + 2)))
        as [right_items [Hright _]];
        [intro i; apply (right_item_returns p1); simpl; discriminate|]
  end.
  rewrite Hright.
  destruct (mod_float_bounds (Scroll.code_scroll_offset_right p + (3 # 10))
              (Z.of_nat (List.length (l0 :: ls))) Hlen) as [or [Hor _]].
  rewrite Hor. repeat split; first [reflexivity|exact Hlines].
Qed.

(** X16 ([initialize_app]): one frame file on which [Image.open],
    [resize] or [PhotoImage] raises keeps the monitor from starting.
    The exception of the first such file, in sorted order, leaves
    [initialize_app] before the code lines are loaded and the interface
    is set up: the frames sorted before that file are loaded,
    [model_loading] stays as it was, no statistic is sampled, and none
    of the three timers ([update_stats], [animate_model],
    [scroll_code]) is set. *)
Theorem unreadable_frame_keeps_monitor_from_starting
    (cache_dir : string) (listing : list string) (lib : Player.Pillow)
    (shuffle : list string -> list string) (w : world) (canvas_height : Z)
    (a : Startup.App) (before : list string) (bad : string) (rest : list string)
    (e : failure) :
  Player.frame_files listing = (before ++ bad :: rest)%list ->
  forallb (Player.loads lib) before = true ->
  Player.photo lib bad = Fails e ->
  let out := Startup.initialize_app cache_dir listing lib shuffle w canvas_height a in
  fst out = Some (Startup.Failure e) /\
  Startup.model_loading (snd out) = Startup.model_loading a /\
  Startup.monitor (snd out) = Startup.monitor a /\
  Startup.panels (snd out) = Startup.panels a /\
  Startup.loaded (snd out) = Startup.loaded a /\
  Player.timers (Startup.gui (snd out)) = Player.timers (Startup.gui a) /\
  Player.frames (Startup.gui (snd out)) = (Player.frames (Startup.gui a) ++ before)%list.
Proof.
  intros Hfiles Hopen Hbad. cbv zeta. unfold Startup.initialize_app.
  set (g0 := Startup.update_loading_progress _ _ (Startup.gui a)).
  pose proof (load_frames_keeps cache_dir listing lib g0) as [Htimers _].
  assert (Hrun : exists g',
             Player.load_frames cache_dir listing lib g0 = (Fails e, g') /\
             Player.frames g' = (Player.frames g0 ++ before)%list).
  { unfold Player.load_frames. rewrite Hfiles.
    destruct (load_loop_first_failure lib (List.length (before ++ bad :: rest))
                before bad rest e 0 g0 Hopen Hbad) as [g' [Hrun [Hfr _]]].
    rewrite Hrun. exists g'.
    destruct (before ++ bad :: rest)%list eqn:E; [destruct before; discriminate|].
    split; [reflexivity|exact Hfr]. }
  destruct Hrun as [g' [Hrun Hfr]]. rewrite Hrun in *. simpl in *.
  repeat split; assumption.
Qed.

Lemma unreadable_frame_keeps_monitor_from_starting_witness :
  let a := Startup.init {| bytes_sent := 0; bytes_recv := 0 |} 0 sample_disk in
  let out := Startup.initialize_app "cache"
               ["frame_001.png"; "frame_000.png"; "frame_002.png"]%string
               truncated_frame_001
               (@rev string) sample_world 600 a in
  fst out = Some (Startup.Failure ImageFileTruncated) /\
  Startup.model_loading (snd out) = true /\
  timers (Startup.monitor (snd out)) = 0%nat /\
  Player.timers (Startup.gui (snd out)) = 0%nat /\
  Scroll.after (Startup.panels (snd out)) = [].
Proof.
  destruct (unreadable_frame_keeps_monitor_from_starting "cache"
              ["frame_001.png"; "frame_000.png"; "frame_002.png"]%string
              truncated_frame_001
              (@rev string) sample_world 600
              (Startup.init {| bytes_sent := 0; bytes_recv := 0 |} 0 sample_disk)
              ["frame_000.png"%string] "frame_001.png"%string ["frame_002.png"%string]
              ImageFileTruncated)
    as [Hout [Hloading [Hmonitor [Hpanels [_ [Htimers _]]]]]].
  - reflexivity.
  - reflexivity.
  - reflexivity.
  - cbv zeta. split; [exact Hout|]. split; [exact Hloading|].
    split; [rewrite Hmonitor; reflexivity|].
    split; [exact Htimers|rewrite Hpanels; reflexivity].
Defined.

(** X17 ([initialize_app]): when none of [Image.open], [resize] and
    [PhotoImage] raises on any frame file that is found and the first
    sample raises nothing but instances of [Exception],
    [initialize_app] returns with the monitor started: [model_loading]
    is off, the frames are loaded, the panels hold the code lines, and
    each of [update_stats], [animate_model] and [scroll_code] has run
    once and set its timer.  That holds as well with no frame file and
    with no code line at all. *)
Theorem initialize_app_starts_the_three_loops
    (cache_dir : string) (listing : list string) (lib : Player.Pillow)
    (shuffle : list string -> list string) (w : world) (canvas_height : Z)
    (net0 : snetio) (now0 : Z) (d : CodeLines.Disk) :
  forallb (Player.loads lib) (Player.frame_files listing) = true ->
  raises_only_errors w = true ->
  let out := Startup.initialize_app cache_dir listing lib shuffle w canvas_height
               (Startup.init net0 now0 d) in
  let lines := CodeLines.code_lines (CodeLines.load_code_lines shuffle d) in
  fst out = None /\
  Startup.model_loading (snd out) = false /\
  Player.frames (Startup.gui (snd out)) = Player.frame_files listing /\
  Scroll.code_lines (Startup.panels (snd out)) = lines /\
  Startup.monitor (snd out) = after (update_stats w) (init net0 now0) /\
  timers (Startup.monitor (snd out)) = 1%nat /\
  Player.timers (Startup.gui (snd out)) = 1%nat /\
  Scroll.after (Startup.panels (snd out)) = [match lines with [] => 100 | _ => 80 end].
Proof.
  intros Hopen Hw. cbv zeta. unfold Startup.initialize_app.
  set (g0 := Startup.update_loading_progress _ _ (Startup.gui (Startup.init net0 now0 d))).
  destruct (load_frames_returns cache_dir listing lib g0 Hopen) as [g1 [Hload Hfr]].
  pose proof (load_frames_keeps cache_dir listing lib g0) as [Htimers Hcurrent].
  rewrite Hload in *. simpl in Htimers, Hcurrent, Hfr.
  cbn [Startup.monitor Startup.init Startup.loaded Startup.panels CodeLines.disk].
  destruct (update_stats_schedules w (init net0 now0) Hw) as [Hok Htm].
  unfold after in *.
  destruct (update_stats w (init net0 now0)) as [[[]|e] s]; simpl in Hok; [|discriminate].
  simpl in Htm.
  match goal with
  | |- context [Player.animate_model ?g3] =>
      destruct (animate_model_first g3) as [g4 [Hanimate [Htm4 [Hfr4 _]]]];
        [exact Hcurrent|]
  end.
  rewrite Hanimate. simpl in Htm4, Hfr4.
  match goal with
  | |- context [Scroll.scroll_code canvas_height ?p] =>
      destruct (scroll_code_reschedules canvas_height p) as [Hscroll [Hafter Hlines]];
      destruct (Scroll.scroll_code canvas_height p) as [[[]|e] p']
  end; simpl in Hscroll; [|discriminate].
  simpl in Hafter, Hlines. simpl.
  split; [reflexivity|]. split; [reflexivity|].
  split; [rewrite Hfr4; exact Hfr|].
  split; [exact Hlines|]. split; [reflexivity|].
  split; [exact Htm|]. split; [rewrite Htm4; exact (f_equal S Htimers)|exact Hafter].
Qed.

Lemma initialize_app_starts_the_three_loops_witness :
  let out := Startup.initialize_app "cache" (rev rendered_files) sound_library
               (@rev string) sample_world 600
               (Startup.init {| bytes_sent := 0; bytes_recv := 0 |} 0 sample_disk) in
  fst out = None /\
  List.length (Player.frames (Startup.gui (snd out))) = 120%nat /\
  timers (Startup.monitor (snd out)) = 1%nat /\
  Player.timers (Startup.gui (snd out)) = 1%nat.
Proof.
  destruct (initialize_app_starts_the_three_loops "cache" (rev rendered_files)
              sound_library (@rev string) sample_world 600
              {| bytes_sent := 0; bytes_recv := 0 |} 0 sample_disk)
    as [Hout [_ [Hframes [_ [_ [Hstats [Hanimate _]]]]]]].
  - vm_compute. reflexivity.
  - reflexivity.
  - cbv zeta. split; [exact Hout|]. split; [|split; [exact Hstats|exact Hanimate]].
    rewrite Hframes. vm_compute. reflexivity.
Defined.
